(** * mq/sqs: the long-poll consumer of [sqs.go]

    A shallow embedding of [NewSQS], [NewSQSV1], [processMessages] and
    [processMessagesV1].  The AWS session and queue client, the JSON decoder,
    the wall clock and the user callback are collaborators: they are taken as
    functions over an abstract [World], and every call the worker makes to
    them (and every log line it writes) is recorded, with its result, in the
    trace of the cycle. *)

From Stdlib Require Import String Ascii List ZArith Lia Bool.
From Stdlib Require Import FMapAVL FMapFacts OrderedTypeEx.
From Stdlib Require Import DecimalString DecimalZ DecimalPos.
From Stdlib Require Import PrimFloat.
Import ListNotations.

Local Open Scope Z_scope.
Local Open Scope list_scope.

(** ** Data *)

Definition HandleTimeoutMS : Z := 1000.

(** A Go [(T, error)] result of a collaborator that returns either a value or
    an error, never both.  An [error] is kept as its [Error()] text. *)
Inductive Result (A : Type) : Type :=
| Ok (a : A)
| Err (e : string).
Arguments Ok {A} a.
Arguments Err {A} e.

Record SQSConfig : Type := {
  ARN : string;
  Region : string;
  APIKey : string;
  SecretKey : string;
  QueueUrl : string;
  MessageGroupId : option string;
  ConsumerCnt : Z;
  ProducerCnt : Z
}.

(** [sqs.Message]: the three fields the consumer reads, each a [*string]. *)
Record Message : Type := {
  MessageId : option string;
  ReceiptHandle : option string;
  Body : option string
}.

Record DeleteMessageBatchRequestEntry : Type := {
  Id : option string;
  EntryReceiptHandle : option string
}.

Record DeleteMessageBatchInput : Type := {
  Entries : list DeleteMessageBatchRequestEntry;
  DeleteQueueUrl : string
}.

Record ReceiveMessageInput : Type := {
  ReceiveQueueUrl : string;
  MaxNumberOfMessages : Z;
  WaitTimeSeconds : Z
}.

(** [aws.Config] as the worker fills it: the region and, when both keys are
    set, static credentials (key, secret, token). *)
Record Config : Type := {
  ConfigRegion : string;
  Credentials : option (string * string * string)
}.

(** The anonymous struct [rawMessage] of the wrapped variant. *)
Record RawMessage : Type := {
  RawMsg : string;
  RawTimestamp : string
}.

Inductive Level : Type := LevelInfo | LevelError.

Inductive Field : Type :=
| FStr (s : string)
| FInt (z : Z)
| FMsg (m : Message).

Definition Fields : Type := list (string * Field).

(** The entry staged for a message: its id and its receipt handle. *)
Definition entryOf (msg : Message) : DeleteMessageBatchRequestEntry :=
  {| Id := MessageId msg; EntryReceiptHandle := ReceiptHandle msg |}.

Definition entry_eq_dec (a b : DeleteMessageBatchRequestEntry) : {a = b} + {a <> b}.
Proof.
  decide equality; decide equality; apply string_dec.
Defined.

(** [strings.Contains]. *)
Fixpoint Contains (s substr : string) : bool :=
  if String.prefix substr s then true
  else match s with
       | EmptyString => false
       | String _ s' => Contains s' substr
       end.

(** [errors.Wrap(err, message).Error()]. *)
Definition Wrap (err message : string) : string :=
  String.append message (String.append ": " err).

Definition nonEmpty (s : string) : bool :=
  match s with EmptyString => false | _ => true end.

(** The goroutines a constructor starts. *)
Inductive Goroutine : Type :=
| GoProcessMessages (i : Z)
| GoProcessMessagesV1 (i : Z).

(** [for i := 0; i < cnt; i++ { go f(i) }]: the values of [i] the body runs
    at.  The fuel is the number of iterations left. *)
Fixpoint spawnLoop (fuel : nat) (i cnt : Z) : list Z :=
  match fuel with
  | O => []
  | S fuel' => if i <? cnt then i :: spawnLoop fuel' (i + 1) cnt else []
  end.

Section Consumer.

Context {World Session Service : Type}.

(** ** Collaborators *)

(** [MessageCB]: the callback reads and changes the world and returns [nil]
    ([None]) or an error. *)
Definition MessageCB : Type := string -> World -> option string * World.

Record SQS : Type := {
  config : SQSConfig;
  messageCB : option MessageCB
}.

Record Env : Type := {
  (** [session.NewSession] *)
  NewSession : Config -> World -> Result Session * World;
  (** [sqs.New] *)
  New : Session -> Service;
  (** [ReceiveMessageWithContext], with the timeout of its context in seconds *)
  ReceiveMessageWithContext :
    Service -> Z -> ReceiveMessageInput -> World -> Result (list Message) * World;
  (** [DeleteMessageBatchWithContext]; the output value is dropped by the caller *)
  DeleteMessageBatchWithContext :
    Service -> Z -> DeleteMessageBatchInput -> World -> option string * World;
  (** [json.Unmarshal] into [rawMessage] *)
  Unmarshal : string -> Result RawMessage;
  (** [time.Since(tp).Milliseconds()], [tp] read in the first world *)
  SinceMs : World -> World -> Z
}.

Inductive Event : Type :=
| EvLog (lvl : Level) (text : string) (fields : Fields)
| EvNewSession (cfg : Config) (r : Result Session)
| EvNew (sess : Session)
| EvReceive (sv : Service) (timeout : Z) (inp : ReceiveMessageInput)
            (r : Result (list Message))
| EvUnmarshal (body : string) (r : Result RawMessage)
| EvCallback (msg : string) (r : option string)
| EvDelete (sv : Service) (timeout : Z) (inp : DeleteMessageBatchInput)
           (r : option string).

Definition Trace : Type := list Event.

(** The variables a worker keeps across iterations of its [for]. *)
Record Worker : Type := {
  cfgSession : option Session;
  service : option Service;
  err : option string
}.

Definition newWorker : Worker :=
  {| cfgSession := None; service := None; err := None |}.

(** ** Constructors

    A constructor returns the consumer and the goroutines it has started;
    the logger it is given is the trace of the workers. *)

Definition NewSQS (sqsConfig : SQSConfig) (cb : option MessageCB)
  : SQS * list Goroutine :=
  let s := {| config := sqsConfig; messageCB := cb |} in
  (s, map GoProcessMessages
          (spawnLoop (Z.to_nat (ConsumerCnt sqsConfig)) 0 (ConsumerCnt sqsConfig))).

Definition NewSQSV1 (sqsConfig : SQSConfig) (cb : option MessageCB)
  : SQS * list Goroutine :=
  let s := {| config := sqsConfig; messageCB := cb |} in
  (s, map GoProcessMessagesV1
          (spawnLoop (Z.to_nat (ConsumerCnt sqsConfig)) 0 (ConsumerCnt sqsConfig))).

(** ** The session block, shared by both loops up to the name in the logs *)

Definition awsConfig (s : SQS) : Config :=
  if nonEmpty (APIKey (config s)) && nonEmpty (SecretKey (config s))
  then {| ConfigRegion := Region (config s);
          Credentials := Some (APIKey (config s), SecretKey (config s), EmptyString) |}
  else {| ConfigRegion := Region (config s); Credentials := None |}.

Definition tagged (fn text : string) : string :=
  String.append "sqs SQS." (String.append fn text).

(** [if cfgSession == nil { ... }]: the last component is the session to go
    on with, [None] when the closure returns. *)
Definition initSession (fn : string) (e : Env) (s : SQS) (st : Worker) (w : World)
  : Worker * World * Trace * option Session :=
  match cfgSession st with
  | Some sess => (st, w, [], Some sess)
  | None =>
      let cfg := awsConfig s in
      let '(r, w1) := NewSession e cfg w in
      match r with
      | Err err0 =>
          let err1 := Wrap err0 (tagged fn " session") in
          ({| cfgSession := None; service := service st; err := Some err1 |}, w1,
           [EvNewSession cfg r;
            EvLog LevelError (tagged fn " session") [("err"%string, FStr err1)]],
           None)
      | Ok sess =>
          ({| cfgSession := Some sess; service := service st; err := None |}, w1,
           [EvNewSession cfg r;
            EvLog LevelInfo (tagged fn " session init success") []],
           Some sess)
      end
  end.

(** [if service == nil { service = sqs.New(cfgSession) }] *)
Definition initService (e : Env) (st : Worker) (sess : Session)
  : Worker * Service * Trace :=
  match service st with
  | Some sv => (st, sv, [])
  | None =>
      let sv := New e sess in
      ({| cfgSession := cfgSession st; service := Some sv; err := err st |},
       sv, [EvNew sess])
  end.

Definition receiveInput (s : SQS) (waitSeconds : Z) : ReceiveMessageInput :=
  {| ReceiveQueueUrl := QueueUrl (config s);
     MaxNumberOfMessages := 10;
     WaitTimeSeconds := waitSeconds |}.

(** The head of the closure, up to the return of [ReceiveMessageWithContext]:
    session, client, then the long poll under a context of
    [waitSeconds + 1] seconds.  The last component is [None] when the closure
    has returned in the session block. *)
Definition pollMessages (fn : string) (waitSeconds : Z) (e : Env) (s : SQS)
  (st : Worker) (w : World)
  : Worker * World * Trace * option (Service * Result (list Message)) :=
  let '(st1, w1, t1, osess) := initSession fn e s st w in
  match osess with
  | None => (st1, w1, t1, None)
  | Some sess =>
      let '(st2, sv, t2) := initService e st1 sess in
      let inp := receiveInput s waitSeconds in
      let '(r, w2) := ReceiveMessageWithContext e sv (waitSeconds + 1) inp w1 in
      (st2, w2, t1 ++ t2 ++ [EvReceive sv (waitSeconds + 1) inp r], Some (sv, r))
  end.

(** The tail of the closure, from [if len(deleteEntries) == 0]. *)
Definition deleteMessages (fn : string) (e : Env) (s : SQS) (sv : Service)
  (deleteEntries : list DeleteMessageBatchRequestEntry) (w : World)
  : World * Trace :=
  match deleteEntries with
  | [] => (w, [])
  | _ :: _ =>
      let inp := {| Entries := deleteEntries;
                    DeleteQueueUrl := QueueUrl (config s) |} in
      let '(r, w1) := DeleteMessageBatchWithContext e sv 1 inp w in
      match r with
      | Some err0 =>
          (w1, [EvDelete sv 1 inp r;
                EvLog LevelError (tagged fn " delete message fail.")
                      [("error"%string, FStr err0)]])
      | None => (w1, [EvDelete sv 1 inp r])
      end
  end.

Definition slowLog (fn : string) (s : SQS) (cost : Z) : Trace :=
  if cost >? HandleTimeoutMS
  then [EvLog LevelError (tagged fn " handle msg cost.")
              [("sqsArn"%string, FStr (ARN (config s))); ("cost"%string, FInt cost)]]
  else [].

(** ** [processMessages]: the wrapped variant (sns -> sqs) *)

(** One pass of the body of [for _, msg := range msgResult.Messages]. *)
Definition handleMessage (e : Env) (s : SQS) (msg : Message)
  (deleteEntries : list DeleteMessageBatchRequestEntry) (w : World)
  : list DeleteMessageBatchRequestEntry * World * Trace :=
  match Body msg with
  | None => (deleteEntries, w, [])
  | Some body =>
      match Unmarshal e body with
      | Err err0 =>
          (deleteEntries ++ [entryOf msg], w,
           [EvUnmarshal body (Err err0);
            EvLog LevelError (tagged "processMessages" " unmarshal raw message fail.")
                  [("err"%string, FStr err0); ("msg"%string, FStr body)]])
      | Ok rawMessage =>
          match messageCB s with
          | None => (deleteEntries, w, [EvUnmarshal body (Ok rawMessage)])
          | Some cb =>
              let '(r, w1) := cb (RawMsg rawMessage) w in
              match r with
              | Some err0 =>
                  (deleteEntries, w1,
                   [EvUnmarshal body (Ok rawMessage);
                    EvCallback (RawMsg rawMessage) r;
                    EvLog LevelError (tagged "processMessages" " handle msg fail.")
                          [("err"%string, FStr err0);
                           ("msg"%string, FStr (RawMsg rawMessage))]])
              | None =>
                  (deleteEntries ++ [entryOf msg], w1,
                   [EvUnmarshal body (Ok rawMessage);
                    EvCallback (RawMsg rawMessage) r]
                   ++ slowLog "processMessages" s (SinceMs e w w1))
              end
          end
      end
  end.

Fixpoint rangeMessages (e : Env) (s : SQS) (msgs : list Message)
  (deleteEntries : list DeleteMessageBatchRequestEntry) (w : World)
  : list DeleteMessageBatchRequestEntry * World * Trace :=
  match msgs with
  | [] => (deleteEntries, w, [])
  | msg :: rest =>
      let '(de1, w1, t1) := handleMessage e s msg deleteEntries w in
      let '(de2, w2, t2) := rangeMessages e s rest de1 w1 in
      (de2, w2, t1 ++ t2)
  end.

(** One call of the closure in the [for] of [processMessages]. *)
Definition processMessagesCycle (e : Env) (s : SQS) (st : Worker) (w : World)
  : Worker * World * Trace :=
  let '(st2, w2, t0, o) := pollMessages "processMessages" 20 e s st w in
  match o with
  | None => (st2, w2, t0)
  | Some (sv, Err err0) =>
      (st2, w2,
       t0 ++ [EvLog LevelError (tagged "processMessages" " receive message fail.")
                    [("err"%string, FStr err0)]])
  | Some (sv, Ok []) => (st2, w2, t0)
  | Some (sv, Ok msgs) =>
      let '(deleteEntries, w3, t3) := rangeMessages e s msgs [] w2 in
      let '(w4, t4) := deleteMessages "processMessages" e s sv deleteEntries w3 in
      (st2, w4, t0 ++ t3 ++ t4)
  end.

(** ** [processMessagesV1]: the raw variant (sqs -> sqs) *)

(** One pass of the body of [for i, msg := range msgResult.Messages]. *)
Definition handleMessageV1 (e : Env) (s : SQS) (i : Z) (msg : Message)
  (deleteEntries : list DeleteMessageBatchRequestEntry) (w : World)
  : list DeleteMessageBatchRequestEntry * World * Trace :=
  match Body msg with
  | None => (deleteEntries, w, [])
  | Some body =>
      let t0 := [EvLog LevelInfo (tagged "processMessagesV1" " handle message")
                       [("index"%string, FInt i); ("msg"%string, FMsg msg)]] in
      match messageCB s with
      | None => (deleteEntries, w, t0)
      | Some cb =>
          let '(r, w1) := cb body w in
          match r with
          | Some err0 =>
              (deleteEntries, w1,
               t0 ++
               [EvCallback body r;
                EvLog LevelError (tagged "processMessagesV1" " handle msg fail.")
                      [("err"%string, FStr err0); ("msg"%string, FStr body)]])
          | None =>
              (deleteEntries ++ [entryOf msg], w1,
               t0 ++ [EvCallback body r]
               ++ slowLog "processMessagesV1" s (SinceMs e w w1))
          end
      end
  end.

Fixpoint rangeMessagesV1 (e : Env) (s : SQS) (i : Z) (msgs : list Message)
  (deleteEntries : list DeleteMessageBatchRequestEntry) (w : World)
  : list DeleteMessageBatchRequestEntry * World * Trace :=
  match msgs with
  | [] => (deleteEntries, w, [])
  | msg :: rest =>
      let '(de1, w1, t1) := handleMessageV1 e s i msg deleteEntries w in
      let '(de2, w2, t2) := rangeMessagesV1 e s (i + 1) rest de1 w1 in
      (de2, w2, t1 ++ t2)
  end.

(** One call of the closure in the [for] of [processMessagesV1]. *)
Definition processMessagesV1Cycle (e : Env) (s : SQS) (st : Worker) (w : World)
  : Worker * World * Trace :=
  let '(st2, w2, t0, o) := pollMessages "processMessagesV1" 5 e s st w in
  match o with
  | None => (st2, w2, t0)
  | Some (sv, Err err0) =>
      (st2, w2,
       t0 ++ (if negb (Contains err0 "context deadline exceeded")
              then [EvLog LevelError (tagged "processMessagesV1" " receive message fail.")
                          [("err"%string, FStr err0)]]
              else []))
  | Some (sv, Ok []) => (st2, w2, t0)
  | Some (sv, Ok msgs) =>
      let t1 := [EvLog LevelInfo (tagged "processMessagesV1" " received messages")
                       [("len"%string, FInt (Z.of_nat (length msgs)))]] in
      let '(deleteEntries, w3, t3) := rangeMessagesV1 e s 0 msgs [] w2 in
      let '(w4, t4) := deleteMessages "processMessagesV1" e s sv deleteEntries w3 in
      (st2, w4, t0 ++ t1 ++ t3 ++ t4)
  end.

(** ** The [for { ... }] of a worker *)

(** The first [n] iterations of [for { func() {...}() }], one trace per
    iteration.  The Go loop has no exit; [n] only bounds how far it is
    observed. *)
Fixpoint forLoop (cycle : Worker -> World -> Worker * World * Trace)
  (n : nat) (st : Worker) (w : World) : Worker * World * list Trace :=
  match n with
  | O => (st, w, [])
  | S n' =>
      let '(st1, w1, t) := cycle st w in
      let '(st2, w2, ts) := forLoop cycle n' st1 w1 in
      (st2, w2, t :: ts)
  end.

Definition startLog (fn : string) (i : Z) : Event :=
  EvLog LevelInfo (tagged fn " start. task_id:%d") [("task_id"%string, FInt i)].

Definition processMessages (e : Env) (s : SQS) (i : Z) (n : nat) (w : World)
  : Worker * World * list Trace :=
  let '(st, w1, ts) := forLoop (processMessagesCycle e s) n newWorker w in
  (st, w1, [startLog "processMessages" i] :: ts).

Definition processMessagesV1 (e : Env) (s : SQS) (i : Z) (n : nat) (w : World)
  : Worker * World * list Trace :=
  let '(st, w1, ts) := forLoop (processMessagesV1Cycle e s) n newWorker w in
  (st, w1, [startLog "processMessagesV1" i] :: ts).

(** ** Observations on a trace *)

Definition deleteCalls (t : Trace) : list DeleteMessageBatchInput :=
  flat_map (fun ev => match ev with EvDelete _ _ inp _ => [inp] | _ => [] end) t.

Definition callbackCalls (t : Trace) : list string :=
  flat_map (fun ev => match ev with EvCallback m _ => [m] | _ => [] end) t.

Definition unmarshalCalls (t : Trace) : list string :=
  flat_map (fun ev => match ev with EvUnmarshal b _ => [b] | _ => [] end) t.

Definition receiveCalls (t : Trace) : list (Result (list Message)) :=
  flat_map (fun ev => match ev with EvReceive _ _ _ r => [r] | _ => [] end) t.

Definition sessionCalls (t : Trace) : list Config :=
  flat_map (fun ev => match ev with EvNewSession cfg _ => [cfg] | _ => [] end) t.

Definition clientBuilds (t : Trace) : list Session :=
  flat_map (fun ev => match ev with EvNew sess => [sess] | _ => [] end) t.

Definition errorLogs (t : Trace) : list string :=
  flat_map (fun ev => match ev with EvLog LevelError text _ => [text] | _ => [] end) t.

(** ** The two loops side by side *)

Inductive Variant : Type := Wrapped | Raw.

Definition fnOf (v : Variant) : string :=
  match v with
  | Wrapped => "processMessages"
  | Raw => "processMessagesV1"
  end.

Definition waitOf (v : Variant) : Z :=
  match v with Wrapped => 20 | Raw => 5 end.

Definition cycleOf (v : Variant) : Env -> SQS -> Worker -> World -> Worker * World * Trace :=
  match v with
  | Wrapped => processMessagesCycle
  | Raw => processMessagesV1Cycle
  end.

(** The [range] loop of a variant, entered at index [i] (the wrapped loop
    does not bind the index). *)
Definition rangeOf (v : Variant) (e : Env) (s : SQS) (i : Z) (msgs : list Message)
  (deleteEntries : list DeleteMessageBatchRequestEntry) (w : World)
  : list DeleteMessageBatchRequestEntry * World * Trace :=
  match v with
  | Wrapped => rangeMessages e s msgs deleteEntries w
  | Raw => rangeMessagesV1 e s i msgs deleteEntries w
  end.

(** What a variant hands to the callback for a message body: the [Message]
    field of the decoded envelope, or the body itself.  [None]: the envelope
    does not decode. *)
Definition payload (v : Variant) (e : Env) (body : string) : option string :=
  match v with
  | Wrapped => match Unmarshal e body with
               | Ok rawMessage => Some (RawMsg rawMessage)
               | Err _ => None
               end
  | Raw => Some body
  end.

(** The line the raw loop logs between the length check and the [range]. *)
Definition receivedLog (v : Variant) (msgs : list Message) : Trace :=
  match v, msgs with
  | Raw, _ :: _ =>
      [EvLog LevelInfo (tagged "processMessagesV1" " received messages")
             [("len"%string, FInt (Z.of_nat (length msgs)))]]
  | _, _ => []
  end.

(** The bodies of the messages that have one, in batch order. *)
Definition bodies (msgs : list Message) : list string :=
  flat_map (fun m => match Body m with Some b => [b] | None => [] end) msgs.

(** A message of the wrapped loop whose body is there and does not decode. *)
Definition poison (e : Env) (msg : Message) : bool :=
  match Body msg with
  | Some body => match Unmarshal e body with Err _ => true | Ok _ => false end
  | None => false
  end.

(** ** Further observations *)

(** [l1] is [l2] with some elements left out, the order kept. *)
Inductive subseq {A : Type} : list A -> list A -> Prop :=
| subseq_nil : subseq [] []
| subseq_skip x l1 l2 : subseq l1 l2 -> subseq l1 (x :: l2)
| subseq_keep x l1 l2 : subseq l1 l2 -> subseq (x :: l1) (x :: l2).

(** The environment [e] read with another clock. *)
Definition withClock (e : Env) (since : World -> World -> Z) : Env :=
  {| NewSession := NewSession e;
     New := New e;
     ReceiveMessageWithContext := ReceiveMessageWithContext e;
     DeleteMessageBatchWithContext := DeleteMessageBatchWithContext e;
     Unmarshal := Unmarshal e;
     SinceMs := since |}.

Definition hasBody (msg : Message) : bool :=
  match Body msg with Some _ => true | None => false end.

(** What the wrapped loop hands to the callback over a batch: the [Message]
    field of every body that decodes, in batch order. *)
Definition payloads (e : Env) (msgs : list Message) : list string :=
  flat_map (fun m => match Body m with
                     | Some b => match payload Wrapped e b with
                                 | Some p => [p]
                                 | None => []
                                 end
                     | None => []
                     end) msgs.

(** The sessions that [NewSession] returned. *)
Definition sessionsBuilt (t : Trace) : list Session :=
  flat_map (fun ev => match ev with EvNewSession _ (Ok sess) => [sess] | _ => [] end) t.

(** The arguments a variant gives to its collaborators: the receive asks for
    at most ten messages of the configured queue with the variant's wait,
    under a context one second longer; the delete names the same queue,
    carries something, and has one second; the session is asked for the
    configured region, with the static key pair or with no credentials. *)
Definition callShape (v : Variant) (s : SQS) (ev : Event) : Prop :=
  match ev with
  | EvReceive _ timeout inp _ =>
      timeout = waitOf v + 1
      /\ inp = {| ReceiveQueueUrl := QueueUrl (config s);
                  MaxNumberOfMessages := 10;
                  WaitTimeSeconds := waitOf v |}
  | EvDelete _ timeout inp _ =>
      timeout = 1 /\ DeleteQueueUrl inp = QueueUrl (config s) /\ Entries inp <> []
  | EvNewSession cfg _ =>
      ConfigRegion cfg = Region (config s)
      /\ (Credentials cfg = Some (APIKey (config s), SecretKey (config s), EmptyString)
          /\ APIKey (config s) <> EmptyString /\ SecretKey (config s) <> EmptyString
          \/ Credentials cfg = None
             /\ (APIKey (config s) = EmptyString \/ SecretKey (config s) = EmptyString))
  | _ => True
  end.

(** Neither session nor client yet. *)
Definition fresh (st : Worker) : Prop :=
  cfgSession st = None /\ service st = None.

(** The queue calls of an event go through the client [sv]. *)
Definition usesService (sv : Service) (ev : Event) : Prop :=
  match ev with
  | EvReceive sv' _ _ _ => sv' = sv
  | EvDelete sv' _ _ _ => sv' = sv
  | _ => True
  end.

(** Every entry of every delete call of the trace is the entry of a message
    returned by a receive of the same trace. *)
Definition ownBatch (t : Trace) : Prop :=
  forall d x, In d (deleteCalls t) -> In x (Entries d) ->
  exists msgs msg, In (Ok msgs) (receiveCalls t) /\ In msg msgs /\ x = entryOf msg.

(** Session and client are both there. *)
Definition ready (st : Worker) : Prop :=
  cfgSession st <> None /\ service st <> None.

End Consumer.

(** ** A concrete world for the examples

    The world is a clock in milliseconds.  The queue answers every receive
    with [recv] and every delete with [del]; the session comes up once the
    clock has reached [up]. *)

Definition quote : string := String (ascii_of_nat 34) EmptyString.

Fixpoint stripPrefix (p s : string) : option string :=
  match p, s with
  | EmptyString, _ => Some s
  | String a p', String b s' => if Ascii.eqb a b then stripPrefix p' s' else None
  | String _ _, EmptyString => None
  end.

(** The characters up to the next double quote, and what follows it; escapes
    are not read. *)
Fixpoint untilQuote (s : string) : option (string * string) :=
  match s with
  | EmptyString => None
  | String c s' =>
      if Ascii.eqb c (ascii_of_nat 34) then Some (EmptyString, s')
      else if Ascii.eqb c (ascii_of_nat 92) then None
      else match untilQuote s' with
           | Some (a, r) => Some (String c a, r)
           | None => None
           end
  end.

Definition key (name : string) : string :=
  String.append quote (String.append name (String.append quote (String.append ":" quote))).

(** The text of an envelope with the two string fields. *)
Definition envelope (m t : string) : string :=
  String.append "{"
    (String.append (key "Message")
       (String.append m
          (String.append quote
             (String.append ","
                (String.append (key "Timestamp")
                   (String.append t (String.append quote "}"))))))).

(** A decoder for the examples: it reads the envelopes written by [envelope]
    and rejects every other text. *)
Definition sampleUnmarshal (body : string) : Result RawMessage :=
  match stripPrefix (String.append "{" (key "Message")) body with
  | None => Err "invalid character"
  | Some r1 =>
      match untilQuote r1 with
      | None => Err "unexpected end of JSON input"
      | Some (m, r2) =>
          match stripPrefix (String.append "," (key "Timestamp")) r2 with
          | None => Err "invalid character"
          | Some r3 =>
              match untilQuote r3 with
              | None => Err "unexpected end of JSON input"
              | Some (t, r4) =>
                  if String.eqb r4 "}"
                  then Ok {| RawMsg := m; RawTimestamp := t |}
                  else Err "invalid character"
              end
          end
      end
  end.

Definition sampleEnv (up : Z) (recv : Result (list Message)) (del : option string)
  : @Env Z string string :=
  {| NewSession := fun cfg w =>
       if w <? up then (Err "no region", w + 1) else (Ok (ConfigRegion cfg), w + 1);
     New := fun sess => String.append "sqs@" sess;
     ReceiveMessageWithContext := fun _ _ _ w => (recv, w + 1);
     DeleteMessageBatchWithContext := fun _ _ _ w => (del, w + 1);
     Unmarshal := sampleUnmarshal;
     SinceMs := fun w0 w1 => w1 - w0 |}.

(** A callback that fails on the text [bad] and takes 2 ms otherwise. *)
Definition sampleCB : @MessageCB Z :=
  fun msg w => if String.eqb msg "bad" then (Some "boom"%string, w + 1) else (None, w + 2).

Definition sampleConfig (cnt : Z) : SQSConfig :=
  {| ARN := "arn:aws:sqs:q"; Region := "eu-west-1"; APIKey := ""; SecretKey := "";
     QueueUrl := "https://sqs/q"; MessageGroupId := None;
     ConsumerCnt := cnt; ProducerCnt := 0 |}.

Definition sampleSQS (cb : option (@MessageCB Z)) : @SQS Z :=
  {| config := sampleConfig 1; messageCB := cb |}.

Definition mkMessage (id body : string) : Message :=
  {| MessageId := Some id; ReceiptHandle := Some (String.append "rh-" id);
     Body := Some body |}.

(** Scenario batches: three raw messages whose callbacks return success,
    failure, success; and three wrapped ones of which the second does not
    decode and the third fails in the callback. *)
Definition rawBatch : list Message :=
  [mkMessage "1" "hello"; mkMessage "2" "bad"; mkMessage "3" "world"].

Definition wrappedBatch : list Message :=
  [mkMessage "1" (envelope "hello" "t1"); mkMessage "2" "junk";
   mkMessage "3" (envelope "bad" "t3")].

Definition deadline : string := "RequestCanceled: request context canceled caused by: context deadline exceeded".

Definition rawEnv : @Env Z string string := sampleEnv 0 (Ok rawBatch) None.
Definition wrappedEnv : @Env Z string string := sampleEnv 0 (Ok wrappedBatch) None.
Definition withCB : @SQS Z := sampleSQS (Some sampleCB).
Definition m1 : Message := mkMessage "1" "hello".
Definition m2 : Message := mkMessage "2" "bad".
Definition m3 : Message := mkMessage "3" "world".
Definition n1 : Message := mkMessage "1" (envelope "hello" "t1").
Definition n2 : Message := mkMessage "2" "junk".
Definition n3 : Message := mkMessage "3" (envelope "bad" "t3").
Definition sampleUrl : string := "https://sqs/q".

Definition noCB : @SQS Z := sampleSQS None.
Definition deadlineEnv : @Env Z string string := sampleEnv 0 (Err deadline) None.
Definition failingDeleteEnv : @Env Z string string :=
  sampleEnv 0 (Ok rawBatch) (Some "timeout"%string).
Definition lateSessionEnv : @Env Z string string := sampleEnv 1 (Ok []) None.
Definition readyWorker : @Worker string string :=
  {| cfgSession := Some "eu-west-1"%string; service := Some "sqs@eu-west-1"%string;
     err := None |}.

(** * dynamo/help.go: expression builders and item flattening

    Go maps that are written or looked up are finite maps over strings; a Go
    map that is ranged over is given as the sequence of its entries in the
    order the [range] visits them, which Go leaves unspecified. *)

Module StringMap := FMapAVL.Make String_as_OT.
Module StringMapFacts := FMapFacts.Properties StringMap.

(** [%d] of an [int]. *)
Definition itoa (z : Z) : string := NilZero.string_of_int (Z.to_int z).

(** [strings.Join]. *)
Fixpoint Join (elems : list string) (sep : string) : string :=
  match elems with
  | [] => EmptyString
  | x :: rest =>
      match rest with
      | [] => x
      | _ :: _ => String.append x (String.append sep (Join rest sep))
      end
  end.

(** [strings.Split(key, ",")[0]]: the text before the first comma. *)
Fixpoint beforeComma (key : string) : string :=
  match key with
  | EmptyString => EmptyString
  | String c rest =>
      if Ascii.eqb c ","%char then EmptyString else String c (beforeComma rest)
  end.

(** [fmt.Sprintf("#%s%d", prefix, index)] and [fmt.Sprintf(":%s%d", prefix, index)]. *)
Definition namePlaceholderOf (prefix : string) (index : Z) : string :=
  String.append "#" (String.append prefix (itoa index)).

Definition valuePlaceholderOf (prefix : string) (index : Z) : string :=
  String.append ":" (String.append prefix (itoa index)).

(** The placeholder prefixes, constants of the package declared outside
    [help.go]. *)
Record Prefixes : Type := {
  NamePlaceholderUpdatePrefix : string;
  ValuePlaceholderUpdatePrefix : string;
  NamePlaceholderRemovePrefix : string;
  NamePlaceholderAttrExistsPrefix : string;
  NamePlaceholderAttrNotExistsPrefix : string;
  NamePlaceholderAttrEqualPrefix : string;
  ValuePlaceholderAttrEqualPrefix : string;
  NamePlaceholderAttrNotExistsOrEqual : string;
  ValuePlaceholderAttrNotExistsOrEqual : string
}.

(** [math.IsNaN], [math.IsInf(f, 0)] and the body of [Float64]; [IsEqual] is
    [xutils.IsEqual], declared outside [help.go]. *)
Definition Float64 (IsEqual : float -> float -> bool) (f : float) : float :=
  if PrimFloat.is_nan f then 0%float
  else if PrimFloat.is_infinity f then 0%float
  else if IsEqual f 0%float then 0%float
  else f.

(** No placeholder numbered under prefix [a] is one numbered under [b]. *)
Definition apart (a b : string) : Prop :=
  forall i j : Z, String.append a (itoa i) <> String.append b (itoa j).

Section Dynamo.

(** The values of type [any] other than the [float64] ones. *)
Context {Any : Type}.
Context (P : Prefixes).

(** ** [getUpdateExpression] *)

(** [for k, v := range sets { ... }] *)
Fixpoint rangeSets (sets : list (string * Any)) (index : Z) (setExpression : string)
  (names : StringMap.t string) (values : StringMap.t Any)
  : string * StringMap.t string * StringMap.t Any :=
  match sets with
  | [] => (setExpression, names, values)
  | (k, v) :: rest =>
      let name := namePlaceholderOf (NamePlaceholderUpdatePrefix P) index in
      let value := valuePlaceholderOf (ValuePlaceholderUpdatePrefix P) index in
      let names := StringMap.add name k names in
      let values := StringMap.add value v values in
      let setExpression :=
        if nonEmpty setExpression then String.append setExpression "," else setExpression in
      rangeSets rest (index + 1)
        (String.append setExpression (String.append name (String.append "=" value)))
        names values
  end.

(** [for k := range removes { ... }] *)
Fixpoint rangeRemoves (removes : list (string * Any)) (index : Z)
  (removeExpression : string) (names : StringMap.t string)
  : string * StringMap.t string :=
  match removes with
  | [] => (removeExpression, names)
  | (k, _) :: rest =>
      let name := namePlaceholderOf (NamePlaceholderRemovePrefix P) index in
      let names := StringMap.add name k names in
      let removeExpression :=
        if nonEmpty removeExpression then String.append removeExpression ","
        else removeExpression in
      rangeRemoves rest (index + 1) (String.append removeExpression name) names
  end.

(** The expression, and [names] and [values] as the call leaves them. *)
Definition getUpdateExpression (sets removes : list (string * Any))
  (names : StringMap.t string) (values : StringMap.t Any)
  : string * StringMap.t string * StringMap.t Any :=
  let '(setExpression, names1, values1) := rangeSets sets 1 EmptyString names values in
  let '(removeExpression, names2) := rangeRemoves removes 1 EmptyString names1 in
  let updateExpression := EmptyString in
  let updateExpression :=
    if nonEmpty setExpression
    then String.append (String.append updateExpression " SET ") setExpression
    else updateExpression in
  let updateExpression :=
    if nonEmpty removeExpression
    then String.append (String.append updateExpression " REMOVE ") removeExpression
    else updateExpression in
  (updateExpression, names2, values1).

(** ** [getConditionExpression] *)

(** [Conditions], declared outside [help.go], with the fields
    [getConditionExpression] reads: four maps keyed by attribute name, each
    in the order its [range] visits it.  Of the first two only the keys are
    read. *)
Record Conditions : Type := {
  AttributeExists : list string;
  AttributeNotExists : list string;
  AttributeEqual : list (string * Any);
  AttributeNotExistsOrEqual : list (string * Any)
}.

(** The loops over [AttributeExists] and [AttributeNotExists], which differ
    in the prefix and in the clause. *)
Fixpoint rangeAttrNames (prefix : string) (clause : string -> string)
  (attrs : list string) (index : Z) (conds : list string) (names : StringMap.t string)
  : list string * StringMap.t string :=
  match attrs with
  | [] => (conds, names)
  | attrName :: rest =>
      let namePlaceholder := namePlaceholderOf prefix index in
      rangeAttrNames prefix clause rest (index + 1)
        (conds ++ [clause namePlaceholder])
        (StringMap.add namePlaceholder attrName names)
  end.

(** The loops over [AttributeEqual] and [AttributeNotExistsOrEqual]. *)
Fixpoint rangeAttrValues (nprefix vprefix : string) (clause : string -> string -> string)
  (attrs : list (string * Any)) (index : Z) (conds : list string)
  (names : StringMap.t string) (values : StringMap.t Any)
  : list string * StringMap.t string * StringMap.t Any :=
  match attrs with
  | [] => (conds, names, values)
  | (attrName, attrVal) :: rest =>
      let namePlaceholder := namePlaceholderOf nprefix index in
      let valuePlaceholder := valuePlaceholderOf vprefix index in
      rangeAttrValues nprefix vprefix clause rest (index + 1)
        (conds ++ [clause namePlaceholder valuePlaceholder])
        (StringMap.add namePlaceholder attrName names)
        (StringMap.add valuePlaceholder attrVal values)
  end.

Definition existsClause (n : string) : string :=
  String.append "attribute_exists(" (String.append n ")").

Definition notExistsClause (n : string) : string :=
  String.append "attribute_not_exists(" (String.append n ")").

Definition equalClause (n v : string) : string :=
  String.append n (String.append "=" v).

Definition notExistsOrEqualClause (n v : string) : string :=
  String.append "(attribute_not_exists("
    (String.append n
       (String.append ") or "
          (String.append n (String.append "=" (String.append v ")"))))).

Definition getConditionExpression (conditions : Conditions)
  (names : StringMap.t string) (values : StringMap.t Any)
  : string * StringMap.t string * StringMap.t Any :=
  let conds := [] in
  let '(conds1, names1) :=
    match AttributeExists conditions with
    | [] => (conds, names)
    | _ :: _ =>
        rangeAttrNames (NamePlaceholderAttrExistsPrefix P) existsClause
          (AttributeExists conditions) 1 conds names
    end in
  let '(conds2, names2) :=
    match AttributeNotExists conditions with
    | [] => (conds1, names1)
    | _ :: _ =>
        rangeAttrNames (NamePlaceholderAttrNotExistsPrefix P) notExistsClause
          (AttributeNotExists conditions) 1 conds1 names1
    end in
  let '(conds3, names3, values3) :=
    match AttributeEqual conditions with
    | [] => (conds2, names2, values)
    | _ :: _ =>
        rangeAttrValues (NamePlaceholderAttrEqualPrefix P)
          (ValuePlaceholderAttrEqualPrefix P) equalClause
          (AttributeEqual conditions) 1 conds2 names2 values
    end in
  let '(conds4, names4, values4) :=
    match AttributeNotExistsOrEqual conditions with
    | [] => (conds3, names3, values3)
    | _ :: _ =>
        rangeAttrValues (NamePlaceholderAttrNotExistsOrEqual P)
          (ValuePlaceholderAttrNotExistsOrEqual P) notExistsOrEqualClause
          (AttributeNotExistsOrEqual conditions) 1 conds3 names3 values3
    end in
  (Join conds4 " and ", names4, values4).

(** ** [KvSetsFromItem] *)

(** A value held in [keys] or [sets]. *)
Inductive Value : Type :=
| VFloat64 (f : float)
| VOther (a : Any).

(** What reflection shows of a struct field's value: of kind [Float64] and
    of type [float64], of kind [Float64] and of a defined type, or of another
    kind. *)
Inductive FieldValue : Type :=
| FieldFloat64 (f : float)
| FieldDefinedFloat (f : float)
| FieldOther (a : Any).

(** A struct field: what [Tag.Get("dynamodbav")] returns for it, whether it
    is exported, and its value. *)
Record StructField : Type := {
  dynamodbav : string;
  exported : bool;
  fieldValue : FieldValue
}.

(** [item interface{}]: nil, a struct, or a value of any other kind. *)
Inductive Item : Type :=
| ItemNil
| ItemNotStruct (v : Value)
| ItemStruct (fields : list StructField).

(** A call returns its [error] and leaves [sets], or panics. *)
Inductive Outcome : Type :=
| Panics
| Returns (err : option string) (sets : StringMap.t Value).

Context (IsEqual : float -> float -> bool).
(** [%+v] of the item. *)
Context (showItem : Item -> string).

(** [for i := 0; i < val.NumField(); i++ { ... }]; [None] when
    [val.Interface()] panics on an unexported field or the assertion
    [.(float64)] panics on a defined type. *)
Fixpoint rangeFields (keys : StringMap.t Value) (fields : list StructField)
  (sets : StringMap.t Value) : option (StringMap.t Value) :=
  match fields with
  | [] => Some sets
  | fld :: rest =>
      let key := beforeComma (dynamodbav fld) in
      if negb (nonEmpty key) then rangeFields keys rest sets
      else if StringMap.mem key keys then rangeFields keys rest sets
      else
        match fieldValue fld with
        | FieldFloat64 f =>
            if exported fld
            then rangeFields keys rest
                   (StringMap.add key (VFloat64 (Float64 IsEqual f)) sets)
            else None
        | FieldDefinedFloat _ => None
        | FieldOther a =>
            if exported fld
            then rangeFields keys rest (StringMap.add key (VOther a) sets)
            else None
        end
  end.

Definition KvSetsFromItem (keys sets : StringMap.t Value) (item : Item) : Outcome :=
  let oldLen := StringMap.cardinal sets in
  match item with
  | ItemNil => Panics
  | ItemNotStruct _ =>
      Returns (Some (String.append "item is not struct, " (showItem item))) sets
  | ItemStruct fields =>
      match rangeFields keys fields sets with
      | None => Panics
      | Some sets1 =>
          if Nat.eqb (StringMap.cardinal sets1) oldLen
          then Returns (Some (String.append "field not exist, " (showItem item))) sets1
          else Returns None sets1
      end
  end.

(** ** Readings of a call *)

(** The clauses of the SET part, for entries visited from [index] on. *)
Fixpoint setClauses (sets : list (string * Any)) (index : Z) : list string :=
  match sets with
  | [] => []
  | _ :: rest =>
      String.append (namePlaceholderOf (NamePlaceholderUpdatePrefix P) index)
        (String.append "=" (valuePlaceholderOf (ValuePlaceholderUpdatePrefix P) index))
      :: setClauses rest (index + 1)
  end.

(** The placeholders [prefix 1], [prefix 2], ... for a range of [n] entries
    visited from [index] on. *)
Fixpoint placeholders (mk : Z -> string) (n : nat) (index : Z) : list string :=
  match n with
  | O => []
  | S n' => mk index :: placeholders mk n' (index + 1)
  end.

(** The tag names [KvSetsFromItem] reads from the fields. *)
Definition tagNames (fields : list StructField) : list string :=
  map (fun fld => beforeComma (dynamodbav fld)) fields.

End Dynamo.

(** ** Sample inputs for the dynamo helpers *)

Definition samplePrefixes : Prefixes :=
  {| NamePlaceholderUpdatePrefix := "u";
     ValuePlaceholderUpdatePrefix := "u";
     NamePlaceholderRemovePrefix := "r";
     NamePlaceholderAttrExistsPrefix := "e";
     NamePlaceholderAttrNotExistsPrefix := "n";
     NamePlaceholderAttrEqualPrefix := "q";
     ValuePlaceholderAttrEqualPrefix := "q";
     NamePlaceholderAttrNotExistsOrEqual := "o";
     ValuePlaceholderAttrNotExistsOrEqual := "o" |}.

Definition sampleSets : list (string * Z) := [("price"%string, 10); ("qty"%string, 2)].
Definition sampleRemoves : list (string * Z) := [("old"%string, 0)].

Definition sampleConditions : @Conditions Z :=
  {| AttributeExists := ["id"%string];
     AttributeNotExists := ["deleted"%string];
     AttributeEqual := [("version"%string, 3)];
     AttributeNotExistsOrEqual := [("owner"%string, 7)] |}.

Definition noNames : StringMap.t string := StringMap.empty string.
Definition noValues : StringMap.t Z := StringMap.empty Z.

Definition sampleIsEqual (a b : float) : bool := PrimFloat.eqb a b.
Definition sampleShow (item : @Item Z) : string := "{...}".

(** A struct with a key field, a float field holding a NaN, an untagged
    field and a tagged field of another kind. *)
Definition sampleItem : @Item Z :=
  ItemStruct
    [ {| dynamodbav := "pk"; exported := true; fieldValue := FieldOther 1 |};
      {| dynamodbav := "price,omitempty"; exported := true;
         fieldValue := FieldFloat64 PrimFloat.nan |};
      {| dynamodbav := ""; exported := true; fieldValue := FieldOther 5 |};
      {| dynamodbav := "note"; exported := true; fieldValue := FieldOther 7 |} ].

Definition sampleKeys : StringMap.t (@Value Z) :=
  StringMap.add "pk"%string (VOther 1) (StringMap.empty _).

Definition priced : StringMap.t (@Value Z) :=
  StringMap.add "price"%string (VFloat64 1%float)
    (StringMap.add "note"%string (VOther 0) (StringMap.empty _)).

(** What a call left in [sets] and returned, when it did return. *)
Definition leftSets (o : @Outcome Z) : StringMap.t (@Value Z) :=
  match o with Returns _ m => m | Panics => StringMap.empty _ end.

Definition returnedErr (o : @Outcome Z) : option string :=
  match o with Returns e _ => e | Panics => None end.

Definition freshCall : @Outcome Z :=
  KvSetsFromItem sampleIsEqual sampleShow sampleKeys (StringMap.empty _) sampleItem.

Definition pricedCall : @Outcome Z :=
  KvSetsFromItem sampleIsEqual sampleShow sampleKeys priced sampleItem.

Definition keptNames : StringMap.t string :=
  StringMap.add "#keep"%string "kept"%string (StringMap.empty string).

Definition bodylessEnv : @Env Z string string :=
  sampleEnv 0 (Ok [{| MessageId := Some "9"%string; ReceiptHandle := Some "rh-9"%string;
                      Body := None |}]) None.

(** * Properties *)

Section Properties.

Context {World Session Service : Type}.

Implicit Types (e : @Env World Session Service) (s : @SQS World).
Implicit Types (st : @Worker Session Service) (w : World).
Implicit Types (t : @Trace Session Service) (v : Variant).
Implicit Types (msgs pre post : list Message) (msg : Message).
Implicit Types (de : list DeleteMessageBatchRequestEntry).

(** ** Observations distribute over concatenation *)

Lemma deleteCalls_app t1 t2 :
  deleteCalls (t1 ++ t2) = deleteCalls t1 ++ deleteCalls t2.
Proof. apply flat_map_app. Qed.

Lemma callbackCalls_app t1 t2 :
  callbackCalls (t1 ++ t2) = callbackCalls t1 ++ callbackCalls t2.
Proof. apply flat_map_app. Qed.

Lemma unmarshalCalls_app t1 t2 :
  unmarshalCalls (t1 ++ t2) = unmarshalCalls t1 ++ unmarshalCalls t2.
Proof. apply flat_map_app. Qed.

Lemma receiveCalls_app t1 t2 :
  receiveCalls (t1 ++ t2) = receiveCalls t1 ++ receiveCalls t2.
Proof. apply flat_map_app. Qed.

Lemma sessionCalls_app t1 t2 :
  sessionCalls (t1 ++ t2) = sessionCalls t1 ++ sessionCalls t2.
Proof. apply flat_map_app. Qed.

Lemma clientBuilds_app t1 t2 :
  clientBuilds (t1 ++ t2) = clientBuilds t1 ++ clientBuilds t2.
Proof. apply flat_map_app. Qed.

Lemma errorLogs_app t1 t2 :
  errorLogs (t1 ++ t2) = errorLogs t1 ++ errorLogs t2.
Proof. apply flat_map_app. Qed.

Ltac obs :=
  rewrite ?deleteCalls_app, ?callbackCalls_app, ?unmarshalCalls_app,
    ?receiveCalls_app, ?sessionCalls_app, ?clientBuilds_app, ?errorLogs_app.

(** ** One message *)

(** A pass over one message appends to [deleteEntries] and reads nothing
    from it. *)
Lemma handleOf_acc v e s i msg de w :
  rangeOf v e s i [msg] de w =
  (de ++ fst (fst (rangeOf v e s i [msg] [] w)),
   snd (fst (rangeOf v e s i [msg] [] w)),
   snd (rangeOf v e s i [msg] [] w)).
Proof.
  destruct v; simpl; unfold handleMessage, handleMessageV1.
  - destruct (Body msg) as [body|]; [|simpl; now rewrite app_nil_r].
    destruct (Unmarshal e body) as [rawMessage|err0]; [|reflexivity].
    destruct (messageCB s) as [cb|]; [|simpl; now rewrite app_nil_r].
    destruct (cb (RawMsg rawMessage) w) as [[err0|] w1]; simpl;
      now rewrite ?app_nil_r.
  - destruct (Body msg) as [body|]; [|simpl; now rewrite app_nil_r].
    destruct (messageCB s) as [cb|]; [|simpl; now rewrite app_nil_r].
    destruct (cb body w) as [[err0|] w1]; simpl; now rewrite ?app_nil_r.
Qed.

Lemma rangeOf_cons v e s i msg msgs de w :
  rangeOf v e s i (msg :: msgs) de w =
  (fst (fst (rangeOf v e s (i + 1) msgs
               (fst (fst (rangeOf v e s i [msg] de w)))
               (snd (fst (rangeOf v e s i [msg] de w))))),
   snd (fst (rangeOf v e s (i + 1) msgs
               (fst (fst (rangeOf v e s i [msg] de w)))
               (snd (fst (rangeOf v e s i [msg] de w))))),
   snd (rangeOf v e s i [msg] de w)
   ++ snd (rangeOf v e s (i + 1) msgs
             (fst (fst (rangeOf v e s i [msg] de w)))
             (snd (fst (rangeOf v e s i [msg] de w))))).
Proof.
  destruct v; simpl.
  - destruct (handleMessage e s msg de w) as [[de1 w1] t1]; simpl.
    destruct (rangeMessages e s msgs de1 w1) as [[de2 w2] t2]; simpl.
    now rewrite app_nil_r.
  - destruct (handleMessageV1 e s i msg de w) as [[de1 w1] t1]; simpl.
    destruct (rangeMessagesV1 e s (i + 1) msgs de1 w1) as [[de2 w2] t2]; simpl.
    now rewrite app_nil_r.
Qed.

Lemma rangeOf_nil v e s i de w : rangeOf v e s i [] de w = (de, w, []).
Proof. now destruct v. Qed.

(** ** The [range] loop *)

Lemma rangeOf_acc v e s msgs : forall i de w,
  rangeOf v e s i msgs de w =
  (de ++ fst (fst (rangeOf v e s i msgs [] w)),
   snd (fst (rangeOf v e s i msgs [] w)),
   snd (rangeOf v e s i msgs [] w)).
Proof.
  induction msgs as [|msg msgs IH]; intros i de w.
  - rewrite !rangeOf_nil; simpl; now rewrite app_nil_r.
  - rewrite (rangeOf_cons v e s i msg msgs de w).
    rewrite (rangeOf_cons v e s i msg msgs [] w).
    rewrite (handleOf_acc v e s i msg de w); simpl.
    set (h := rangeOf v e s i [msg] [] w).
    rewrite (IH (i + 1) (de ++ fst (fst h)) (snd (fst h))).
    rewrite (IH (i + 1) (fst (fst h)) (snd (fst h))); simpl.
    now rewrite app_assoc.
Qed.

Lemma rangeOf_app v e s pre : forall post i de w,
  rangeOf v e s i (pre ++ post) de w =
  (fst (fst (rangeOf v e s (i + Z.of_nat (length pre)) post
               (fst (fst (rangeOf v e s i pre de w)))
               (snd (fst (rangeOf v e s i pre de w))))),
   snd (fst (rangeOf v e s (i + Z.of_nat (length pre)) post
               (fst (fst (rangeOf v e s i pre de w)))
               (snd (fst (rangeOf v e s i pre de w))))),
   snd (rangeOf v e s i pre de w)
   ++ snd (rangeOf v e s (i + Z.of_nat (length pre)) post
             (fst (fst (rangeOf v e s i pre de w)))
             (snd (fst (rangeOf v e s i pre de w))))).
Proof.
  induction pre as [|msg pre IH]; intros post i de w.
  - rewrite rangeOf_nil; simpl. rewrite Z.add_0_r.
    now destruct (rangeOf v e s i post de w) as [[? ?] ?].
  - change ((msg :: pre) ++ post) with (msg :: (pre ++ post)).
    rewrite (rangeOf_cons v e s i msg (pre ++ post) de w).
    rewrite (rangeOf_cons v e s i msg pre de w).
    set (h := rangeOf v e s i [msg] de w).
    rewrite (IH post (i + 1) (fst (fst h)) (snd (fst h))); cbn [fst snd].
    replace (i + Z.of_nat (length (msg :: pre)))
      with (i + 1 + Z.of_nat (length pre)) by (cbn [length]; lia).
    now rewrite app_assoc.
Qed.

(** The loop calls neither the queue nor the session layer. *)
Lemma rangeOf_quiet v e s msgs : forall i de w,
  deleteCalls (snd (rangeOf v e s i msgs de w)) = []
  /\ receiveCalls (snd (rangeOf v e s i msgs de w)) = []
  /\ sessionCalls (snd (rangeOf v e s i msgs de w)) = []
  /\ clientBuilds (snd (rangeOf v e s i msgs de w)) = [].
Proof.
  induction msgs as [|msg msgs IH]; intros i de w.
  - rewrite rangeOf_nil; simpl; auto.
  - rewrite rangeOf_cons; cbn [snd]; obs.
    destruct (IH (i + 1) (fst (fst (rangeOf v e s i [msg] de w)))
                (snd (fst (rangeOf v e s i [msg] de w)))) as (-> & -> & -> & ->).
    rewrite !app_nil_r.
    destruct v; simpl; unfold handleMessage, handleMessageV1.
    + destruct (Body msg) as [body|]; [|simpl; auto].
      destruct (Unmarshal e body) as [rawMessage|err0]; [|simpl; auto].
      destruct (messageCB s) as [cb|]; [|simpl; auto].
      destruct (cb (RawMsg rawMessage) w) as [[err0|] w1]; unfold slowLog;
        [|destruct (SinceMs e w w1 >? HandleTimeoutMS)]; simpl; auto.
    + destruct (Body msg) as [body|]; [|simpl; auto].
      destruct (messageCB s) as [cb|]; [|simpl; auto].
      destruct (cb body w) as [[err0|] w1]; unfold slowLog;
        [|destruct (SinceMs e w w1 >? HandleTimeoutMS)]; simpl; auto.
Qed.

(** Every staged entry is the entry of a message of the batch that has a
    body. *)
Lemma rangeOf_staged_from v e s msgs : forall i w x,
  In x (fst (fst (rangeOf v e s i msgs [] w))) ->
  exists msg, In msg msgs /\ Body msg <> None /\ x = entryOf msg.
Proof.
  induction msgs as [|msg msgs IH]; intros i w x Hx.
  - rewrite rangeOf_nil in Hx; destruct Hx.
  - rewrite rangeOf_cons in Hx; cbn [fst snd] in Hx.
    rewrite rangeOf_acc in Hx; cbn [fst snd] in Hx.
    apply in_app_or in Hx; destruct Hx as [Hx|Hx].
    + exists msg; split; [now left|].
      destruct v; simpl in Hx; unfold handleMessage, handleMessageV1 in Hx.
      * destruct (Body msg) as [body|]; [|destruct Hx].
        split; [discriminate|].
        destruct (Unmarshal e body) as [rawMessage|err0];
          [|simpl in Hx; intuition congruence].
        destruct (messageCB s) as [cb|]; [|destruct Hx].
        destruct (cb (RawMsg rawMessage) w) as [[err0|] w1]; simpl in Hx;
          intuition congruence.
      * destruct (Body msg) as [body|]; [|destruct Hx].
        split; [discriminate|].
        destruct (messageCB s) as [cb|]; [|destruct Hx].
        destruct (cb body w) as [[err0|] w1]; simpl in Hx; intuition congruence.
    + destruct (IH _ _ _ Hx) as (m & Hm & Hb & ->).
      exists m; split; [now right|auto].
Qed.

(** ** The stages of a cycle *)

Lemma initSession_calls fn e s st w :
  sessionCalls (snd (fst (initSession fn e s st w)))
  = match cfgSession st with Some _ => [] | None => [awsConfig s] end.
Proof.
  unfold initSession. destruct (cfgSession st); [reflexivity|].
  destruct (NewSession e (awsConfig s) w) as [[sess|err0] w1]; reflexivity.
Qed.

Lemma pollMessages_quiet fn wait e s st w :
  deleteCalls (snd (fst (pollMessages fn wait e s st w))) = []
  /\ callbackCalls (snd (fst (pollMessages fn wait e s st w))) = []
  /\ unmarshalCalls (snd (fst (pollMessages fn wait e s st w))) = [].
Proof.
  unfold pollMessages, initSession, initService.
  destruct (cfgSession st) as [sess|].
  - destruct (service st) as [sv|]; simpl;
      destruct (ReceiveMessageWithContext e _ _ _ w) as [r w2]; simpl; auto.
  - destruct (NewSession e (awsConfig s) w) as [[sess|err0] w1]; simpl; auto.
    destruct (service st) as [sv|]; simpl;
      destruct (ReceiveMessageWithContext e _ _ _ w1) as [r w2]; simpl; auto.
Qed.

(** The poll issues one receive, unless the session block has returned. *)
Lemma pollMessages_receives fn wait e s st w :
  receiveCalls (snd (fst (pollMessages fn wait e s st w)))
  = match snd (pollMessages fn wait e s st w) with
    | Some (_, r) => [r]
    | None => []
    end.
Proof.
  unfold pollMessages, initSession, initService.
  destruct (cfgSession st) as [sess|].
  - destruct (service st) as [sv|]; simpl;
      destruct (ReceiveMessageWithContext e _ _ _ w) as [r w2]; simpl; auto.
  - destruct (NewSession e (awsConfig s) w) as [[sess|err0] w1]; simpl; auto.
    destruct (service st) as [sv|]; simpl;
      destruct (ReceiveMessageWithContext e _ _ _ w1) as [r w2]; simpl; auto.
Qed.

Lemma deleteMessages_calls fn e s (sv : Service) de w :
  deleteCalls (snd (deleteMessages fn e s sv de w))
  = match de with
    | [] => []
    | _ :: _ => [{| Entries := de; DeleteQueueUrl := QueueUrl (config s) |}]
    end.
Proof.
  unfold deleteMessages. destruct de as [|x de]; [reflexivity|].
  destruct (DeleteMessageBatchWithContext e sv 1 _ w) as [[err0|] w1]; reflexivity.
Qed.

Lemma deleteMessages_quiet fn e s (sv : Service) de w :
  receiveCalls (snd (deleteMessages fn e s sv de w)) = []
  /\ callbackCalls (snd (deleteMessages fn e s sv de w)) = []
  /\ unmarshalCalls (snd (deleteMessages fn e s sv de w)) = []
  /\ sessionCalls (snd (deleteMessages fn e s sv de w)) = []
  /\ clientBuilds (snd (deleteMessages fn e s sv de w)) = [].
Proof.
  unfold deleteMessages. destruct de as [|x de]; [simpl; auto|].
  destruct (DeleteMessageBatchWithContext e sv 1 _ w) as [[err0|] w1]; simpl; auto.
Qed.

Lemma receivedLog_quiet v msgs :
  deleteCalls (receivedLog v msgs : @Trace Session Service) = []
  /\ callbackCalls (receivedLog v msgs : @Trace Session Service) = []
  /\ unmarshalCalls (receivedLog v msgs : @Trace Session Service) = []
  /\ receiveCalls (receivedLog v msgs : @Trace Session Service) = []
  /\ sessionCalls (receivedLog v msgs : @Trace Session Service) = []
  /\ clientBuilds (receivedLog v msgs : @Trace Session Service) = [].
Proof. destruct v, msgs; repeat split. Qed.

(** A cycle whose poll returned a batch: the (raw) log line, the [range]
    loop from an empty [deleteEntries], then the delete stage. *)
Lemma cycleOf_batch v e s st w st2 w2 t0 sv msgs :
  pollMessages (fnOf v) (waitOf v) e s st w = (st2, w2, t0, Some (sv, Ok msgs)) ->
  cycleOf v e s st w =
  (st2,
   fst (deleteMessages (fnOf v) e s sv
          (fst (fst (rangeOf v e s 0 msgs [] w2)))
          (snd (fst (rangeOf v e s 0 msgs [] w2)))),
   t0 ++ receivedLog v msgs ++ snd (rangeOf v e s 0 msgs [] w2)
   ++ snd (deleteMessages (fnOf v) e s sv
             (fst (fst (rangeOf v e s 0 msgs [] w2)))
             (snd (fst (rangeOf v e s 0 msgs [] w2))))).
Proof.
  intros Hp.
  destruct v; unfold cycleOf, processMessagesCycle, processMessagesV1Cycle;
    cbn [fnOf waitOf] in *; rewrite Hp; cbn [rangeOf receivedLog].
  - destruct msgs as [|msg msgs]; [simpl; now rewrite app_nil_r|].
    destruct (rangeMessages e s (msg :: msgs) [] w2) as [[de w3] t3]; cbn [fst snd].
    destruct (deleteMessages "processMessages" e s sv de w3) as [w4 t4]; reflexivity.
  - destruct msgs as [|msg msgs]; [simpl; now rewrite app_nil_r|].
    destruct (rangeMessagesV1 e s 0 (msg :: msgs) [] w2) as [[de w3] t3]; cbn [fst snd].
    destruct (deleteMessages "processMessagesV1" e s sv de w3) as [w4 t4]; reflexivity.
Qed.

(** The delete call of such a cycle carries what the loop staged, and is
    made only when that is not empty. *)
Lemma cycleOf_batch_deletes v e s st w st2 w2 t0 sv msgs :
  pollMessages (fnOf v) (waitOf v) e s st w = (st2, w2, t0, Some (sv, Ok msgs)) ->
  deleteCalls (snd (cycleOf v e s st w))
  = match fst (fst (rangeOf v e s 0 msgs [] w2)) with
    | [] => []
    | _ :: _ => [{| Entries := fst (fst (rangeOf v e s 0 msgs [] w2));
                    DeleteQueueUrl := QueueUrl (config s) |}]
    end.
Proof.
  intros Hpoll.
  rewrite (cycleOf_batch v e s st w st2 w2 t0 sv _ Hpoll); cbn [snd]; obs.
  destruct (pollMessages_quiet (fnOf v) (waitOf v) e s st w) as (Hq & _).
  rewrite Hpoll in Hq; cbn [fst snd] in Hq; rewrite Hq.
  rewrite (proj1 (receivedLog_quiet v msgs)).
  rewrite (proj1 (rangeOf_quiet v e s msgs 0 [] w2)).
  now rewrite deleteMessages_calls.
Qed.

Lemma cycleOf_batch_callbacks v e s st w st2 w2 t0 sv msgs :
  pollMessages (fnOf v) (waitOf v) e s st w = (st2, w2, t0, Some (sv, Ok msgs)) ->
  callbackCalls (snd (cycleOf v e s st w))
  = callbackCalls (snd (rangeOf v e s 0 msgs [] w2)).
Proof.
  intros Hpoll.
  rewrite (cycleOf_batch v e s st w st2 w2 t0 sv _ Hpoll); cbn [snd]; obs.
  destruct (pollMessages_quiet (fnOf v) (waitOf v) e s st w) as (_ & Hq & _).
  rewrite Hpoll in Hq; cbn [fst snd] in Hq; rewrite Hq.
  rewrite (proj1 (proj2 (receivedLog_quiet v msgs))).
  rewrite (proj1 (proj2 (deleteMessages_quiet (fnOf v) e s sv _ _))).
  now rewrite app_nil_r.
Qed.

(** ** One message inside its batch *)

Lemma rangeOf_split v e s pre msg post w :
  rangeOf v e s 0 (pre ++ msg :: post) [] w =
  (fst (fst (rangeOf v e s 0 pre [] w))
   ++ fst (fst (rangeOf v e s (Z.of_nat (length pre)) [msg] []
                  (snd (fst (rangeOf v e s 0 pre [] w)))))
   ++ fst (fst (rangeOf v e s (Z.of_nat (length pre) + 1) post []
                  (snd (fst (rangeOf v e s (Z.of_nat (length pre)) [msg] []
                               (snd (fst (rangeOf v e s 0 pre [] w)))))))),
   snd (fst (rangeOf v e s (Z.of_nat (length pre) + 1) post []
               (snd (fst (rangeOf v e s (Z.of_nat (length pre)) [msg] []
                            (snd (fst (rangeOf v e s 0 pre [] w)))))))),
   snd (rangeOf v e s 0 pre [] w)
   ++ snd (rangeOf v e s (Z.of_nat (length pre)) [msg] []
             (snd (fst (rangeOf v e s 0 pre [] w))))
   ++ snd (rangeOf v e s (Z.of_nat (length pre) + 1) post []
             (snd (fst (rangeOf v e s (Z.of_nat (length pre)) [msg] []
                          (snd (fst (rangeOf v e s 0 pre [] w)))))))).
Proof.
  rewrite rangeOf_app, Z.add_0_l.
  set (r1 := rangeOf v e s 0 pre [] w).
  rewrite rangeOf_cons.
  rewrite (handleOf_acc v e s _ msg (fst (fst r1)) (snd (fst r1))); cbn [fst snd].
  set (rm := rangeOf v e s (Z.of_nat (length pre)) [msg] [] (snd (fst r1))).
  rewrite (rangeOf_acc v e s post _ (fst (fst r1) ++ fst (fst rm))); cbn [fst snd].
  now rewrite <- app_assoc.
Qed.

(** The callback returned [nil]: one entry, the message's own. *)
Lemma handleOf_success v e s cb i msg body p w w' :
  messageCB s = Some cb -> Body msg = Some body ->
  payload v e body = Some p -> cb p w = (None, w') ->
  fst (rangeOf v e s i [msg] [] w) = ([entryOf msg], w')
  /\ callbackCalls (snd (rangeOf v e s i [msg] [] w)) = [p].
Proof.
  intros Hcb Hb Hp Hr.
  destruct v; simpl in *; unfold handleMessage, handleMessageV1;
    rewrite Hb, ?Hcb.
  - destruct (Unmarshal e body) as [rawMessage|err0]; [|discriminate].
    injection Hp as <-. rewrite Hr; simpl.
    unfold slowLog; destruct (SinceMs e w w' >? HandleTimeoutMS); auto.
  - injection Hp as <-. rewrite Hr; simpl.
    unfold slowLog; destruct (SinceMs e w w' >? HandleTimeoutMS); auto.
Qed.

(** The callback returned an error: no entry, and the loop goes on in the
    world the callback left. *)
Lemma handleOf_failure v e s cb i msg body p err0 w w' :
  messageCB s = Some cb -> Body msg = Some body ->
  payload v e body = Some p -> cb p w = (Some err0, w') ->
  fst (rangeOf v e s i [msg] [] w) = ([], w')
  /\ callbackCalls (snd (rangeOf v e s i [msg] [] w)) = [p].
Proof.
  intros Hcb Hb Hp Hr.
  destruct v; simpl in *; unfold handleMessage, handleMessageV1;
    rewrite Hb, ?Hcb.
  - destruct (Unmarshal e body) as [rawMessage|err1]; [|discriminate].
    injection Hp as <-. rewrite Hr; simpl; auto.
  - injection Hp as <-. rewrite Hr; simpl; auto.
Qed.

(** The envelope does not decode: the entry is staged on the spot, with no
    call of the callback and no change of the world. *)
Lemma handleMessage_poison e s msg body err0 de w :
  Body msg = Some body -> Unmarshal e body = Err err0 ->
  handleMessage e s msg de w =
  (de ++ [entryOf msg], w,
   [EvUnmarshal body (Err err0);
    EvLog LevelError (tagged "processMessages" " unmarshal raw message fail.")
          [("err"%string, FStr err0); ("msg"%string, FStr body)]]).
Proof.
  intros Hb Hu. unfold handleMessage. now rewrite Hb, Hu.
Qed.

Lemma count_occ_absent de (x : DeleteMessageBatchRequestEntry) :
  ~ In x de -> count_occ entry_eq_dec de x = 0%nat.
Proof. apply count_occ_not_In. Qed.

(** ** Acknowledgement of one message *)

(** C1. In either loop, a message with a body whose callback returns [nil]
    contributes exactly one entry, with its own id and receipt handle, to the
    [Entries] of the one delete call of the cycle: the entries are those
    staged before it, its own, then those staged after it.  When no other
    message of the batch has the same id and handle, that entry occurs once
    in the call. *)
Theorem C1_success_acked_once v e s cb st w st2 w2 t0 sv pre msg post body p de1 w3 t3 w4 :
  messageCB s = Some cb ->
  pollMessages (fnOf v) (waitOf v) e s st w
    = (st2, w2, t0, Some (sv, Ok (pre ++ msg :: post))) ->
  rangeOf v e s 0 pre [] w2 = (de1, w3, t3) ->
  Body msg = Some body ->
  payload v e body = Some p ->
  cb p w3 = (None, w4) ->
  deleteCalls (snd (cycleOf v e s st w))
  = [{| Entries := de1 ++ entryOf msg
                   :: fst (fst (rangeOf v e s (Z.of_nat (length pre) + 1) post [] w4));
        DeleteQueueUrl := QueueUrl (config s) |}]
  /\ ((forall m, In m (pre ++ post) -> entryOf m <> entryOf msg) ->
      count_occ entry_eq_dec
        (de1 ++ entryOf msg
         :: fst (fst (rangeOf v e s (Z.of_nat (length pre) + 1) post [] w4)))
        (entryOf msg) = 1%nat).
Proof.
  intros Hcb Hpoll Hpre Hb Hp Hr.
  destruct (handleOf_success v e s cb (Z.of_nat (length pre)) msg body p w3 w4
              Hcb Hb Hp Hr) as [Hm _].
  split.
  - rewrite (cycleOf_batch_deletes v e s st w st2 w2 t0 sv _ Hpoll).
    rewrite rangeOf_split, Hpre; cbn [fst snd]. rewrite Hm; cbn [fst snd app].
    now destruct de1.
  - intros Hother.
    rewrite count_occ_app, count_occ_cons_eq by reflexivity.
    rewrite !count_occ_absent; [reflexivity| |].
    + intros Hin. apply rangeOf_staged_from in Hin.
      destruct Hin as (m & Hm' & _ & Heq).
      apply (Hother m); [apply in_or_app; now right|now symmetry].
    + intros Hin.
      assert (Hin' : In (entryOf msg) (fst (fst (rangeOf v e s 0 pre [] w2))))
        by now rewrite Hpre.
      apply rangeOf_staged_from in Hin'.
      destruct Hin' as (m & Hm' & _ & Heq).
      apply (Hother m); [apply in_or_app; now left|now symmetry].
Qed.

(** C2. In either loop, a message whose callback returns an error stages
    nothing: the staged entries are those of the messages before it followed
    by those of the messages after it, and these are what the delete call (if
    any) carries.  The loop goes on: the messages after it are handled, in
    the world the failing callback left.  When no other message of the batch
    has the same id and handle, no delete call of the cycle names it. *)
Theorem C2_failure_not_acked v e s cb st w st2 w2 t0 sv pre msg post body p err0 de1 w3 t3 w4 :
  messageCB s = Some cb ->
  pollMessages (fnOf v) (waitOf v) e s st w
    = (st2, w2, t0, Some (sv, Ok (pre ++ msg :: post))) ->
  rangeOf v e s 0 pre [] w2 = (de1, w3, t3) ->
  Body msg = Some body ->
  payload v e body = Some p ->
  cb p w3 = (Some err0, w4) ->
  fst (fst (rangeOf v e s 0 (pre ++ msg :: post) [] w2))
  = de1 ++ fst (fst (rangeOf v e s (Z.of_nat (length pre) + 1) post [] w4))
  /\ deleteCalls (snd (cycleOf v e s st w))
     = match de1 ++ fst (fst (rangeOf v e s (Z.of_nat (length pre) + 1) post [] w4)) with
       | [] => []
       | _ :: _ =>
           [{| Entries :=
                 de1 ++ fst (fst (rangeOf v e s (Z.of_nat (length pre) + 1) post [] w4));
               DeleteQueueUrl := QueueUrl (config s) |}]
       end
  /\ callbackCalls (snd (cycleOf v e s st w))
     = callbackCalls t3
       ++ p :: callbackCalls (snd (rangeOf v e s (Z.of_nat (length pre) + 1) post [] w4))
  /\ ((forall m, In m (pre ++ post) -> entryOf m <> entryOf msg) ->
      forall d, In d (deleteCalls (snd (cycleOf v e s st w))) ->
                ~ In (entryOf msg) (Entries d)).
Proof.
  intros Hcb Hpoll Hpre Hb Hp Hr.
  destruct (handleOf_failure v e s cb (Z.of_nat (length pre)) msg body p err0 w3 w4
              Hcb Hb Hp Hr) as [Hm Hc].
  assert (Hst : fst (fst (rangeOf v e s 0 (pre ++ msg :: post) [] w2))
                = de1 ++ fst (fst (rangeOf v e s (Z.of_nat (length pre) + 1) post [] w4))).
  { rewrite rangeOf_split, Hpre; cbn [fst snd]. now rewrite Hm. }
  assert (Hdel : deleteCalls (snd (cycleOf v e s st w))
     = match de1 ++ fst (fst (rangeOf v e s (Z.of_nat (length pre) + 1) post [] w4)) with
       | [] => []
       | _ :: _ =>
           [{| Entries :=
                 de1 ++ fst (fst (rangeOf v e s (Z.of_nat (length pre) + 1) post [] w4));
               DeleteQueueUrl := QueueUrl (config s) |}]
       end).
  { rewrite (cycleOf_batch_deletes v e s st w st2 w2 t0 sv _ Hpoll). now rewrite Hst. }
  repeat split; auto.
  - rewrite (cycleOf_batch_callbacks v e s st w st2 w2 t0 sv _ Hpoll).
    rewrite rangeOf_split, Hpre; cbn [fst snd]; obs.
    rewrite Hc, Hm; reflexivity.
  - intros Hother d Hd Hin. rewrite Hdel in Hd.
    assert (Hin' : In (entryOf msg)
              (de1 ++ fst (fst (rangeOf v e s (Z.of_nat (length pre) + 1) post [] w4)))).
    { destruct (de1 ++ _) in *; [destruct Hd|].
      destruct Hd as [<-|[]]. exact Hin. }
    apply in_app_or in Hin'. destruct Hin' as [Hin'|Hin'].
    + assert (Hin2 : In (entryOf msg) (fst (fst (rangeOf v e s 0 pre [] w2))))
        by now rewrite Hpre.
      apply rangeOf_staged_from in Hin2. destruct Hin2 as (m & Hm' & _ & Heq).
      apply (Hother m); [apply in_or_app; now left|now symmetry].
    + apply rangeOf_staged_from in Hin'. destruct Hin' as (m & Hm' & _ & Heq).
      apply (Hother m); [apply in_or_app; now right|now symmetry].
Qed.

(** C3. In the wrapped loop, a message whose body does not decode into the
    envelope is staged by its own pass, which decodes, logs, and calls no
    callback; its entry is in the delete call of the same cycle, between the
    entries staged before and after it; and the callbacks called in the cycle
    are those of the other messages only. *)
Theorem C3_poison_deleted_unhandled e s st w st2 w2 t0 sv pre msg post body err0 de1 w3 t3 :
  pollMessages "processMessages" 20 e s st w
    = (st2, w2, t0, Some (sv, Ok (pre ++ msg :: post))) ->
  rangeMessages e s pre [] w2 = (de1, w3, t3) ->
  Body msg = Some body ->
  Unmarshal e body = Err err0 ->
  handleMessage e s msg de1 w3
  = (de1 ++ [entryOf msg], w3,
     [EvUnmarshal body (Err err0);
      EvLog LevelError (tagged "processMessages" " unmarshal raw message fail.")
            [("err"%string, FStr err0); ("msg"%string, FStr body)]])
  /\ deleteCalls (snd (processMessagesCycle e s st w))
     = [{| Entries := de1 ++ entryOf msg :: fst (fst (rangeMessages e s post [] w3));
           DeleteQueueUrl := QueueUrl (config s) |}]
  /\ callbackCalls (snd (processMessagesCycle e s st w))
     = callbackCalls t3 ++ callbackCalls (snd (rangeMessages e s post [] w3)).
Proof.
  intros Hpoll Hpre Hb Hu.
  pose proof (handleMessage_poison e s msg body err0 [] w3 Hb Hu) as Hm.
  pose proof (rangeOf_split Wrapped e s pre msg post w2) as Hs.
  cbn [rangeOf] in Hs. rewrite Hpre in Hs; cbn [fst snd] in Hs.
  assert (Hone : rangeMessages e s [msg] [] w3
                 = ([entryOf msg], w3,
                    [EvUnmarshal body (Err err0);
                     EvLog LevelError
                       (tagged "processMessages" " unmarshal raw message fail.")
                       [("err"%string, FStr err0); ("msg"%string, FStr body)]])).
  { cbn [rangeMessages]. rewrite Hm. reflexivity. }
  rewrite Hone in Hs; cbn [fst snd] in Hs.
  split; [now apply handleMessage_poison|split].
  - pose proof (cycleOf_batch_deletes Wrapped e s st w st2 w2 t0 sv _ Hpoll) as Hd.
    cbn [rangeOf cycleOf] in Hd. rewrite Hd, Hs; cbn [fst snd app].
    now destruct de1.
  - pose proof (cycleOf_batch_callbacks Wrapped e s st w st2 w2 t0 sv _ Hpoll) as Hc.
    cbn [rangeOf cycleOf] in Hc. rewrite Hc, Hs; cbn [fst snd]. obs. reflexivity.
Qed.

(** ** Cycles that stop at the poll *)

Lemma cycleOf_none v e s st w st2 w2 t0 :
  pollMessages (fnOf v) (waitOf v) e s st w = (st2, w2, t0, None) ->
  cycleOf v e s st w = (st2, w2, t0).
Proof.
  intros Hp. destruct v; unfold cycleOf, processMessagesCycle, processMessagesV1Cycle;
    cbn [fnOf waitOf] in *; now rewrite Hp.
Qed.

(** A receive error ends the cycle after at most one more log line. *)
Lemma cycleOf_err v e s st w st2 w2 t0 sv err0 :
  pollMessages (fnOf v) (waitOf v) e s st w = (st2, w2, t0, Some (sv, Err err0)) ->
  exists tlog : Trace,
    cycleOf v e s st w = (st2, w2, t0 ++ tlog)
    /\ deleteCalls tlog = [] /\ callbackCalls tlog = [] /\ unmarshalCalls tlog = []
    /\ receiveCalls tlog = [] /\ sessionCalls tlog = [] /\ clientBuilds tlog = []
    /\ forall ev, In ev tlog -> exists text fields, ev = EvLog LevelError text fields.
Proof.
  intros Hp. destruct v; unfold cycleOf, processMessagesCycle, processMessagesV1Cycle;
    cbn [fnOf waitOf] in *; rewrite Hp.
  - eexists; split; [reflexivity|]; repeat split.
    intros ev [<-|[]]; eauto.
  - destruct (negb (Contains err0 "context deadline exceeded")).
    + eexists; split; [reflexivity|]; repeat split.
      intros ev [<-|[]]; eauto.
    + exists []; repeat split. intros ev [].
Qed.

Lemma pollMessages_errorLogs fn wait e s st w :
  snd (pollMessages fn wait e s st w) <> None ->
  errorLogs (snd (fst (pollMessages fn wait e s st w))) = [].
Proof.
  unfold pollMessages, initSession, initService.
  destruct (cfgSession st) as [sess|].
  - destruct (service st) as [sv|]; simpl;
      destruct (ReceiveMessageWithContext e _ _ _ w) as [r w2]; simpl; auto.
  - destruct (NewSession e (awsConfig s) w) as [[sess|err0] w1]; simpl;
      [|congruence].
    destruct (service st) as [sv|]; simpl;
      destruct (ReceiveMessageWithContext e _ _ _ w1) as [r w2]; simpl; auto.
Qed.

(** The receives of a cycle are those of its poll. *)
Lemma cycleOf_receives v e s st w :
  receiveCalls (snd (cycleOf v e s st w))
  = match snd (pollMessages (fnOf v) (waitOf v) e s st w) with
    | Some (_, r) => [r]
    | None => []
    end.
Proof.
  rewrite <- pollMessages_receives.
  destruct (pollMessages (fnOf v) (waitOf v) e s st w) as [[[st2 w2] t0] o] eqn:Hp.
  cbn [fst snd].
  destruct o as [[sv [msgs|err0]]|].
  - rewrite (cycleOf_batch v e s st w st2 w2 t0 sv _ Hp); cbn [snd]; obs.
    rewrite (proj1 (proj2 (proj2 (proj2 (receivedLog_quiet v msgs))))).
    rewrite (proj1 (proj2 (rangeOf_quiet v e s msgs 0 [] w2))).
    rewrite (proj1 (deleteMessages_quiet (fnOf v) e s sv _ _)).
    now rewrite !app_nil_r.
  - destruct (cycleOf_err v e s st w st2 w2 t0 sv err0 Hp)
      as (tlog & -> & _ & _ & _ & Hr & _).
    cbn [snd]; obs. now rewrite Hr, app_nil_r.
  - now rewrite (cycleOf_none v e s st w st2 w2 t0 Hp).
Qed.

(** ** A nil callback *)

Lemma rangeMessages_nil_callback e s msgs : forall de w,
  messageCB s = None ->
  fst (rangeMessages e s msgs de w) = (de ++ map entryOf (filter (poison e) msgs), w)
  /\ callbackCalls (snd (rangeMessages e s msgs de w)) = [].
Proof.
  induction msgs as [|msg msgs IH]; intros de w Hcb.
  - simpl; now rewrite app_nil_r.
  - cbn [rangeMessages filter]. unfold handleMessage, poison.
    destruct (Body msg) as [body|].
    + destruct (Unmarshal e body) as [rawMessage|err0].
      * rewrite Hcb. destruct (IH de w Hcb) as [H1 H2].
        destruct (rangeMessages e s msgs de w) as [[de2 w2] t2].
        cbn [fst snd] in *. split; [exact H1|]. obs; now rewrite H2.
      * destruct (IH (de ++ [entryOf msg]) w Hcb) as [H1 H2].
        destruct (rangeMessages e s msgs (de ++ [entryOf msg]) w) as [[de2 w2] t2].
        cbn [fst snd map] in *. rewrite <- app_assoc in H1. split; [exact H1|].
        obs; now rewrite H2.
    + destruct (IH de w Hcb) as [H1 H2].
      destruct (rangeMessages e s msgs de w) as [[de2 w2] t2].
      cbn [fst snd] in *. split; [exact H1|exact H2].
Qed.

Lemma rangeMessagesV1_nil_callback e s msgs : forall i de w,
  messageCB s = None ->
  fst (rangeMessagesV1 e s i msgs de w) = (de, w)
  /\ callbackCalls (snd (rangeMessagesV1 e s i msgs de w)) = [].
Proof.
  induction msgs as [|msg msgs IH]; intros i de w Hcb.
  - simpl; auto.
  - cbn [rangeMessagesV1]. unfold handleMessageV1.
    destruct (IH (i + 1) de w Hcb) as [H1 H2].
    destruct (Body msg) as [body|]; rewrite ?Hcb;
      destruct (rangeMessagesV1 e s (i + 1) msgs de w) as [[de2 w2] t2];
      cbn [fst snd] in *; split; auto.
Qed.

Lemma cycleOf_callbacks_stop v e s st w :
  (forall sv msgs, snd (pollMessages (fnOf v) (waitOf v) e s st w) = Some (sv, Ok msgs) ->
     callbackCalls (snd (rangeOf v e s 0 msgs []
                           (snd (fst (fst (pollMessages (fnOf v) (waitOf v) e s st w))))))
     = []) ->
  callbackCalls (snd (cycleOf v e s st w)) = [].
Proof.
  intros Hb.
  destruct (pollMessages_quiet (fnOf v) (waitOf v) e s st w) as (_ & Hq & _).
  destruct (pollMessages (fnOf v) (waitOf v) e s st w) as [[[st2 w2] t0] o] eqn:Hp.
  cbn [fst snd] in *.
  destruct o as [[sv [msgs|err0]]|].
  - rewrite (cycleOf_batch_callbacks v e s st w st2 w2 t0 sv _ Hp). now apply (Hb sv).
  - destruct (cycleOf_err v e s st w st2 w2 t0 sv err0 Hp) as (tlog & -> & _ & Hc & _).
    cbn [snd]; obs. now rewrite Hq, Hc.
  - now rewrite (cycleOf_none v e s st w st2 w2 t0 Hp).
Qed.

(** C4 (amended). With a nil callback no cycle of either loop calls a
    callback; the raw loop never issues a delete call; the wrapped loop
    issues one exactly for the messages of the batch whose body does not
    decode, and so acknowledges no message whose body decodes. *)
Theorem C4_nil_callback_acks_only_poison e s st w :
  messageCB s = None ->
  deleteCalls (snd (processMessagesV1Cycle e s st w)) = []
  /\ callbackCalls (snd (processMessagesV1Cycle e s st w)) = []
  /\ callbackCalls (snd (processMessagesCycle e s st w)) = []
  /\ (forall msgs,
        In (Ok msgs) (receiveCalls (snd (processMessagesCycle e s st w))) ->
        deleteCalls (snd (processMessagesCycle e s st w))
        = match filter (poison e) msgs with
          | [] => []
          | _ :: _ => [{| Entries := map entryOf (filter (poison e) msgs);
                          DeleteQueueUrl := QueueUrl (config s) |}]
          end).
Proof.
  intros Hcb. repeat split.
  - destruct (pollMessages_quiet (fnOf Raw) (waitOf Raw) e s st w) as (Hq & _).
    destruct (pollMessages (fnOf Raw) (waitOf Raw) e s st w)
      as [[[st2 w2] t0] o] eqn:Hp.
    cbn [fst snd] in Hq.
    destruct o as [[sv [msgs|err0]]|].
    + pose proof (cycleOf_batch_deletes Raw e s st w st2 w2 t0 sv _ Hp) as Hd.
      cbn [cycleOf rangeOf] in Hd. rewrite Hd.
      now rewrite (proj1 (rangeMessagesV1_nil_callback e s msgs 0 [] w2 Hcb)).
    + destruct (cycleOf_err Raw e s st w st2 w2 t0 sv err0 Hp)
        as (tlog & Hc & Hd & _).
      cbn [cycleOf] in Hc. rewrite Hc; cbn [snd]; obs. now rewrite Hq, Hd.
    + pose proof (cycleOf_none Raw e s st w st2 w2 t0 Hp) as Hc.
      cbn [cycleOf] in Hc. now rewrite Hc.
  - apply (cycleOf_callbacks_stop Raw e s st w). intros sv msgs _.
    apply (rangeMessagesV1_nil_callback e s msgs 0 [] _ Hcb).
  - apply (cycleOf_callbacks_stop Wrapped e s st w). intros sv msgs _.
    apply (rangeMessages_nil_callback e s msgs [] _ Hcb).
  - intros msgs Hin.
    pose proof (cycleOf_receives Wrapped e s st w) as Hr.
    cbn [cycleOf] in Hr. rewrite Hr in Hin.
    destruct (pollMessages (fnOf Wrapped) (waitOf Wrapped) e s st w)
      as [[[st2 w2] t0] o] eqn:Hp.
    cbn [snd] in Hin.
    destruct o as [[sv r]|]; [|destruct Hin].
    destruct Hin as [->|[]].
    pose proof (cycleOf_batch_deletes Wrapped e s st w st2 w2 t0 sv _ Hp) as Hd.
    cbn [cycleOf rangeOf] in Hd. rewrite Hd.
    rewrite (proj1 (rangeMessages_nil_callback e s msgs [] w2 Hcb)).
    cbn [fst app]. now destruct (filter (poison e) msgs).
Qed.

(** ** The raw loop *)

Lemma rangeMessagesV1_calls e s cb msgs : forall i de w,
  messageCB s = Some cb ->
  callbackCalls (snd (rangeMessagesV1 e s i msgs de w)) = bodies msgs.
Proof.
  induction msgs as [|msg msgs IH]; intros i de w Hcb; [reflexivity|].
  cbn [rangeMessagesV1]. unfold handleMessageV1, bodies. cbn [flat_map].
  fold (bodies msgs).
  destruct (Body msg) as [body|].
  - rewrite Hcb. destruct (cb body w) as [[err0|] w1].
    + specialize (IH (i + 1) de w1 Hcb).
      destruct (rangeMessagesV1 e s (i + 1) msgs de w1) as [[de2 w2] t2].
      cbn [snd] in *. obs. rewrite IH. reflexivity.
    + specialize (IH (i + 1) (de ++ [entryOf msg]) w1 Hcb).
      destruct (rangeMessagesV1 e s (i + 1) msgs (de ++ [entryOf msg]) w1)
        as [[de2 w2] t2].
      cbn [snd] in *. obs. rewrite IH.
      unfold slowLog. now destruct (SinceMs e w w1 >? HandleTimeoutMS).
  - specialize (IH (i + 1) de w Hcb).
    destruct (rangeMessagesV1 e s (i + 1) msgs de w) as [[de2 w2] t2].
    cbn [snd] in *. exact IH.
Qed.

Lemma rangeMessagesV1_no_decode e s msgs : forall i de w,
  unmarshalCalls (snd (rangeMessagesV1 e s i msgs de w)) = [].
Proof.
  induction msgs as [|msg msgs IH]; intros i de w; [reflexivity|].
  cbn [rangeMessagesV1]. unfold handleMessageV1.
  destruct (Body msg) as [body|].
  - destruct (messageCB s) as [cb|].
    + destruct (cb body w) as [[err0|] w1].
      * specialize (IH (i + 1) de w1).
        destruct (rangeMessagesV1 e s (i + 1) msgs de w1) as [[de2 w2] t2].
        cbn [snd] in *. obs. now rewrite IH.
      * specialize (IH (i + 1) (de ++ [entryOf msg]) w1).
        destruct (rangeMessagesV1 e s (i + 1) msgs (de ++ [entryOf msg]) w1)
          as [[de2 w2] t2].
        cbn [snd] in *. obs. rewrite IH.
        unfold slowLog. now destruct (SinceMs e w w1 >? HandleTimeoutMS).
    + specialize (IH (i + 1) de w).
      destruct (rangeMessagesV1 e s (i + 1) msgs de w) as [[de2 w2] t2].
      cbn [snd] in *. obs. now rewrite IH.
  - specialize (IH (i + 1) de w).
    destruct (rangeMessagesV1 e s (i + 1) msgs de w) as [[de2 w2] t2].
    cbn [snd] in *. exact IH.
Qed.

(** C5. A cycle of the raw loop never calls the decoder, and (the callback
    being set) the callback is called once for each message of the received
    batch that has a body, in batch order, with that body unchanged. *)
Theorem C5_raw_verbatim e s cb st w :
  messageCB s = Some cb ->
  unmarshalCalls (snd (processMessagesV1Cycle e s st w)) = []
  /\ (forall msgs,
        In (Ok msgs) (receiveCalls (snd (processMessagesV1Cycle e s st w))) ->
        callbackCalls (snd (processMessagesV1Cycle e s st w)) = bodies msgs).
Proof.
  intros Hcb.
  pose proof (cycleOf_receives Raw e s st w) as Hr. cbn [cycleOf] in Hr.
  destruct (pollMessages_quiet (fnOf Raw) (waitOf Raw) e s st w) as (_ & _ & Hq).
  destruct (pollMessages (fnOf Raw) (waitOf Raw) e s st w)
    as [[[st2 w2] t0] o] eqn:Hp.
  cbn [fst snd] in *.
  destruct o as [[sv [msgs|err0]]|].
  - split.
    + pose proof (cycleOf_batch Raw e s st w st2 w2 t0 sv _ Hp) as Hc.
      cbn [cycleOf rangeOf] in Hc. rewrite Hc; cbn [snd]; obs.
      rewrite Hq, (proj1 (proj2 (proj2 (receivedLog_quiet Raw msgs)))).
      rewrite rangeMessagesV1_no_decode.
      now rewrite (proj1 (proj2 (proj2 (deleteMessages_quiet _ e s sv _ _)))).
    + intros msgs' Hin. rewrite Hr in Hin. destruct Hin as [Heq|[]].
      injection Heq as <-.
      pose proof (cycleOf_batch_callbacks Raw e s st w st2 w2 t0 sv _ Hp) as Hc.
      cbn [cycleOf rangeOf] in Hc. rewrite Hc.
      now apply rangeMessagesV1_calls with (cb := cb).
  - destruct (cycleOf_err Raw e s st w st2 w2 t0 sv err0 Hp)
      as (tlog & Hc & _ & _ & Hu & _).
    cbn [cycleOf] in Hc. split.
    + rewrite Hc; cbn [snd]; obs. now rewrite Hq, Hu.
    + intros msgs Hin. rewrite Hr in Hin. destruct Hin as [Heq|[]]. discriminate.
  - pose proof (cycleOf_none Raw e s st w st2 w2 t0 Hp) as Hc.
    cbn [cycleOf] in Hc. split.
    + now rewrite Hc.
    + intros msgs Hin. rewrite Hr in Hin. destruct Hin.
Qed.

(** ** Receive errors *)

(** C6. In the raw loop a receive error whose text contains
    [context deadline exceeded] ends the cycle right after the receive, with
    no line logged at error level, in the state, world and trace in which an
    empty batch ends it; any other receive error is logged.  In the wrapped
    loop every receive error is logged, that one included. *)
Theorem C6_deadline_quiet_in_raw_only e s st w st2 w2 t0 sv :
  (forall err0,
     pollMessages "processMessagesV1" 5 e s st w = (st2, w2, t0, Some (sv, Err err0)) ->
     Contains err0 "context deadline exceeded" = true ->
     processMessagesV1Cycle e s st w = (st2, w2, t0)
     /\ errorLogs (snd (processMessagesV1Cycle e s st w)) = [])
  /\ (pollMessages "processMessagesV1" 5 e s st w = (st2, w2, t0, Some (sv, Ok [])) ->
      processMessagesV1Cycle e s st w = (st2, w2, t0))
  /\ (forall err0,
        pollMessages "processMessagesV1" 5 e s st w = (st2, w2, t0, Some (sv, Err err0)) ->
        Contains err0 "context deadline exceeded" = false ->
        processMessagesV1Cycle e s st w
        = (st2, w2,
           t0 ++ [EvLog LevelError "sqs SQS.processMessagesV1 receive message fail."
                        [("err"%string, FStr err0)]]))
  /\ (forall err0,
        pollMessages "processMessages" 20 e s st w = (st2, w2, t0, Some (sv, Err err0)) ->
        processMessagesCycle e s st w
        = (st2, w2,
           t0 ++ [EvLog LevelError "sqs SQS.processMessages receive message fail."
                        [("err"%string, FStr err0)]])).
Proof.
  split; [|split; [|split]].
  - intros err0 Hp Hc.
    assert (Hcycle : processMessagesV1Cycle e s st w = (st2, w2, t0)).
    { unfold processMessagesV1Cycle. rewrite Hp, Hc. cbn [negb]. now rewrite app_nil_r. }
    split; [exact Hcycle|].
    pose proof (pollMessages_errorLogs "processMessagesV1" 5 e s st w) as Hl.
    rewrite Hcycle. rewrite Hp in Hl. apply Hl. discriminate.
  - intros Hp. unfold processMessagesV1Cycle. now rewrite Hp.
  - intros err0 Hp Hc. unfold processMessagesV1Cycle. now rewrite Hp, Hc.
  - intros err0 Hp. unfold processMessagesCycle. now rewrite Hp.
Qed.

(** ** The delete call *)

(** C7. In either loop: a delete call never carries an empty list; a cycle
    whose poll returned a batch issues the delete call with what it staged
    when that is not empty, and none otherwise; an empty batch ends the cycle
    at the receive, with no decode, no callback and no delete in its trace;
    and a cycle that ended in the session block or on a receive error issues
    no delete call. *)
Theorem C7_delete_iff_staged v e s st w :
  (forall d, In d (deleteCalls (snd (cycleOf v e s st w))) -> Entries d <> [])
  /\ (forall st2 w2 t0 sv msgs,
        pollMessages (fnOf v) (waitOf v) e s st w = (st2, w2, t0, Some (sv, Ok msgs)) ->
        deleteCalls (snd (cycleOf v e s st w))
        = match fst (fst (rangeOf v e s 0 msgs [] w2)) with
          | [] => []
          | _ :: _ => [{| Entries := fst (fst (rangeOf v e s 0 msgs [] w2));
                          DeleteQueueUrl := QueueUrl (config s) |}]
          end)
  /\ (forall st2 w2 t0 sv,
        pollMessages (fnOf v) (waitOf v) e s st w = (st2, w2, t0, Some (sv, Ok [])) ->
        cycleOf v e s st w = (st2, w2, t0)
        /\ unmarshalCalls t0 = [] /\ callbackCalls t0 = [] /\ deleteCalls t0 = [])
  /\ (forall st2 w2 t0 o,
        pollMessages (fnOf v) (waitOf v) e s st w = (st2, w2, t0, o) ->
        (forall sv msgs, o <> Some (sv, Ok msgs)) ->
        deleteCalls (snd (cycleOf v e s st w)) = []).
Proof.
  destruct (pollMessages_quiet (fnOf v) (waitOf v) e s st w) as (Hq & Hqc & Hqu).
  assert (Hstop : forall st2 w2 t0 o,
        pollMessages (fnOf v) (waitOf v) e s st w = (st2, w2, t0, o) ->
        (forall sv msgs, o <> Some (sv, Ok msgs)) ->
        deleteCalls (snd (cycleOf v e s st w)) = []).
  { intros st2 w2 t0 o Hp Ho. rewrite Hp in Hq; cbn [fst snd] in Hq.
    destruct o as [[sv [msgs|err0]]|].
    - now destruct (Ho sv msgs).
    - destruct (cycleOf_err v e s st w st2 w2 t0 sv err0 Hp) as (tlog & -> & Hd & _).
      cbn [snd]; obs. now rewrite Hq, Hd.
    - now rewrite (cycleOf_none v e s st w st2 w2 t0 Hp). }
  split; [|split; [|split]].
  - intros d Hd.
    destruct (pollMessages (fnOf v) (waitOf v) e s st w) as [[[st2 w2] t0] o] eqn:Hp.
    destruct o as [[sv [msgs|err0]]|].
    + rewrite (cycleOf_batch_deletes v e s st w st2 w2 t0 sv _ Hp) in Hd.
      destruct (fst (fst (rangeOf v e s 0 msgs [] w2))) as [|x de]; [destruct Hd|].
      destruct Hd as [<-|[]]. discriminate.
    + rewrite (Hstop st2 w2 t0 _ eq_refl) in Hd; [destruct Hd|discriminate].
    + rewrite (Hstop st2 w2 t0 _ eq_refl) in Hd; [destruct Hd|discriminate].
  - intros st2 w2 t0 sv msgs Hp.
    now apply cycleOf_batch_deletes with (st2 := st2) (t0 := t0) (sv := sv).
  - intros st2 w2 t0 sv Hp.
    rewrite Hp in Hq, Hqc, Hqu; cbn [fst snd] in Hq, Hqc, Hqu.
    split; [|auto].
    rewrite (cycleOf_batch v e s st w st2 w2 t0 sv _ Hp).
    rewrite rangeOf_nil; cbn [fst snd deleteMessages].
    replace (receivedLog v []) with (@nil (@Event Session Service)) by now destruct v.
    now rewrite !app_nil_r.
  - exact Hstop.
Qed.

(** ** The worker across cycles *)

Lemma forLoop_invariant (cycle : @Worker Session Service -> World -> _)
  (I : @Worker Session Service -> Prop) (P : @Trace Session Service -> Prop) :
  (forall st w, I st -> I (fst (fst (cycle st w))) /\ P (snd (cycle st w))) ->
  forall n st w, I st ->
    I (fst (fst (forLoop cycle n st w)))
    /\ Forall P (snd (forLoop cycle n st w))
    /\ length (snd (forLoop cycle n st w)) = n.
Proof.
  intros Hstep. induction n as [|n IH]; intros st w HI.
  - simpl; auto.
  - cbn [forLoop]. destruct (Hstep st w HI) as [HI1 HP].
    destruct (cycle st w) as [[st1 w1] t]. cbn [fst snd] in *.
    destruct (IH st1 w1 HI1) as (HI2 & HF & HL).
    destruct (forLoop cycle n st1 w1) as [[st2 w2] ts]. cbn [fst snd length] in *.
    auto.
Qed.

(** The worker functions run every iteration asked for, after their start
    line: nothing in a cycle ends the [for]. *)
Lemma workers_run_every_cycle e s i n w :
  snd (processMessages e s i n w)
  = [startLog "processMessages" i]
    :: snd (forLoop (cycleOf Wrapped e s) n newWorker w)
  /\ snd (processMessagesV1 e s i n w)
     = [startLog "processMessagesV1" i]
       :: snd (forLoop (cycleOf Raw e s) n newWorker w)
  /\ length (snd (processMessages e s i n w)) = S n
  /\ length (snd (processMessagesV1 e s i n w)) = S n.
Proof.
  unfold processMessages, processMessagesV1; cbn [cycleOf].
  destruct (forLoop_invariant (processMessagesCycle e s) (fun _ => True)
              (fun _ => True)) with (n := n) (st := @newWorker Session Service) (w := w)
    as (_ & _ & HL1); auto.
  destruct (forLoop_invariant (processMessagesV1Cycle e s) (fun _ => True)
              (fun _ => True)) with (n := n) (st := @newWorker Session Service) (w := w)
    as (_ & _ & HL2); auto.
  destruct (forLoop (processMessagesCycle e s) n newWorker w) as [[st1 w1] ts1].
  destruct (forLoop (processMessagesV1Cycle e s) n newWorker w) as [[st2 w2] ts2].
  cbn [fst snd length] in *. repeat split; congruence.
Qed.

(** With session and client in place the poll is the receive alone. *)
Lemma pollMessages_steady fn wait e s st w sess sv :
  cfgSession st = Some sess -> service st = Some sv ->
  pollMessages fn wait e s st w
  = (st,
     snd (ReceiveMessageWithContext e sv (wait + 1) (receiveInput s wait) w),
     [EvReceive sv (wait + 1) (receiveInput s wait)
        (fst (ReceiveMessageWithContext e sv (wait + 1) (receiveInput s wait) w))],
     Some (sv, fst (ReceiveMessageWithContext e sv (wait + 1) (receiveInput s wait) w))).
Proof.
  intros Hs Hv. unfold pollMessages, initSession, initService. rewrite Hs, Hv.
  now destruct (ReceiveMessageWithContext e sv (wait + 1) (receiveInput s wait) w).
Qed.

(** A poll that reached the receive leaves session and client set, the
    client being the one it called. *)
Lemma pollMessages_state fn wait e s st w st2 w2 t0 sv r :
  pollMessages fn wait e s st w = (st2, w2, t0, Some (sv, r)) ->
  service st2 = Some sv /\ cfgSession st2 <> None
  /\ forall ev, In ev t0 -> usesService sv ev.
Proof.
  unfold pollMessages, initSession, initService.
  destruct (cfgSession st) as [sess|] eqn:Hs.
  - destruct (service st) as [sv0|] eqn:Hv; cbn [service cfgSession];
      destruct (ReceiveMessageWithContext e _ _ _ w) as [r' w'];
      intros [= <- <- <- <- <-]; cbn [service cfgSession]; rewrite ?Hs;
      (split; [auto|split; [discriminate|]]);
      intros ev Hin; cbn in Hin; intuition (subst; exact I || reflexivity).
  - destruct (NewSession e (awsConfig s) w) as [[sess|err0] w1]; [|discriminate].
    cbn [service cfgSession].
    destruct (service st) as [sv0|] eqn:Hv; cbn [service cfgSession];
      destruct (ReceiveMessageWithContext e _ _ _ w1) as [r' w'];
      intros [= <- <- <- <- <-]; cbn [service cfgSession];
      (split; [auto|split; [discriminate|]]);
      intros ev Hin; cbn in Hin; intuition (subst; exact I || reflexivity).
Qed.

(** The worker's variables after a cycle are those after its poll. *)
Lemma cycleOf_state v e s st w :
  fst (fst (cycleOf v e s st w))
  = fst (fst (fst (pollMessages (fnOf v) (waitOf v) e s st w))).
Proof.
  destruct (pollMessages (fnOf v) (waitOf v) e s st w) as [[[st2 w2] t0] o] eqn:Hp.
  destruct o as [[sv [msgs|err0]]|].
  - now rewrite (cycleOf_batch v e s st w st2 w2 t0 sv _ Hp).
  - now destruct (cycleOf_err v e s st w st2 w2 t0 sv err0 Hp) as (tlog & -> & _).
  - now rewrite (cycleOf_none v e s st w st2 w2 t0 Hp).
Qed.

(** What follows the poll in a cycle builds no session and no client. *)
Lemma cycleOf_builds v e s st w :
  sessionCalls (snd (cycleOf v e s st w))
  = sessionCalls (snd (fst (pollMessages (fnOf v) (waitOf v) e s st w)))
  /\ clientBuilds (snd (cycleOf v e s st w))
     = clientBuilds (snd (fst (pollMessages (fnOf v) (waitOf v) e s st w))).
Proof.
  destruct (pollMessages (fnOf v) (waitOf v) e s st w) as [[[st2 w2] t0] o] eqn:Hp.
  cbn [fst snd].
  destruct o as [[sv [msgs|err0]]|].
  - rewrite (cycleOf_batch v e s st w st2 w2 t0 sv _ Hp); cbn [snd]; obs.
    destruct (receivedLog_quiet v msgs) as (_ & _ & _ & _ & -> & ->).
    destruct (rangeOf_quiet v e s msgs 0 [] w2) as (_ & _ & -> & ->).
    destruct (deleteMessages_quiet (fnOf v) e s sv
                (fst (fst (rangeOf v e s 0 msgs [] w2)))
                (snd (fst (rangeOf v e s 0 msgs [] w2)))) as (_ & _ & _ & -> & ->).
    now rewrite !app_nil_r.
  - destruct (cycleOf_err v e s st w st2 w2 t0 sv err0 Hp)
      as (tlog & -> & _ & _ & _ & _ & Hs & Hc & _).
    cbn [snd]; obs. now rewrite Hs, Hc, !app_nil_r.
  - now rewrite (cycleOf_none v e s st w st2 w2 t0 Hp).
Qed.

Lemma pollMessages_sessions fn wait e s st w :
  sessionCalls (snd (fst (pollMessages fn wait e s st w)))
  = match cfgSession st with Some _ => [] | None => [awsConfig s] end.
Proof.
  unfold pollMessages, initSession, initService.
  destruct (cfgSession st) as [sess|].
  - destruct (service st) as [sv|]; simpl;
      destruct (ReceiveMessageWithContext e _ _ _ w) as [r w2]; simpl; auto.
  - destruct (NewSession e (awsConfig s) w) as [[sess|err0] w1]; simpl; auto.
    destruct (service st) as [sv|]; simpl;
      destruct (ReceiveMessageWithContext e _ _ _ w1) as [r w2]; simpl; auto.
Qed.

Lemma quiet_usesService t (sv : Service) :
  deleteCalls t = [] -> receiveCalls t = [] ->
  forall ev, In ev t -> usesService sv ev.
Proof.
  induction t as [|ev0 t IH]; intros Hd Hr ev Hin; [destruct Hin|].
  destruct Hin as [<-|Hin].
  - destruct ev0; simpl in *; try exact I; discriminate.
  - apply IH; auto; destruct ev0; simpl in *; auto; discriminate.
Qed.

Lemma deleteMessages_usesService fn e s (sv : Service) de w :
  forall ev, In ev (snd (deleteMessages fn e s sv de w)) -> usesService sv ev.
Proof.
  unfold deleteMessages. destruct de as [|x de]; [intros ev []|].
  destruct (DeleteMessageBatchWithContext e sv 1 _ w) as [[err0|] w1];
    intros ev Hin; cbn in Hin; intuition (subst; exact I || reflexivity).
Qed.

(** A cycle that reached the receive talks to the queue through one client
    only, the one its worker holds afterwards. *)
Lemma cycleOf_usesService v e s st w st2 w2 t0 sv r :
  pollMessages (fnOf v) (waitOf v) e s st w = (st2, w2, t0, Some (sv, r)) ->
  forall ev, In ev (snd (cycleOf v e s st w)) -> usesService sv ev.
Proof.
  intros Hp ev Hin.
  destruct (pollMessages_state _ _ e s st w st2 w2 t0 sv r Hp) as (_ & _ & H0).
  destruct r as [msgs|err0].
  - rewrite (cycleOf_batch v e s st w st2 w2 t0 sv _ Hp) in Hin; cbn [snd] in Hin.
    apply in_app_or in Hin; destruct Hin as [Hin|Hin]; [now apply H0|].
    apply in_app_or in Hin; destruct Hin as [Hin|Hin].
    { revert Hin. apply quiet_usesService; apply receivedLog_quiet. }
    apply in_app_or in Hin; destruct Hin as [Hin|Hin].
    { revert Hin. apply quiet_usesService; apply rangeOf_quiet. }
    revert Hin. apply deleteMessages_usesService.
  - destruct (cycleOf_err v e s st w st2 w2 t0 sv err0 Hp)
      as (tlog & Hc & Hd & _ & _ & Hr & _).
    rewrite Hc in Hin; cbn [snd] in Hin.
    apply in_app_or in Hin; destruct Hin as [Hin|Hin]; [now apply H0|].
    revert Hin. now apply quiet_usesService.
Qed.

(** Whatever a cycle deletes, it received in the same cycle. *)
Lemma cycleOf_ownBatch v e s st w : ownBatch (snd (cycleOf v e s st w)).
Proof.
  intros d x Hd Hx. rewrite cycleOf_receives.
  destruct (pollMessages_quiet (fnOf v) (waitOf v) e s st w) as (Hq & _).
  destruct (pollMessages (fnOf v) (waitOf v) e s st w) as [[[st2 w2] t0] o] eqn:Hp.
  cbn [fst snd] in *.
  destruct o as [[sv [msgs|err0]]|].
  - rewrite (cycleOf_batch_deletes v e s st w st2 w2 t0 sv _ Hp) in Hd.
    destruct (fst (fst (rangeOf v e s 0 msgs [] w2))) as [|y de] eqn:Hde;
      [destruct Hd|].
    destruct Hd as [<-|[]]. cbn [Entries] in Hx. rewrite <- Hde in Hx.
    apply rangeOf_staged_from in Hx. destruct Hx as (m & Hm & _ & ->).
    exists msgs, m. split; [now left|auto].
  - destruct (cycleOf_err v e s st w st2 w2 t0 sv err0 Hp) as (tlog & Hc & Hdl & _).
    rewrite Hc in Hd; cbn [snd] in Hd. revert Hd; obs. rewrite Hq, Hdl. intros [].
  - rewrite (cycleOf_none v e s st w st2 w2 t0 Hp) in Hd; cbn [snd] in Hd.
    rewrite Hq in Hd. destruct Hd.
Qed.

(** From a ready worker a cycle goes straight to its one receive and leaves
    the worker as it found it. *)
Lemma cycleOf_ready v e s st w :
  ready st ->
  fst (fst (cycleOf v e s st w)) = st
  /\ sessionCalls (snd (cycleOf v e s st w)) = []
  /\ clientBuilds (snd (cycleOf v e s st w)) = []
  /\ length (receiveCalls (snd (cycleOf v e s st w))) = 1%nat
  /\ forall sv, service st = Some sv ->
       forall ev, In ev (snd (cycleOf v e s st w)) -> usesService sv ev.
Proof.
  intros [Hs Hv].
  destruct (cfgSession st) as [sess|] eqn:Hs'; [|congruence].
  destruct (service st) as [sv|] eqn:Hv'; [|congruence].
  pose proof (pollMessages_steady (fnOf v) (waitOf v) e s st w sess sv Hs' Hv') as Hp.
  destruct (cycleOf_builds v e s st w) as [Hb1 Hb2].
  rewrite cycleOf_state, Hb1, Hb2, cycleOf_receives, Hp; cbn [fst snd].
  repeat split.
  intros sv' [= <-]. now apply (cycleOf_usesService v e s st w _ _ _ _ _ Hp).
Qed.

Lemma deleteCalls_event t (sv : Service) timeout d r :
  In (EvDelete sv timeout d r) t -> In d (deleteCalls t).
Proof.
  intros Hin. unfold deleteCalls. apply in_flat_map.
  exists (EvDelete sv timeout d r). split; [exact Hin|now left].
Qed.

(** C8. In either loop, after a cycle whose delete call failed: that call
    was the only one of the cycle; the worker is left with its session and
    the same client; and the loop goes on from there, each later cycle
    building no session, issuing its one receive, and putting in its delete
    call only entries of messages that its own receive returned. *)
Theorem C8_delete_failure_no_retry v e s st w sv timeout d err0 :
  In (EvDelete sv timeout d (Some err0)) (snd (cycleOf v e s st w)) ->
  deleteCalls (snd (cycleOf v e s st w)) = [d]
  /\ ready (fst (fst (cycleOf v e s st w)))
  /\ service (fst (fst (cycleOf v e s st w))) = Some sv
  /\ forall n,
       length (snd (forLoop (cycleOf v e s) n
                      (fst (fst (cycleOf v e s st w)))
                      (snd (fst (cycleOf v e s st w))))) = n
       /\ Forall (fun t => sessionCalls t = []
                           /\ length (receiveCalls t) = 1%nat
                           /\ ownBatch t)
            (snd (forLoop (cycleOf v e s) n
                    (fst (fst (cycleOf v e s st w)))
                    (snd (fst (cycleOf v e s st w))))).
Proof.
  intros Hev.
  pose proof (deleteCalls_event _ _ _ _ _ Hev) as Hd.
  destruct (pollMessages_quiet (fnOf v) (waitOf v) e s st w) as (Hq & _).
  destruct (pollMessages (fnOf v) (waitOf v) e s st w) as [[[st2 w2] t0] o] eqn:Hp.
  cbn [fst snd] in Hq.
  assert (Hsome : exists sv0 r, o = Some (sv0, r)).
  { destruct o as [[sv0 r]|]; [eauto|].
    rewrite (cycleOf_none v e s st w st2 w2 t0 Hp) in Hd; cbn [snd] in Hd.
    rewrite Hq in Hd. destruct Hd. }
  destruct Hsome as (sv0 & r & ->).
  pose proof (cycleOf_usesService v e s st w st2 w2 t0 sv0 r Hp _ Hev) as Hsv.
  cbn [usesService] in Hsv. subst sv0.
  destruct (pollMessages_state _ _ e s st w st2 w2 t0 sv r Hp) as (Hv & Hs & _).
  assert (Hst : fst (fst (cycleOf v e s st w)) = st2)
    by now rewrite cycleOf_state, Hp.
  assert (Hready : ready (fst (fst (cycleOf v e s st w))))
    by (rewrite Hst; split; congruence).
  split; [|split; [exact Hready|split; [now rewrite Hst|]]].
  - destruct r as [msgs|err1].
    + rewrite (cycleOf_batch_deletes v e s st w st2 w2 t0 sv _ Hp) in *.
      destruct (fst (fst (rangeOf v e s 0 msgs [] w2))); [destruct Hd|].
      now destruct Hd as [<-|[]].
    + destruct (cycleOf_err v e s st w st2 w2 t0 sv err1 Hp) as (tlog & Hc & Hdl & _).
      rewrite Hc in Hd; cbn [snd] in Hd. revert Hd; obs. rewrite Hq, Hdl. intros [].
  - intros n.
    destruct (forLoop_invariant (cycleOf v e s) ready
                (fun t => sessionCalls t = [] /\ length (receiveCalls t) = 1%nat
                          /\ ownBatch t)) with (n := n)
        (st := fst (fst (cycleOf v e s st w))) (w := snd (fst (cycleOf v e s st w)))
      as (_ & HF & HL); auto.
    intros st' w' Hr'.
    destruct (cycleOf_ready v e s st' w' Hr') as (H1 & H2 & _ & H4 & _).
    rewrite H1. repeat split; auto; try apply Hr'. apply cycleOf_ownBatch.
Qed.

(** C9. In either loop: a cycle calls [NewSession] exactly when the worker
    holds no session; once session and client are both held, any number of
    further cycles leave the worker unchanged, build neither again, and make
    every queue call through that client; a cycle in which [NewSession]
    succeeds leaves that session and a client in the worker; and a cycle in
    which it fails logs, makes no other call, leaves the worker without a
    session, and is followed by the rest of the loop. *)
Theorem C9_session_built_once v e s st w :
  sessionCalls (snd (cycleOf v e s st w))
  = match cfgSession st with Some _ => [] | None => [awsConfig s] end
  /\ (forall sv n,
        cfgSession st <> None -> service st = Some sv ->
        fst (fst (forLoop (cycleOf v e s) n st w)) = st
        /\ Forall (fun t => sessionCalls t = [] /\ clientBuilds t = []
                            /\ forall ev, In ev t -> usesService sv ev)
             (snd (forLoop (cycleOf v e s) n st w)))
  /\ (forall sess w1,
        cfgSession st = None ->
        NewSession e (awsConfig s) w = (Ok sess, w1) ->
        cfgSession (fst (fst (cycleOf v e s st w))) = Some sess
        /\ service (fst (fst (cycleOf v e s st w)))
           = Some (match service st with Some sv => sv | None => New e sess end))
  /\ (forall err0 w1,
        cfgSession st = None ->
        NewSession e (awsConfig s) w = (Err err0, w1) ->
        cycleOf v e s st w
        = ({| cfgSession := None; service := service st;
              err := Some (Wrap err0 (tagged (fnOf v) " session")) |},
           w1,
           [EvNewSession (awsConfig s) (Err err0);
            EvLog LevelError (tagged (fnOf v) " session")
                  [("err"%string, FStr (Wrap err0 (tagged (fnOf v) " session")))]])
        /\ forall n,
             forLoop (cycleOf v e s) (S n) st w
             = (fst (fst (forLoop (cycleOf v e s) n
                            {| cfgSession := None; service := service st;
                               err := Some (Wrap err0 (tagged (fnOf v) " session")) |}
                            w1)),
                snd (fst (forLoop (cycleOf v e s) n
                            {| cfgSession := None; service := service st;
                               err := Some (Wrap err0 (tagged (fnOf v) " session")) |}
                            w1)),
                [EvNewSession (awsConfig s) (Err err0);
                 EvLog LevelError (tagged (fnOf v) " session")
                       [("err"%string, FStr (Wrap err0 (tagged (fnOf v) " session")))]]
                :: snd (forLoop (cycleOf v e s) n
                          {| cfgSession := None; service := service st;
                             err := Some (Wrap err0 (tagged (fnOf v) " session")) |}
                          w1))).
Proof.
  split; [|split; [|split]].
  - rewrite (proj1 (cycleOf_builds v e s st w)). apply pollMessages_sessions.
  - intros sv n Hs Hv.
    destruct (forLoop_invariant (cycleOf v e s) (fun st' => st' = st)
                (fun t => sessionCalls t = [] /\ clientBuilds t = []
                          /\ forall ev, In ev t -> usesService sv ev))
      with (n := n) (st := st) (w := w) as (HI & HF & _); auto.
    intros st' w' ->.
    assert (Hr : ready st) by (split; congruence).
    destruct (cycleOf_ready v e s st w' Hr) as (H1 & H2 & H3 & _ & H5).
    repeat split; auto.
  - intros sess w1 Hs Hn. rewrite cycleOf_state.
    unfold pollMessages, initSession, initService. rewrite Hs, Hn.
    cbn [service cfgSession].
    destruct (service st) as [sv|];
      destruct (ReceiveMessageWithContext e _ _ _ w1) as [r w2]; auto.
  - intros err0 w1 Hs Hn.
    assert (Hc : cycleOf v e s st w
        = ({| cfgSession := None; service := service st;
              err := Some (Wrap err0 (tagged (fnOf v) " session")) |},
           w1,
           [EvNewSession (awsConfig s) (Err err0);
            EvLog LevelError (tagged (fnOf v) " session")
                  [("err"%string, FStr (Wrap err0 (tagged (fnOf v) " session")))]])).
    { apply cycleOf_none. unfold pollMessages, initSession. now rewrite Hs, Hn. }
    split; [exact Hc|].
    intros n. cbn [forLoop]. rewrite Hc.
    now destruct (forLoop (cycleOf v e s) n _ w1) as [[st3 w3] ts].
Qed.

(** ** Constructors *)

(** The fuel given by the constructors is enough: for a count that is not
    negative the loop runs at [0, 1, ..., cnt - 1]. *)
Lemma spawnLoop_enough fuel : forall i,
  spawnLoop fuel i (i + Z.of_nat fuel) = map (fun k => i + Z.of_nat k) (seq 0 fuel).
Proof.
  induction fuel as [|fuel IH]; intros i; [reflexivity|].
  cbn [spawnLoop seq map].
  replace (i <? i + Z.of_nat (S fuel)) with true by (symmetry; apply Z.ltb_lt; lia).
  rewrite Z.add_0_r. f_equal.
  replace (i + Z.of_nat (S fuel)) with (i + 1 + Z.of_nat fuel) by lia.
  rewrite IH, <- seq_shift, map_map.
  apply map_ext. intros k. lia.
Qed.

Lemma NewSQS_workers (sqsConfig : SQSConfig) (cb : option (@MessageCB World)) :
  0 <= ConsumerCnt sqsConfig ->
  snd (NewSQS sqsConfig cb)
  = map (fun k => GoProcessMessages (Z.of_nat k))
        (seq 0 (Z.to_nat (ConsumerCnt sqsConfig)))
  /\ snd (NewSQSV1 sqsConfig cb)
     = map (fun k => GoProcessMessagesV1 (Z.of_nat k))
           (seq 0 (Z.to_nat (ConsumerCnt sqsConfig))).
Proof.
  intros Hc. unfold NewSQS, NewSQSV1; cbn [snd].
  pose proof (spawnLoop_enough (Z.to_nat (ConsumerCnt sqsConfig)) 0) as Hs.
  rewrite Z.add_0_l, Z2Nat.id in Hs by exact Hc.
  rewrite Hs, !map_map. split; reflexivity.
Qed.

(** C10. With [ConsumerCnt] zero or negative both constructors return the
    consumer holding the configuration and the callback they were given, and
    start no worker. *)
Theorem C10_no_workers (sqsConfig : SQSConfig) (cb : option (@MessageCB World)) :
  ConsumerCnt sqsConfig <= 0 ->
  NewSQS sqsConfig cb = ({| config := sqsConfig; messageCB := cb |}, [])
  /\ NewSQSV1 sqsConfig cb = ({| config := sqsConfig; messageCB := cb |}, []).
Proof.
  intros Hc. unfold NewSQS, NewSQSV1.
  destruct (Z.to_nat (ConsumerCnt sqsConfig)) as [|fuel] eqn:Hn.
  - split; reflexivity.
  - lia.
Qed.

(** * Further properties of the consumer *)

(** ** Workers started *)

(** X1. With [ConsumerCnt] not negative each constructor starts exactly
    [ConsumerCnt] workers of its own loop, with the task ids
    [0 .. ConsumerCnt - 1] in that order. *)
Theorem X1_workers_started (sqsConfig : SQSConfig) (cb : option (@MessageCB World)) :
  0 <= ConsumerCnt sqsConfig ->
  snd (NewSQS sqsConfig cb)
  = map (fun k => GoProcessMessages (Z.of_nat k))
        (seq 0 (Z.to_nat (ConsumerCnt sqsConfig)))
  /\ snd (NewSQSV1 sqsConfig cb)
     = map (fun k => GoProcessMessagesV1 (Z.of_nat k))
           (seq 0 (Z.to_nat (ConsumerCnt sqsConfig)))
  /\ Z.of_nat (length (snd (NewSQS sqsConfig cb))) = ConsumerCnt sqsConfig
  /\ Z.of_nat (length (snd (NewSQSV1 sqsConfig cb))) = ConsumerCnt sqsConfig.
Proof.
  intros Hc. destruct (NewSQS_workers sqsConfig cb Hc) as [H1 H2].
  rewrite H1, H2, !length_map, !length_seq. repeat split; lia.
Qed.

(** ** Order and size of the delete batch *)

Lemma subseq_length {A : Type} (l1 l2 : list A) :
  subseq l1 l2 -> (length l1 <= length l2)%nat.
Proof. induction 1; simpl; lia. Qed.

Lemma subseq_app {A : Type} (a1 a2 b1 b2 : list A) :
  subseq a1 a2 -> subseq b1 b2 -> subseq (a1 ++ b1) (a2 ++ b2).
Proof. induction 1; intros Hb; simpl; auto using @subseq. Qed.

(** A pass stages nothing or the message's own entry. *)
Lemma handleOf_staged_cases v e s i msg w :
  fst (fst (rangeOf v e s i [msg] [] w)) = []
  \/ fst (fst (rangeOf v e s i [msg] [] w)) = [entryOf msg].
Proof.
  destruct v; simpl; unfold handleMessage, handleMessageV1.
  - destruct (Body msg) as [body|]; [|now left].
    destruct (Unmarshal e body) as [rawMessage|err0]; [|now right].
    destruct (messageCB s) as [cb|]; [|now left].
    destruct (cb (RawMsg rawMessage) w) as [[err0|] w1]; [now left|now right].
  - destruct (Body msg) as [body|]; [|now left].
    destruct (messageCB s) as [cb|]; [|now left].
    destruct (cb body w) as [[err0|] w1]; [now left|now right].
Qed.

Lemma rangeOf_subseq v e s msgs : forall i w,
  subseq (fst (fst (rangeOf v e s i msgs [] w))) (map entryOf msgs).
Proof.
  induction msgs as [|msg msgs IH]; intros i w.
  - rewrite rangeOf_nil. constructor.
  - rewrite rangeOf_cons; cbn [fst snd map]. rewrite rangeOf_acc; cbn [fst snd].
    change (entryOf msg :: map entryOf msgs) with ([entryOf msg] ++ map entryOf msgs).
    apply subseq_app; [|apply IH].
    destruct (handleOf_staged_cases v e s i msg w) as [-> | ->];
      [apply subseq_skip|apply subseq_keep]; apply subseq_nil.
Qed.

(** X2. In either loop the entries of a delete call follow the order of the
    batch the cycle received: they are the entries of its messages with some
    left out, so the call never carries more entries than messages were
    received. *)
Theorem X2_delete_batch_in_order v e s st w d msgs :
  In d (deleteCalls (snd (cycleOf v e s st w))) ->
  In (Ok msgs) (receiveCalls (snd (cycleOf v e s st w))) ->
  subseq (Entries d) (map entryOf msgs)
  /\ (length (Entries d) <= length msgs)%nat.
Proof.
  intros Hd Hr.
  assert (Hs : subseq (Entries d) (map entryOf msgs)).
  { rewrite cycleOf_receives in Hr.
    destruct (pollMessages (fnOf v) (waitOf v) e s st w) as [[[st2 w2] t0] o] eqn:Hp.
    cbn [snd] in Hr. destruct o as [[sv r]|]; [|destruct Hr].
    destruct Hr as [->|[]].
    rewrite (cycleOf_batch_deletes v e s st w st2 w2 t0 sv _ Hp) in Hd.
    pose proof (rangeOf_subseq v e s msgs 0 w2) as Hsub.
    destruct (fst (fst (rangeOf v e s 0 msgs [] w2))); [destruct Hd|].
    destruct Hd as [<-|[]]. exact Hsub. }
  split; [exact Hs|].
  apply subseq_length in Hs. now rewrite length_map in Hs.
Qed.

(** ** What the wrapped loop decodes and hands over *)

Lemma rangeMessages_decodes e s msgs : forall de w,
  unmarshalCalls (snd (rangeMessages e s msgs de w)) = bodies msgs.
Proof.
  induction msgs as [|msg msgs IH]; intros de w; [reflexivity|].
  cbn [rangeMessages]. unfold handleMessage, bodies. cbn [flat_map].
  fold (bodies msgs).
  destruct (Body msg) as [body|].
  - destruct (Unmarshal e body) as [rawMessage|err0].
    + destruct (messageCB s) as [cb|].
      * destruct (cb (RawMsg rawMessage) w) as [[err0|] w1].
        -- specialize (IH de w1).
           destruct (rangeMessages e s msgs de w1) as [[de2 w2] t2].
           cbn [snd] in *. obs. now rewrite IH.
        -- specialize (IH (de ++ [entryOf msg]) w1).
           destruct (rangeMessages e s msgs (de ++ [entryOf msg]) w1) as [[de2 w2] t2].
           cbn [snd] in *. obs. rewrite IH.
           unfold slowLog. now destruct (SinceMs e w w1 >? HandleTimeoutMS).
      * specialize (IH de w).
        destruct (rangeMessages e s msgs de w) as [[de2 w2] t2].
        cbn [snd] in *. obs. now rewrite IH.
    + specialize (IH (de ++ [entryOf msg]) w).
      destruct (rangeMessages e s msgs (de ++ [entryOf msg]) w) as [[de2 w2] t2].
      cbn [snd] in *. obs. now rewrite IH.
  - specialize (IH de w).
    destruct (rangeMessages e s msgs de w) as [[de2 w2] t2].
    cbn [snd] in *. exact IH.
Qed.

Lemma rangeMessages_calls e s cb msgs : forall de w,
  messageCB s = Some cb ->
  callbackCalls (snd (rangeMessages e s msgs de w)) = payloads e msgs.
Proof.
  induction msgs as [|msg msgs IH]; intros de w Hcb; [reflexivity|].
  cbn [rangeMessages]. unfold handleMessage, payloads. cbn [flat_map payload].
  fold (payloads e msgs).
  destruct (Body msg) as [body|].
  - destruct (Unmarshal e body) as [rawMessage|err0].
    + rewrite Hcb. destruct (cb (RawMsg rawMessage) w) as [[err0|] w1].
      * specialize (IH de w1 Hcb).
        destruct (rangeMessages e s msgs de w1) as [[de2 w2] t2].
        cbn [snd] in *. obs. now rewrite IH.
      * specialize (IH (de ++ [entryOf msg]) w1 Hcb).
        destruct (rangeMessages e s msgs (de ++ [entryOf msg]) w1) as [[de2 w2] t2].
        cbn [snd] in *. obs. rewrite IH.
        unfold slowLog. now destruct (SinceMs e w w1 >? HandleTimeoutMS).
    + specialize (IH (de ++ [entryOf msg]) w Hcb).
      destruct (rangeMessages e s msgs (de ++ [entryOf msg]) w) as [[de2 w2] t2].
      cbn [snd] in *. obs. now rewrite IH.
  - specialize (IH de w Hcb).
    destruct (rangeMessages e s msgs de w) as [[de2 w2] t2].
    cbn [snd] in *. exact IH.
Qed.

Lemma cycleOf_batch_decodes v e s st w st2 w2 t0 sv msgs :
  pollMessages (fnOf v) (waitOf v) e s st w = (st2, w2, t0, Some (sv, Ok msgs)) ->
  unmarshalCalls (snd (cycleOf v e s st w))
  = unmarshalCalls (snd (rangeOf v e s 0 msgs [] w2)).
Proof.
  intros Hpoll.
  rewrite (cycleOf_batch v e s st w st2 w2 t0 sv _ Hpoll); cbn [snd]; obs.
  destruct (pollMessages_quiet (fnOf v) (waitOf v) e s st w) as (_ & _ & Hq).
  rewrite Hpoll in Hq; cbn [fst snd] in Hq; rewrite Hq.
  rewrite (proj1 (proj2 (proj2 (receivedLog_quiet v msgs)))).
  rewrite (proj1 (proj2 (proj2 (deleteMessages_quiet (fnOf v) e s sv _ _)))).
  now rewrite app_nil_r.
Qed.

(** X3. A cycle of the wrapped loop decodes every body of the batch it
    received exactly once and in batch order, whatever the callback; with a
    callback set, the callback is called exactly for the bodies that decode,
    in batch order, with the [Message] field of the envelope. *)
Theorem X3_wrapped_decodes_then_calls e s st w msgs :
  In (Ok msgs) (receiveCalls (snd (processMessagesCycle e s st w))) ->
  unmarshalCalls (snd (processMessagesCycle e s st w)) = bodies msgs
  /\ (forall cb, messageCB s = Some cb ->
        callbackCalls (snd (processMessagesCycle e s st w)) = payloads e msgs).
Proof.
  intros Hr.
  pose proof (cycleOf_receives Wrapped e s st w) as Hrc. cbn [cycleOf] in Hrc.
  rewrite Hrc in Hr.
  destruct (pollMessages (fnOf Wrapped) (waitOf Wrapped) e s st w)
    as [[[st2 w2] t0] o] eqn:Hp.
  cbn [snd] in Hr. destruct o as [[sv r]|]; [|destruct Hr].
  destruct Hr as [->|[]]. split.
  - pose proof (cycleOf_batch_decodes Wrapped e s st w st2 w2 t0 sv _ Hp) as Hd.
    cbn [cycleOf rangeOf] in Hd. rewrite Hd. apply rangeMessages_decodes.
  - intros cb Hcb.
    pose proof (cycleOf_batch_callbacks Wrapped e s st w st2 w2 t0 sv _ Hp) as Hc.
    cbn [cycleOf rangeOf] in Hc. rewrite Hc. now apply rangeMessages_calls with (cb := cb).
Qed.

(** ** Arguments of the collaborator calls *)

Lemma nonEmpty_true (x : string) : nonEmpty x = true <-> x <> EmptyString.
Proof. destruct x; simpl; split; congruence. Qed.

Lemma awsConfig_shape v s r :
  callShape v s (EvNewSession (awsConfig s) r : @Event Session Service).
Proof.
  unfold awsConfig; cbn [callShape].
  destruct (nonEmpty (APIKey (config s))) eqn:Ha;
    destruct (nonEmpty (SecretKey (config s))) eqn:Hb; cbn [andb ConfigRegion Credentials];
    (split; [reflexivity|]).
  - left. rewrite <- !nonEmpty_true. auto.
  - right. split; [reflexivity|right]. destruct (SecretKey (config s)); [auto|discriminate].
  - right. split; [reflexivity|left]. destruct (APIKey (config s)); [auto|discriminate].
  - right. split; [reflexivity|left]. destruct (APIKey (config s)); [auto|discriminate].
Qed.

Lemma quiet_callShape v s t :
  deleteCalls t = [] -> receiveCalls t = [] -> sessionCalls t = [] ->
  forall ev, In ev t -> callShape v s ev.
Proof.
  induction t as [|ev0 t IH]; intros Hd Hr Hs ev Hin; [destruct Hin|].
  destruct Hin as [<-|Hin].
  - destruct ev0; simpl in *; try exact I; discriminate.
  - apply IH; auto; destruct ev0; simpl in *; auto; discriminate.
Qed.

Lemma pollMessages_callShape v e s st w :
  forall ev, In ev (snd (fst (pollMessages (fnOf v) (waitOf v) e s st w))) ->
             callShape v s ev.
Proof.
  assert (Hrecv : forall (sv : Service) r,
            callShape v s (EvReceive sv (waitOf v + 1) (receiveInput s (waitOf v)) r
                           : @Event Session Service))
    by (intros sv r; cbn; auto).
  unfold pollMessages, initSession, initService.
  destruct (cfgSession st) as [sess|].
  - destruct (service st) as [sv|]; simpl;
      destruct (ReceiveMessageWithContext e _ _ _ w) as [r w2]; cbn [fst snd app];
      intros ev Hin; cbn [In] in Hin;
      repeat (destruct Hin as [<-|Hin]; [first [apply Hrecv | exact I]|]);
      destruct Hin.
  - destruct (NewSession e (awsConfig s) w) as [[sess|err0] w1].
    + destruct (service st) as [sv|]; simpl;
        destruct (ReceiveMessageWithContext e _ _ _ w1) as [r w2]; cbn [fst snd app];
        intros ev Hin; cbn [In] in Hin;
        repeat (destruct Hin as [<-|Hin];
                [first [apply awsConfig_shape | apply Hrecv | exact I]|]);
        destruct Hin.
    + cbn [fst snd]. intros ev Hin; cbn [In] in Hin.
      repeat (destruct Hin as [<-|Hin];
              [first [apply awsConfig_shape | exact I]|]); destruct Hin.
Qed.

Lemma deleteMessages_callShape v e s (sv : Service) de w :
  forall ev, In ev (snd (deleteMessages (fnOf v) e s sv de w)) -> callShape v s ev.
Proof.
  unfold deleteMessages. destruct de as [|x de]; [intros ev []|].
  destruct (DeleteMessageBatchWithContext e sv 1 _ w) as [[err0|] w1];
    intros ev Hin; cbn [snd In] in Hin;
    repeat (destruct Hin as [<-|Hin];
            [cbn; repeat split; auto; discriminate|]); destruct Hin.
Qed.

(** X4. Every call a cycle of either loop makes has the arguments of its
    variant: receives ask for at most ten messages of the configured queue
    with a wait of 20 s (wrapped) or 5 s (raw) under a context one second
    longer; deletes name the configured queue, carry at least one entry and
    have a context of one second; [NewSession] gets the configured region,
    with static credentials exactly when both keys are set. *)
Theorem X4_call_arguments v e s st w ev :
  In ev (snd (cycleOf v e s st w)) -> callShape v s ev.
Proof.
  intros Hin.
  pose proof (pollMessages_callShape v e s st w) as H0.
  destruct (pollMessages (fnOf v) (waitOf v) e s st w) as [[[st2 w2] t0] o] eqn:Hp.
  cbn [fst snd] in H0.
  destruct o as [[sv [msgs|err0]]|].
  - rewrite (cycleOf_batch v e s st w st2 w2 t0 sv _ Hp) in Hin; cbn [snd] in Hin.
    apply in_app_or in Hin; destruct Hin as [Hin|Hin]; [now apply H0|].
    apply in_app_or in Hin; destruct Hin as [Hin|Hin].
    { revert Hin. apply quiet_callShape; apply receivedLog_quiet. }
    apply in_app_or in Hin; destruct Hin as [Hin|Hin].
    { revert Hin. apply quiet_callShape; apply rangeOf_quiet. }
    revert Hin. apply deleteMessages_callShape.
  - destruct (cycleOf_err v e s st w st2 w2 t0 sv err0 Hp)
      as (tlog & Hc & Hd & _ & _ & Hr & Hs & _).
    rewrite Hc in Hin; cbn [snd] in Hin.
    apply in_app_or in Hin; destruct Hin as [Hin|Hin]; [now apply H0|].
    revert Hin. now apply quiet_callShape.
  - rewrite (cycleOf_none v e s st w st2 w2 t0 Hp) in Hin. now apply H0.
Qed.

(** ** The clock *)

Lemma handleOf_clock v e s since i msg de w :
  fst (rangeOf v (withClock e since) s i [msg] de w) = fst (rangeOf v e s i [msg] de w)
  /\ callbackCalls (snd (rangeOf v (withClock e since) s i [msg] de w))
     = callbackCalls (snd (rangeOf v e s i [msg] de w)).
Proof.
  destruct v; simpl; unfold handleMessage, handleMessageV1; cbn [withClock Unmarshal SinceMs].
  - destruct (Body msg) as [body|]; [|auto].
    destruct (Unmarshal e body) as [rawMessage|err0]; [|auto].
    destruct (messageCB s) as [cb|]; [|auto].
    destruct (cb (RawMsg rawMessage) w) as [[err0|] w1]; [auto|].
    cbn [fst snd]; rewrite !app_nil_r; obs. unfold slowLog.
    destruct (since w w1 >? HandleTimeoutMS);
      destruct (SinceMs e w w1 >? HandleTimeoutMS); auto.
  - destruct (Body msg) as [body|]; [|auto].
    destruct (messageCB s) as [cb|]; [|auto].
    destruct (cb body w) as [[err0|] w1]; [auto|].
    cbn [fst snd]; rewrite !app_nil_r; obs. unfold slowLog.
    destruct (since w w1 >? HandleTimeoutMS);
      destruct (SinceMs e w w1 >? HandleTimeoutMS); auto.
Qed.

Lemma rangeOf_clock v e s since msgs : forall i de w,
  fst (rangeOf v (withClock e since) s i msgs de w) = fst (rangeOf v e s i msgs de w)
  /\ callbackCalls (snd (rangeOf v (withClock e since) s i msgs de w))
     = callbackCalls (snd (rangeOf v e s i msgs de w)).
Proof.
  induction msgs as [|msg msgs IH]; intros i de w.
  - rewrite !rangeOf_nil; auto.
  - rewrite !(rangeOf_cons v _ s i msg msgs de w); cbn [fst snd].
    destruct (handleOf_clock v e s since i msg de w) as [H1 H2].
    rewrite H1. obs. rewrite H2.
    destruct (IH (i + 1) (fst (fst (rangeOf v e s i [msg] de w)))
                (snd (fst (rangeOf v e s i [msg] de w)))) as [H3 H4].
    rewrite H4. split; [|reflexivity].
    rewrite (surjective_pairing (rangeOf v (withClock e since) s (i + 1) msgs _ _)) in H3.
    rewrite (surjective_pairing (rangeOf v e s (i + 1) msgs _ _)) in H3.
    rewrite (surjective_pairing (fst (rangeOf v (withClock e since) s (i + 1) msgs _ _))) in H3.
    rewrite (surjective_pairing (fst (rangeOf v e s (i + 1) msgs _ _))) in H3.
    cbn [fst snd] in H3. injection H3 as -> ->. reflexivity.
Qed.

(** X5. How long the callbacks take changes nothing but the slow-call log
    lines: under any other clock a cycle of either loop leaves the same
    worker and world, calls the callback with the same arguments, and issues
    the same delete calls. *)
Theorem X5_clock_does_not_affect_acks v e s since st w :
  fst (cycleOf v (withClock e since) s st w) = fst (cycleOf v e s st w)
  /\ deleteCalls (snd (cycleOf v (withClock e since) s st w))
     = deleteCalls (snd (cycleOf v e s st w))
  /\ callbackCalls (snd (cycleOf v (withClock e since) s st w))
     = callbackCalls (snd (cycleOf v e s st w)).
Proof.
  assert (Hpoll : pollMessages (fnOf v) (waitOf v) (withClock e since) s st w
                  = pollMessages (fnOf v) (waitOf v) e s st w) by reflexivity.
  destruct (pollMessages_quiet (fnOf v) (waitOf v) e s st w) as (Hq & Hqc & _).
  destruct (pollMessages (fnOf v) (waitOf v) e s st w) as [[[st2 w2] t0] o] eqn:Hp.
  cbn [fst snd] in Hq, Hqc.
  destruct o as [[sv [msgs|err0]]|].
  - destruct (rangeOf_clock v e s since msgs 0 [] w2) as [Hf _].
    rewrite (cycleOf_batch_deletes v _ s st w st2 w2 t0 sv _ Hpoll).
    rewrite (cycleOf_batch_deletes v e s st w st2 w2 t0 sv _ Hp).
    rewrite (cycleOf_batch_callbacks v _ s st w st2 w2 t0 sv _ Hpoll).
    rewrite (cycleOf_batch_callbacks v e s st w st2 w2 t0 sv _ Hp).
    rewrite (cycleOf_batch v _ s st w st2 w2 t0 sv _ Hpoll).
    rewrite (cycleOf_batch v e s st w st2 w2 t0 sv _ Hp). cbn [fst snd].
    rewrite Hf. repeat split. apply rangeOf_clock.
  - destruct (cycleOf_err v _ s st w st2 w2 t0 sv err0 Hpoll)
      as (tl1 & -> & Hd1 & Hc1 & _).
    destruct (cycleOf_err v e s st w st2 w2 t0 sv err0 Hp)
      as (tl2 & -> & Hd2 & Hc2 & _).
    cbn [fst snd]; obs. now rewrite Hd1, Hd2, Hc1, Hc2.
  - rewrite (cycleOf_none v _ s st w st2 w2 t0 Hpoll).
    now rewrite (cycleOf_none v e s st w st2 w2 t0 Hp).
Qed.

(** ** Messages without a body *)

(** The index of a pass shows in the log only. *)
Lemma handleOf_index v e s i j msg de w :
  fst (rangeOf v e s i [msg] de w) = fst (rangeOf v e s j [msg] de w)
  /\ callbackCalls (snd (rangeOf v e s i [msg] de w))
     = callbackCalls (snd (rangeOf v e s j [msg] de w))
  /\ unmarshalCalls (snd (rangeOf v e s i [msg] de w))
     = unmarshalCalls (snd (rangeOf v e s j [msg] de w)).
Proof.
  destruct v; [auto|]. simpl; unfold handleMessageV1.
  destruct (Body msg) as [body|]; [|auto].
  destruct (messageCB s) as [cb|]; [|auto].
  destruct (cb body w) as [[err0|] w1]; auto.
Qed.

Lemma handleOf_bodyless v e s i msg de w :
  hasBody msg = false -> rangeOf v e s i [msg] de w = (de, w, []).
Proof.
  unfold hasBody. intros Hb.
  destruct v; simpl; unfold handleMessage, handleMessageV1;
    destruct (Body msg); [discriminate|reflexivity|discriminate|reflexivity].
Qed.

Lemma rangeOf_skips_bodyless v e s msgs : forall i j de w,
  fst (rangeOf v e s i msgs de w) = fst (rangeOf v e s j (filter hasBody msgs) de w)
  /\ callbackCalls (snd (rangeOf v e s i msgs de w))
     = callbackCalls (snd (rangeOf v e s j (filter hasBody msgs) de w))
  /\ unmarshalCalls (snd (rangeOf v e s i msgs de w))
     = unmarshalCalls (snd (rangeOf v e s j (filter hasBody msgs) de w)).
Proof.
  induction msgs as [|msg msgs IH]; intros i j de w.
  - cbn [filter]. rewrite !rangeOf_nil. auto.
  - cbn [filter]. rewrite (rangeOf_cons v e s i msg msgs de w).
    destruct (hasBody msg) eqn:Hb.
    + rewrite (rangeOf_cons v e s j msg (filter hasBody msgs) de w).
      destruct (handleOf_index v e s i j msg de w) as (H1 & H2 & H3).
      destruct (rangeOf v e s i [msg] de w) as [[d1 w1] t1].
      destruct (rangeOf v e s j [msg] de w) as [[d2 w2] t2].
      cbn [fst snd] in *. injection H1 as <- <-.
      destruct (IH (i + 1) (j + 1) d1 w1) as (H4 & H5 & H6).
      destruct (rangeOf v e s (i + 1) msgs d1 w1) as [[d3 w3] t3].
      destruct (rangeOf v e s (j + 1) (filter hasBody msgs) d1 w1) as [[d4 w4] t4].
      cbn [fst snd] in *. injection H4 as <- <-.
      obs. rewrite H2, H3, H5, H6. auto.
    + rewrite (handleOf_bodyless v e s i msg de w Hb); cbn [fst snd app].
      destruct (IH (i + 1) j de w) as (H4 & H5 & H6).
      destruct (rangeOf v e s (i + 1) msgs de w) as [[d3 w3] t3].
      destruct (rangeOf v e s j (filter hasBody msgs) de w) as [[d4 w4] t4].
      cbn [fst snd] in *. auto.
Qed.

(** X6. A message without a body is passed over in silence: in either loop
    the [range] over a batch stages the same entries, leaves the same world
    and makes the same decoder and callback calls as the [range] over the
    batch with those messages taken out; and a cycle whose batch holds only
    such messages calls no decoder, no callback and no delete. *)
Theorem X6_bodyless_messages_skipped v e s st w :
  (forall msgs i j de w2,
     fst (rangeOf v e s i msgs de w2)
     = fst (rangeOf v e s j (filter hasBody msgs) de w2)
     /\ callbackCalls (snd (rangeOf v e s i msgs de w2))
        = callbackCalls (snd (rangeOf v e s j (filter hasBody msgs) de w2))
     /\ unmarshalCalls (snd (rangeOf v e s i msgs de w2))
        = unmarshalCalls (snd (rangeOf v e s j (filter hasBody msgs) de w2)))
  /\ (forall msgs,
        In (Ok msgs) (receiveCalls (snd (cycleOf v e s st w))) ->
        filter hasBody msgs = [] ->
        deleteCalls (snd (cycleOf v e s st w)) = []
        /\ callbackCalls (snd (cycleOf v e s st w)) = []
        /\ unmarshalCalls (snd (cycleOf v e s st w)) = []).
Proof.
  split; [intros; apply rangeOf_skips_bodyless|].
  intros msgs Hr Hnone.
  rewrite cycleOf_receives in Hr.
  destruct (pollMessages (fnOf v) (waitOf v) e s st w) as [[[st2 w2] t0] o] eqn:Hp.
  cbn [snd] in Hr. destruct o as [[sv r]|]; [|destruct Hr].
  destruct Hr as [->|[]].
  destruct (rangeOf_skips_bodyless v e s msgs 0 0 [] w2) as (H1 & H2 & H3).
  rewrite Hnone, rangeOf_nil in H1, H2, H3. cbn [fst snd] in H1, H2, H3.
  rewrite (cycleOf_batch_deletes v e s st w st2 w2 t0 sv _ Hp).
  rewrite (cycleOf_batch_callbacks v e s st w st2 w2 t0 sv _ Hp).
  rewrite (cycleOf_batch_decodes v e s st w st2 w2 t0 sv _ Hp).
  rewrite H2, H3, (f_equal fst H1). auto.
Qed.

(** ** One session and one client per worker *)

Lemma sessionsBuilt_app (t1 t2 : @Trace Session Service) :
  sessionsBuilt (t1 ++ t2) = sessionsBuilt t1 ++ sessionsBuilt t2.
Proof. apply flat_map_app. Qed.

Lemma sessionsBuilt_quiet (t : @Trace Session Service) :
  sessionCalls t = [] -> sessionsBuilt t = [].
Proof.
  induction t as [|ev t IH]; [reflexivity|].
  destruct ev; simpl; auto; discriminate.
Qed.

(** What follows the poll in a cycle returns no session. *)
Lemma cycleOf_sessionsBuilt v e s st w :
  sessionsBuilt (snd (cycleOf v e s st w))
  = sessionsBuilt (snd (fst (pollMessages (fnOf v) (waitOf v) e s st w))).
Proof.
  destruct (pollMessages (fnOf v) (waitOf v) e s st w) as [[[st2 w2] t0] o] eqn:Hp.
  cbn [fst snd].
  destruct o as [[sv [msgs|err0]]|].
  - rewrite (cycleOf_batch v e s st w st2 w2 t0 sv _ Hp); cbn [snd].
    rewrite !sessionsBuilt_app.
    rewrite (sessionsBuilt_quiet (receivedLog v msgs)) by apply receivedLog_quiet.
    rewrite (sessionsBuilt_quiet (snd (rangeOf v e s 0 msgs [] w2)))
      by apply rangeOf_quiet.
    rewrite (sessionsBuilt_quiet (snd (deleteMessages _ _ _ _ _ _)))
      by apply deleteMessages_quiet.
    now rewrite !app_nil_r.
  - destruct (cycleOf_err v e s st w st2 w2 t0 sv err0 Hp)
      as (tlog & -> & _ & _ & _ & _ & Hs & _).
    cbn [snd]. rewrite sessionsBuilt_app, (sessionsBuilt_quiet tlog Hs).
    now rewrite app_nil_r.
  - now rewrite (cycleOf_none v e s st w st2 w2 t0 Hp).
Qed.

(** From a fresh worker a cycle either stays fresh and builds nothing, or
    gets ready with one session and the one client made from it. *)
Lemma cycleOf_fresh v e s st w :
  fresh st ->
  (fresh (fst (fst (cycleOf v e s st w)))
   /\ sessionsBuilt (snd (cycleOf v e s st w)) = []
   /\ clientBuilds (snd (cycleOf v e s st w)) = [])
  \/ (ready (fst (fst (cycleOf v e s st w)))
      /\ exists sess, sessionsBuilt (snd (cycleOf v e s st w)) = [sess]
                      /\ clientBuilds (snd (cycleOf v e s st w)) = [sess]).
Proof.
  intros [Hs Hv].
  rewrite cycleOf_state, cycleOf_sessionsBuilt, (proj2 (cycleOf_builds v e s st w)).
  unfold pollMessages, initSession, initService. rewrite Hs.
  destruct (NewSession e (awsConfig s) w) as [[sess|err0] w1].
  - right. cbn [service cfgSession]. rewrite Hv.
    destruct (ReceiveMessageWithContext e _ _ _ w1) as [r w2]. cbn [fst snd].
    split; [split; discriminate|]. exists sess. auto.
  - left. cbn [fst snd service cfgSession]. repeat split; auto.
Qed.

Lemma forLoop_ready_builds v e s n : forall st w,
  ready st ->
  flat_map sessionsBuilt (snd (forLoop (cycleOf v e s) n st w)) = []
  /\ flat_map clientBuilds (snd (forLoop (cycleOf v e s) n st w)) = [].
Proof.
  induction n as [|n IH]; intros st w Hr; [auto|].
  cbn [forLoop].
  destruct (cycleOf_ready v e s st w Hr) as (H1 & H2 & H3 & _).
  pose proof (cycleOf_sessionsBuilt v e s st w) as H4.
  destruct (cycleOf v e s st w) as [[st1 w1] t] eqn:Hc. cbn [fst snd] in *. subst st1.
  destruct (IH st w1 Hr) as [H5 H6].
  destruct (forLoop (cycleOf v e s) n st w1) as [[st2 w2] ts].
  cbn [fst snd flat_map] in *. rewrite H5, H6, H3, (sessionsBuilt_quiet t H2). auto.
Qed.

Lemma forLoop_fresh_builds v e s n : forall st w,
  fresh st ->
  flat_map sessionsBuilt (snd (forLoop (cycleOf v e s) n st w))
  = flat_map clientBuilds (snd (forLoop (cycleOf v e s) n st w))
  /\ (length (flat_map clientBuilds (snd (forLoop (cycleOf v e s) n st w))) <= 1)%nat.
Proof.
  induction n as [|n IH]; intros st w Hf; [simpl; auto|].
  cbn [forLoop].
  destruct (cycleOf_fresh v e s st w Hf) as [(Hf1 & Hs & Hc)|(Hr & sess & Hs & Hc)];
    destruct (cycleOf v e s st w) as [[st1 w1] t]; cbn [fst snd] in *.
  - destruct (IH st1 w1 Hf1) as [H5 H6].
    destruct (forLoop (cycleOf v e s) n st1 w1) as [[st2 w2] ts].
    cbn [fst snd flat_map] in *. rewrite Hs, Hc. auto.
  - destruct (forLoop_ready_builds v e s n st1 w1 Hr) as [H5 H6].
    destruct (forLoop (cycleOf v e s) n st1 w1) as [[st2 w2] ts].
    cbn [fst snd flat_map] in *. rewrite Hs, Hc, H5, H6. simpl. auto.
Qed.

(** X7. However many cycles a worker of either loop runs and however often
    [NewSession] fails, at most one client is ever built by [sqs.New], and
    the clients built are made from exactly the sessions [NewSession]
    returned: one session and one client per worker at most. *)
Theorem X7_one_client_per_worker e s i n w :
  (flat_map sessionsBuilt (snd (processMessages e s i n w))
   = flat_map clientBuilds (snd (processMessages e s i n w))
   /\ (length (flat_map clientBuilds (snd (processMessages e s i n w))) <= 1)%nat)
  /\ (flat_map sessionsBuilt (snd (processMessagesV1 e s i n w))
      = flat_map clientBuilds (snd (processMessagesV1 e s i n w))
      /\ (length (flat_map clientBuilds (snd (processMessagesV1 e s i n w))) <= 1)%nat).
Proof.
  destruct (workers_run_every_cycle e s i n w) as (-> & -> & _).
  cbn [flat_map startLog sessionsBuilt clientBuilds app].
  split; apply forLoop_fresh_builds; split; reflexivity.
Qed.

(** ** The deadline text *)

Lemma prefix_app (p x : string) :
  String.prefix p x = true <-> exists b, x = String.append p b.
Proof.
  revert x. induction p as [|a p IH]; intros x.
  - split; [intros _; now exists x|intros _; now destruct x].
  - destruct x as [|c x]; simpl.
    + split; [discriminate|intros [b Hb]; discriminate].
    + destruct (ascii_dec a c) as [->|Hne].
      * rewrite IH. split; intros [b Hb]; exists b; congruence.
      * split; [discriminate|intros [b Hb]; congruence].
Qed.

(** [Contains] finds the text wherever it stands. *)
Lemma Contains_spec (x sub : string) :
  Contains x sub = true
  <-> exists a b, x = String.append a (String.append sub b).
Proof.
  induction x as [|c x IH].
  - cbn [Contains]. destruct (String.prefix sub EmptyString) eqn:Hp.
    + split; [intros _|reflexivity].
      apply prefix_app in Hp. destruct Hp as [b Hb]. now exists EmptyString, b.
    + split; [discriminate|]. intros (a & b & Hab).
      destruct a; [|discriminate]. simpl in Hab.
      assert (String.prefix sub EmptyString = true)
        by (apply prefix_app; now exists b).
      congruence.
  - cbn [Contains]. destruct (String.prefix sub (String c x)) eqn:Hp.
    + split; [intros _|reflexivity].
      apply prefix_app in Hp. destruct Hp as [b Hb]. now exists EmptyString, b.
    + rewrite IH. split.
      * intros (a & b & ->). now exists (String c a), b.
      * intros (a & b & Hab). destruct a as [|c' a].
        -- simpl in Hab.
           assert (String.prefix sub (String c x) = true)
             by (apply prefix_app; now exists b).
           congruence.
        -- simpl in Hab. injection Hab as _ ->. now exists a, b.
Qed.

(** X8. In the raw loop a receive error is left out of the error log
    exactly when its text holds [context deadline exceeded] somewhere, at the
    start, in the middle or at the end; every other receive error is logged. *)
Theorem X8_deadline_text_anywhere e s st w st2 w2 t0 sv err0 :
  pollMessages "processMessagesV1" 5 e s st w = (st2, w2, t0, Some (sv, Err err0)) ->
  (errorLogs (snd (processMessagesV1Cycle e s st w)) = []
   <-> exists a b,
         err0 = String.append a (String.append "context deadline exceeded" b)).
Proof.
  intros Hp. rewrite <- Contains_spec.
  pose proof (pollMessages_errorLogs "processMessagesV1" 5 e s st w) as Hl.
  rewrite Hp in Hl; cbn [fst snd] in Hl.
  unfold processMessagesV1Cycle. rewrite Hp.
  destruct (Contains err0 "context deadline exceeded"); cbn [negb snd]; obs.
  - rewrite app_nil_r. split; [reflexivity|intros _; apply Hl; discriminate].
  - rewrite Hl by discriminate. split; discriminate.
Qed.

End Properties.

(** * Properties of the dynamo helpers *)

Section DynamoProperties.

Context {Any : Type}.
Context (P : Prefixes).

Local Notation "a +++ b" := (String.append a b) (at level 60, right associativity).

(** ** Strings and placeholders *)

Lemma append_assoc (a b c : string) : (a +++ b) +++ c = a +++ (b +++ c).
Proof. induction a as [|x a IH]; simpl; [reflexivity|now rewrite IH]. Qed.

Lemma append_inj_l (p x y : string) : p +++ x = p +++ y -> x = y.
Proof. induction p as [|c p IH]; simpl; [auto|]. intros [= H]. auto. Qed.

Lemma nonEmpty_append_r (x y : string) :
  nonEmpty y = true -> nonEmpty (x +++ y) = true.
Proof. destruct x; simpl; auto. Qed.

Lemma to_int_nonnil (z : Z) :
  Z.to_int z <> Decimal.Pos Decimal.Nil /\ Z.to_int z <> Decimal.Neg Decimal.Nil.
Proof.
  destruct z as [|p|p]; simpl; split; try discriminate;
    intros [= H]; now apply (Unsigned.to_uint_nonnil p).
Qed.

(** Two integers print alike only if they are equal. *)
Lemma itoa_inj (a b : Z) : itoa a = itoa b -> a = b.
Proof.
  unfold itoa. intros H. apply DecimalZ.to_int_inj.
  destruct (to_int_nonnil a) as [Ha1 Ha2]. destruct (to_int_nonnil b) as [Hb1 Hb2].
  pose proof (NilZero.isi _ Ha1 Ha2) as Ia. pose proof (NilZero.isi _ Hb1 Hb2) as Ib.
  rewrite H in Ia. congruence.
Qed.

Lemma namePlaceholderOf_inj (prefix : string) (i j : Z) :
  namePlaceholderOf prefix i = namePlaceholderOf prefix j -> i = j.
Proof.
  unfold namePlaceholderOf. intros H.
  apply append_inj_l in H. apply append_inj_l in H. now apply itoa_inj.
Qed.

Lemma valuePlaceholderOf_inj (prefix : string) (i j : Z) :
  valuePlaceholderOf prefix i = valuePlaceholderOf prefix j -> i = j.
Proof.
  unfold valuePlaceholderOf. intros H.
  apply append_inj_l in H. apply append_inj_l in H. now apply itoa_inj.
Qed.

(** ** The loops of [getUpdateExpression] *)

Lemma rangeSets_text (sets : list (string * Any)) : forall index acc names values,
  fst (fst (rangeSets P sets index acc names values))
  = match sets with
    | [] => acc
    | _ :: _ => (if nonEmpty acc then acc +++ "," else acc)
                +++ Join (setClauses P sets index) ","
    end.
Proof.
  induction sets as [|[k v] sets IH]; intros index acc names values; [reflexivity|].
  cbn [rangeSets setClauses]. rewrite IH.
  destruct sets as [|[k' v'] rest]; [reflexivity|].
  rewrite nonEmpty_append_r by (apply nonEmpty_append_r; reflexivity).
  cbn [setClauses Join]. now rewrite !append_assoc.
Qed.

Lemma rangeRemoves_text (removes : list (string * Any)) : forall index acc names,
  fst (rangeRemoves P removes index acc names)
  = match removes with
    | [] => acc
    | _ :: _ => (if nonEmpty acc then acc +++ "," else acc)
                +++ Join (placeholders (namePlaceholderOf (NamePlaceholderRemovePrefix P))
                            (length removes) index) ","
    end.
Proof.
  induction removes as [|[k v] removes IH]; intros index acc names; [reflexivity|].
  cbn [rangeRemoves length placeholders]. rewrite IH.
  destruct removes as [|[k' v'] rest]; [reflexivity|].
  rewrite nonEmpty_append_r by reflexivity.
  cbn [length placeholders Join]. now rewrite !append_assoc.
Qed.

Lemma rangeSets_names_miss (sets : list (string * Any)) : forall index acc names values x,
  (forall p, (p < length sets)%nat ->
             x <> namePlaceholderOf (NamePlaceholderUpdatePrefix P) (index + Z.of_nat p)) ->
  StringMap.find x (snd (fst (rangeSets P sets index acc names values)))
  = StringMap.find x names.
Proof.
  induction sets as [|[k v] sets IH]; intros index acc names values x Hx; [reflexivity|].
  cbn [rangeSets]. rewrite IH.
  - apply StringMapFacts.F.add_neq_o. intros Heq.
    apply (Hx 0%nat); [simpl; lia|]. now rewrite Z.add_0_r.
  - intros p Hp. replace (index + 1 + Z.of_nat p) with (index + Z.of_nat (S p)) by lia.
    apply Hx. simpl; lia.
Qed.

Lemma rangeSets_values_miss (sets : list (string * Any)) : forall index acc names values x,
  (forall p, (p < length sets)%nat ->
             x <> valuePlaceholderOf (ValuePlaceholderUpdatePrefix P) (index + Z.of_nat p)) ->
  StringMap.find x (snd (rangeSets P sets index acc names values))
  = StringMap.find x values.
Proof.
  induction sets as [|[k v] sets IH]; intros index acc names values x Hx; [reflexivity|].
  cbn [rangeSets]. rewrite IH.
  - apply StringMapFacts.F.add_neq_o. intros Heq.
    apply (Hx 0%nat); [simpl; lia|]. now rewrite Z.add_0_r.
  - intros p Hp. replace (index + 1 + Z.of_nat p) with (index + Z.of_nat (S p)) by lia.
    apply Hx. simpl; lia.
Qed.

Lemma rangeSets_names_hit (sets : list (string * Any)) :
  forall index acc names values p k v,
  nth_error sets p = Some (k, v) ->
  StringMap.find (namePlaceholderOf (NamePlaceholderUpdatePrefix P) (index + Z.of_nat p))
    (snd (fst (rangeSets P sets index acc names values)))
  = Some k.
Proof.
  induction sets as [|[k0 v0] sets IH]; intros index acc names values p k v Hp;
    [destruct p; discriminate|].
  cbn [rangeSets]. destruct p as [|p].
  - injection Hp as <- <-. rewrite rangeSets_names_miss.
    + rewrite Z.add_0_r. now apply StringMapFacts.F.add_eq_o.
    + intros q _ Heq. apply namePlaceholderOf_inj in Heq. lia.
  - replace (index + Z.of_nat (S p)) with (index + 1 + Z.of_nat p) by lia.
    now apply IH with (v := v).
Qed.

Lemma rangeSets_values_hit (sets : list (string * Any)) :
  forall index acc names values p k v,
  nth_error sets p = Some (k, v) ->
  StringMap.find (valuePlaceholderOf (ValuePlaceholderUpdatePrefix P) (index + Z.of_nat p))
    (snd (rangeSets P sets index acc names values))
  = Some v.
Proof.
  induction sets as [|[k0 v0] sets IH]; intros index acc names values p k v Hp;
    [destruct p; discriminate|].
  cbn [rangeSets]. destruct p as [|p].
  - injection Hp as <- <-. rewrite rangeSets_values_miss.
    + rewrite Z.add_0_r. now apply StringMapFacts.F.add_eq_o.
    + intros q _ Heq. apply valuePlaceholderOf_inj in Heq. lia.
  - replace (index + Z.of_nat (S p)) with (index + 1 + Z.of_nat p) by lia.
    now apply IH with (k := k).
Qed.

Lemma rangeRemoves_names_miss (removes : list (string * Any)) : forall index acc names x,
  (forall p, (p < length removes)%nat ->
             x <> namePlaceholderOf (NamePlaceholderRemovePrefix P) (index + Z.of_nat p)) ->
  StringMap.find x (snd (rangeRemoves P removes index acc names))
  = StringMap.find x names.
Proof.
  induction removes as [|[k v] removes IH]; intros index acc names x Hx; [reflexivity|].
  cbn [rangeRemoves]. rewrite IH.
  - apply StringMapFacts.F.add_neq_o. intros Heq.
    apply (Hx 0%nat); [simpl; lia|]. now rewrite Z.add_0_r.
  - intros p Hp. replace (index + 1 + Z.of_nat p) with (index + Z.of_nat (S p)) by lia.
    apply Hx. simpl; lia.
Qed.

Lemma rangeRemoves_names_hit (removes : list (string * Any)) :
  forall index acc names p k v,
  nth_error removes p = Some (k, v) ->
  StringMap.find (namePlaceholderOf (NamePlaceholderRemovePrefix P) (index + Z.of_nat p))
    (snd (rangeRemoves P removes index acc names))
  = Some k.
Proof.
  induction removes as [|[k0 v0] removes IH]; intros index acc names p k v Hp;
    [destruct p; discriminate|].
  cbn [rangeRemoves]. destruct p as [|p].
  - injection Hp as <- <-. rewrite rangeRemoves_names_miss.
    + rewrite Z.add_0_r. now apply StringMapFacts.F.add_eq_o.
    + intros q _ Heq. apply namePlaceholderOf_inj in Heq. lia.
  - replace (index + Z.of_nat (S p)) with (index + 1 + Z.of_nat p) by lia.
    now apply IH with (v := v).
Qed.

(** What [getUpdateExpression] returns, by its two loops. *)
Lemma getUpdateExpression_unfold (sets removes : list (string * Any)) names values :
  getUpdateExpression P sets removes names values
  = ((if nonEmpty (fst (fst (rangeSets P sets 1 EmptyString names values)))
      then " SET " +++ fst (fst (rangeSets P sets 1 EmptyString names values))
      else EmptyString)
     +++ (if nonEmpty (fst (rangeRemoves P removes 1 EmptyString
                              (snd (fst (rangeSets P sets 1 EmptyString names values)))))
          then " REMOVE "
               +++ fst (rangeRemoves P removes 1 EmptyString
                          (snd (fst (rangeSets P sets 1 EmptyString names values))))
          else EmptyString),
     snd (rangeRemoves P removes 1 EmptyString
            (snd (fst (rangeSets P sets 1 EmptyString names values)))),
     snd (rangeSets P sets 1 EmptyString names values)).
Proof.
  unfold getUpdateExpression.
  destruct (rangeSets P sets 1 EmptyString names values) as [[se n1] v1]. cbn [fst snd].
  destruct (rangeRemoves P removes 1 EmptyString n1) as [re n2]. cbn [fst snd].
  destruct (nonEmpty se), (nonEmpty re); cbn [String.append];
    rewrite ?append_assoc; try reflexivity.
  all: f_equal; f_equal; clear; induction se as [|c se IH]; simpl; congruence.
Qed.

(** X9. For every order in which the two maps are ranged over,
    [getUpdateExpression] returns the text [ SET n1=v1,n2=v2,...] for the
    entries of [sets], followed by [ REMOVE m1,m2,...] for those of
    [removes], each part left out when its map is empty, with no leading or
    trailing comma; the placeholders are numbered from 1 in visiting order. *)
Theorem X9_update_expression_text (sets removes : list (string * Any)) names values :
  fst (fst (getUpdateExpression P sets removes names values))
  = (match sets with
     | [] => EmptyString
     | _ :: _ => " SET " +++ Join (setClauses P sets 1) ","
     end)
    +++ (match removes with
         | [] => EmptyString
         | _ :: _ =>
             " REMOVE "
             +++ Join (placeholders (namePlaceholderOf (NamePlaceholderRemovePrefix P))
                         (length removes) 1) ","
         end).
Proof.
  rewrite getUpdateExpression_unfold; cbn [fst snd].
  rewrite rangeSets_text, rangeRemoves_text.
  assert (Hs : forall (l : list (string * Any)) i,
             l <> [] -> nonEmpty (Join (setClauses P l i) ",") = true).
  { intros [|[k v] l] i Hl; [congruence|]. cbn [setClauses Join].
    destruct (setClauses P l (i + 1)); reflexivity. }
  assert (Hr : forall n i, n <> 0%nat ->
             nonEmpty (Join (placeholders
                               (namePlaceholderOf (NamePlaceholderRemovePrefix P)) n i) ",")
             = true).
  { intros [|n] i Hn; [congruence|]. cbn [placeholders Join].
    destruct (placeholders _ n (i + 1)); reflexivity. }
  destruct sets as [|x sets]; destruct removes as [|y removes];
    cbn [nonEmpty length String.append];
    rewrite ?Hs, ?Hr by discriminate; reflexivity.
Qed.

Lemma apart_names (a b : string) (i j : Z) :
  apart a b -> namePlaceholderOf a i <> namePlaceholderOf b j.
Proof. unfold namePlaceholderOf. intros Hab [= H]. exact (Hab i j H). Qed.

Lemma apart_values (a b : string) (i j : Z) :
  apart a b -> valuePlaceholderOf a i <> valuePlaceholderOf b j.
Proof. unfold valuePlaceholderOf. intros Hab [= H]. exact (Hab i j H). Qed.

(** Prefixes that start with different characters are apart. *)
Lemma apart_first_char (c1 c2 : ascii) (r1 r2 : string) :
  c1 <> c2 -> apart (String c1 r1) (String c2 r2).
Proof. intros Hc i j [= H _]. contradiction. Qed.

(** X10. After [getUpdateExpression], whatever [names] and [values] held
    before: the value placeholder numbered [p + 1] is bound to the value of
    the entry of [sets] visited at position [p]; the REMOVE name placeholder
    numbered [q + 1] is bound to the key visited at position [q] of
    [removes]; and, when no SET name placeholder is also a REMOVE name
    placeholder, the SET name placeholder numbered [p + 1] is bound to the
    key visited at position [p] of [sets]. *)
Theorem X10_update_placeholders_resolve (sets removes : list (string * Any)) names values :
  (forall p k v,
     nth_error sets p = Some (k, v) ->
     StringMap.find
       (valuePlaceholderOf (ValuePlaceholderUpdatePrefix P) (1 + Z.of_nat p))
       (snd (getUpdateExpression P sets removes names values))
     = Some v)
  /\ (forall q k v,
        nth_error removes q = Some (k, v) ->
        StringMap.find
          (namePlaceholderOf (NamePlaceholderRemovePrefix P) (1 + Z.of_nat q))
          (snd (fst (getUpdateExpression P sets removes names values)))
        = Some k)
  /\ (apart (NamePlaceholderUpdatePrefix P) (NamePlaceholderRemovePrefix P) ->
      forall p k v,
        nth_error sets p = Some (k, v) ->
        StringMap.find
          (namePlaceholderOf (NamePlaceholderUpdatePrefix P) (1 + Z.of_nat p))
          (snd (fst (getUpdateExpression P sets removes names values)))
        = Some k).
Proof.
  rewrite getUpdateExpression_unfold; cbn [fst snd]. split; [|split].
  - intros p k v Hp. now apply rangeSets_values_hit with (k := k).
  - intros q k v Hq. now apply rangeRemoves_names_hit with (v := v).
  - intros Hap p k v Hp. rewrite rangeRemoves_names_miss.
    + now apply rangeSets_names_hit with (v := v).
    + intros q _. now apply apart_names.
Qed.

(** X11. [getUpdateExpression] writes placeholders only: an entry of
    [names] or [values] under any other key is left as it was; and with both
    maps empty it returns the empty text and leaves [names] and [values]
    untouched. *)
Theorem X11_update_writes_placeholders_only (sets removes : list (string * Any)) names values :
  (forall x,
     (forall i, x <> namePlaceholderOf (NamePlaceholderUpdatePrefix P) i) ->
     (forall j, x <> namePlaceholderOf (NamePlaceholderRemovePrefix P) j) ->
     StringMap.find x (snd (fst (getUpdateExpression P sets removes names values)))
     = StringMap.find x names)
  /\ (forall y,
        (forall i, y <> valuePlaceholderOf (ValuePlaceholderUpdatePrefix P) i) ->
        StringMap.find y (snd (getUpdateExpression P sets removes names values))
        = StringMap.find y values)
  /\ getUpdateExpression P [] [] names values = (EmptyString, names, values).
Proof.
  rewrite getUpdateExpression_unfold; cbn [fst snd]. split; [|split].
  - intros x Hu Hr. rewrite rangeRemoves_names_miss by (intros; apply Hr).
    apply rangeSets_names_miss. intros; apply Hu.
  - intros y Hy. apply rangeSets_values_miss. intros; apply Hy.
  - reflexivity.
Qed.

(** ** The loops of [getConditionExpression] *)

Lemma rangeAttrNames_conds prefix clause (attrs : list string) : forall index conds names,
  fst (rangeAttrNames prefix clause attrs index conds names)
  = conds ++ placeholders (fun i => clause (namePlaceholderOf prefix i))
               (length attrs) index.
Proof.
  induction attrs as [|a attrs IH]; intros index conds names.
  - simpl. now rewrite app_nil_r.
  - cbn [rangeAttrNames length placeholders]. rewrite IH. now rewrite <- app_assoc.
Qed.

Lemma rangeAttrNames_miss prefix clause (attrs : list string) : forall index conds names x,
  (forall p, (p < length attrs)%nat ->
             x <> namePlaceholderOf prefix (index + Z.of_nat p)) ->
  StringMap.find x (snd (rangeAttrNames prefix clause attrs index conds names))
  = StringMap.find x names.
Proof.
  induction attrs as [|a attrs IH]; intros index conds names x Hx; [reflexivity|].
  cbn [rangeAttrNames]. rewrite IH.
  - apply StringMapFacts.F.add_neq_o. intros Heq.
    apply (Hx 0%nat); [simpl; lia|]. now rewrite Z.add_0_r.
  - intros p Hp. replace (index + 1 + Z.of_nat p) with (index + Z.of_nat (S p)) by lia.
    apply Hx. simpl; lia.
Qed.

Lemma rangeAttrNames_hit prefix clause (attrs : list string) : forall index conds names p a,
  nth_error attrs p = Some a ->
  StringMap.find (namePlaceholderOf prefix (index + Z.of_nat p))
    (snd (rangeAttrNames prefix clause attrs index conds names))
  = Some a.
Proof.
  induction attrs as [|a0 attrs IH]; intros index conds names p a Hp;
    [destruct p; discriminate|].
  cbn [rangeAttrNames]. destruct p as [|p].
  - injection Hp as <-. rewrite rangeAttrNames_miss.
    + rewrite Z.add_0_r. now apply StringMapFacts.F.add_eq_o.
    + intros q _ Heq. apply namePlaceholderOf_inj in Heq. lia.
  - replace (index + Z.of_nat (S p)) with (index + 1 + Z.of_nat p) by lia.
    now apply IH.
Qed.

Lemma rangeAttrValues_conds np vp clause (attrs : list (string * Any)) :
  forall index conds names values,
  fst (fst (rangeAttrValues np vp clause attrs index conds names values))
  = conds ++ placeholders
               (fun i => clause (namePlaceholderOf np i) (valuePlaceholderOf vp i))
               (length attrs) index.
Proof.
  induction attrs as [|[a v] attrs IH]; intros index conds names values.
  - simpl. now rewrite app_nil_r.
  - cbn [rangeAttrValues length placeholders]. rewrite IH. now rewrite <- app_assoc.
Qed.

Lemma rangeAttrValues_names_miss np vp clause (attrs : list (string * Any)) :
  forall index conds names values x,
  (forall p, (p < length attrs)%nat -> x <> namePlaceholderOf np (index + Z.of_nat p)) ->
  StringMap.find x (snd (fst (rangeAttrValues np vp clause attrs index conds names values)))
  = StringMap.find x names.
Proof.
  induction attrs as [|[a v] attrs IH]; intros index conds names values x Hx;
    [reflexivity|].
  cbn [rangeAttrValues]. rewrite IH.
  - apply StringMapFacts.F.add_neq_o. intros Heq.
    apply (Hx 0%nat); [simpl; lia|]. now rewrite Z.add_0_r.
  - intros p Hp. replace (index + 1 + Z.of_nat p) with (index + Z.of_nat (S p)) by lia.
    apply Hx. simpl; lia.
Qed.

Lemma rangeAttrValues_values_miss np vp clause (attrs : list (string * Any)) :
  forall index conds names values x,
  (forall p, (p < length attrs)%nat -> x <> valuePlaceholderOf vp (index + Z.of_nat p)) ->
  StringMap.find x (snd (rangeAttrValues np vp clause attrs index conds names values))
  = StringMap.find x values.
Proof.
  induction attrs as [|[a v] attrs IH]; intros index conds names values x Hx;
    [reflexivity|].
  cbn [rangeAttrValues]. rewrite IH.
  - apply StringMapFacts.F.add_neq_o. intros Heq.
    apply (Hx 0%nat); [simpl; lia|]. now rewrite Z.add_0_r.
  - intros p Hp. replace (index + 1 + Z.of_nat p) with (index + Z.of_nat (S p)) by lia.
    apply Hx. simpl; lia.
Qed.

Lemma rangeAttrValues_names_hit np vp clause (attrs : list (string * Any)) :
  forall index conds names values p a v,
  nth_error attrs p = Some (a, v) ->
  StringMap.find (namePlaceholderOf np (index + Z.of_nat p))
    (snd (fst (rangeAttrValues np vp clause attrs index conds names values)))
  = Some a.
Proof.
  induction attrs as [|[a0 v0] attrs IH]; intros index conds names values p a v Hp;
    [destruct p; discriminate|].
  cbn [rangeAttrValues]. destruct p as [|p].
  - injection Hp as <- <-. rewrite rangeAttrValues_names_miss.
    + rewrite Z.add_0_r. now apply StringMapFacts.F.add_eq_o.
    + intros q _ Heq. apply namePlaceholderOf_inj in Heq. lia.
  - replace (index + Z.of_nat (S p)) with (index + 1 + Z.of_nat p) by lia.
    now apply IH with (v := v).
Qed.

Lemma rangeAttrValues_values_hit np vp clause (attrs : list (string * Any)) :
  forall index conds names values p a v,
  nth_error attrs p = Some (a, v) ->
  StringMap.find (valuePlaceholderOf vp (index + Z.of_nat p))
    (snd (rangeAttrValues np vp clause attrs index conds names values))
  = Some v.
Proof.
  induction attrs as [|[a0 v0] attrs IH]; intros index conds names values p a v Hp;
    [destruct p; discriminate|].
  cbn [rangeAttrValues]. destruct p as [|p].
  - injection Hp as <- <-. rewrite rangeAttrValues_values_miss.
    + rewrite Z.add_0_r. now apply StringMapFacts.F.add_eq_o.
    + intros q _ Heq. apply valuePlaceholderOf_inj in Heq. lia.
  - replace (index + Z.of_nat (S p)) with (index + 1 + Z.of_nat p) by lia.
    now apply IH with (a := a).
Qed.

(** The guards [if len(...) > 0] change nothing: a loop over an empty map
    is already a no-op. *)
Lemma guard_names prefix clause (attrs : list string) conds names :
  match attrs with
  | [] => (conds, names)
  | _ :: _ => rangeAttrNames prefix clause attrs 1 conds names
  end = rangeAttrNames prefix clause attrs 1 conds names.
Proof. now destruct attrs. Qed.

Lemma guard_values np vp clause (attrs : list (string * Any)) conds names values :
  match attrs with
  | [] => (conds, names, values)
  | _ :: _ => rangeAttrValues np vp clause attrs 1 conds names values
  end = rangeAttrValues np vp clause attrs 1 conds names values.
Proof. now destruct attrs. Qed.

(** X12. For every order in which the four maps are ranged over,
    [getConditionExpression] returns the clauses joined by [ and ], with no
    leading or trailing [ and ]: first one [attribute_exists] clause for each
    entry of [AttributeExists], then the [attribute_not_exists] clauses, then
    the equalities, then the not-exists-or-equal clauses, each group with its
    own placeholders numbered from 1; with all four maps empty the text is
    empty. *)
Theorem X12_condition_expression_text (c : @Conditions Any) names values :
  fst (fst (getConditionExpression P c names values))
  = Join
      (placeholders
         (fun i => existsClause (namePlaceholderOf (NamePlaceholderAttrExistsPrefix P) i))
         (length (AttributeExists c)) 1
       ++ placeholders
            (fun i => notExistsClause
                        (namePlaceholderOf (NamePlaceholderAttrNotExistsPrefix P) i))
            (length (AttributeNotExists c)) 1
       ++ placeholders
            (fun i => equalClause
                        (namePlaceholderOf (NamePlaceholderAttrEqualPrefix P) i)
                        (valuePlaceholderOf (ValuePlaceholderAttrEqualPrefix P) i))
            (length (AttributeEqual c)) 1
       ++ placeholders
            (fun i => notExistsOrEqualClause
                        (namePlaceholderOf (NamePlaceholderAttrNotExistsOrEqual P) i)
                        (valuePlaceholderOf (ValuePlaceholderAttrNotExistsOrEqual P) i))
            (length (AttributeNotExistsOrEqual c)) 1)
      " and ".
Proof.
  unfold getConditionExpression.
  rewrite guard_names.
  destruct (rangeAttrNames (NamePlaceholderAttrExistsPrefix P) existsClause
              (AttributeExists c) 1 [] names) as [conds1 names1] eqn:E1.
  rewrite guard_names.
  destruct (rangeAttrNames (NamePlaceholderAttrNotExistsPrefix P) notExistsClause
              (AttributeNotExists c) 1 conds1 names1) as [conds2 names2] eqn:E2.
  rewrite guard_values.
  destruct (rangeAttrValues (NamePlaceholderAttrEqualPrefix P)
              (ValuePlaceholderAttrEqualPrefix P) equalClause
              (AttributeEqual c) 1 conds2 names2 values)
    as [[conds3 names3] values3] eqn:E3.
  rewrite guard_values.
  destruct (rangeAttrValues (NamePlaceholderAttrNotExistsOrEqual P)
              (ValuePlaceholderAttrNotExistsOrEqual P) notExistsOrEqualClause
              (AttributeNotExistsOrEqual c) 1 conds3 names3 values3)
    as [[conds4 names4] values4] eqn:E4.
  cbn [fst snd].
  apply (f_equal fst) in E1. rewrite rangeAttrNames_conds in E1. cbn [fst app] in E1.
  apply (f_equal fst) in E2. rewrite rangeAttrNames_conds in E2. cbn [fst] in E2.
  apply (f_equal (fun r => fst (fst r))) in E3. rewrite rangeAttrValues_conds in E3.
  cbn [fst] in E3.
  apply (f_equal (fun r => fst (fst r))) in E4. rewrite rangeAttrValues_conds in E4.
  cbn [fst] in E4.
  subst conds4 conds3 conds2 conds1. now rewrite <- !app_assoc.
Qed.

(** X13. When the placeholders of the four groups cannot coincide, every
    placeholder [getConditionExpression] put in the text resolves to the
    attribute it stands for: the name placeholder numbered [p + 1] of a group
    is bound in [names] to the attribute visited at position [p] of that
    group's map, and the value placeholder numbered [p + 1] of the two groups
    with values is bound in [values] to that attribute's value. *)
Theorem X13_condition_placeholders_resolve (c : @Conditions Any) names values :
  apart (NamePlaceholderAttrExistsPrefix P) (NamePlaceholderAttrNotExistsPrefix P) ->
  apart (NamePlaceholderAttrExistsPrefix P) (NamePlaceholderAttrEqualPrefix P) ->
  apart (NamePlaceholderAttrExistsPrefix P) (NamePlaceholderAttrNotExistsOrEqual P) ->
  apart (NamePlaceholderAttrNotExistsPrefix P) (NamePlaceholderAttrEqualPrefix P) ->
  apart (NamePlaceholderAttrNotExistsPrefix P) (NamePlaceholderAttrNotExistsOrEqual P) ->
  apart (NamePlaceholderAttrEqualPrefix P) (NamePlaceholderAttrNotExistsOrEqual P) ->
  apart (ValuePlaceholderAttrEqualPrefix P) (ValuePlaceholderAttrNotExistsOrEqual P) ->
  (forall p a,
     nth_error (AttributeExists c) p = Some a ->
     StringMap.find
       (namePlaceholderOf (NamePlaceholderAttrExistsPrefix P) (1 + Z.of_nat p))
       (snd (fst (getConditionExpression P c names values)))
     = Some a)
  /\ (forall p a,
        nth_error (AttributeNotExists c) p = Some a ->
        StringMap.find
          (namePlaceholderOf (NamePlaceholderAttrNotExistsPrefix P) (1 + Z.of_nat p))
          (snd (fst (getConditionExpression P c names values)))
        = Some a)
  /\ (forall p a v,
        nth_error (AttributeEqual c) p = Some (a, v) ->
        StringMap.find
          (namePlaceholderOf (NamePlaceholderAttrEqualPrefix P) (1 + Z.of_nat p))
          (snd (fst (getConditionExpression P c names values)))
        = Some a
        /\ StringMap.find
             (valuePlaceholderOf (ValuePlaceholderAttrEqualPrefix P) (1 + Z.of_nat p))
             (snd (getConditionExpression P c names values))
           = Some v)
  /\ (forall p a v,
        nth_error (AttributeNotExistsOrEqual c) p = Some (a, v) ->
        StringMap.find
          (namePlaceholderOf (NamePlaceholderAttrNotExistsOrEqual P) (1 + Z.of_nat p))
          (snd (fst (getConditionExpression P c names values)))
        = Some a
        /\ StringMap.find
             (valuePlaceholderOf (ValuePlaceholderAttrNotExistsOrEqual P)
                (1 + Z.of_nat p))
             (snd (getConditionExpression P c names values))
           = Some v).
Proof.
  intros Hen Hee Heo Hne Hno Heqo Hv.
  unfold getConditionExpression.
  rewrite guard_names.
  destruct (rangeAttrNames (NamePlaceholderAttrExistsPrefix P) existsClause
              (AttributeExists c) 1 [] names) as [conds1 names1] eqn:E1.
  rewrite guard_names.
  destruct (rangeAttrNames (NamePlaceholderAttrNotExistsPrefix P) notExistsClause
              (AttributeNotExists c) 1 conds1 names1) as [conds2 names2] eqn:E2.
  rewrite guard_values.
  destruct (rangeAttrValues (NamePlaceholderAttrEqualPrefix P)
              (ValuePlaceholderAttrEqualPrefix P) equalClause
              (AttributeEqual c) 1 conds2 names2 values)
    as [[conds3 names3] values3] eqn:E3.
  rewrite guard_values.
  destruct (rangeAttrValues (NamePlaceholderAttrNotExistsOrEqual P)
              (ValuePlaceholderAttrNotExistsOrEqual P) notExistsOrEqualClause
              (AttributeNotExistsOrEqual c) 1 conds3 names3 values3)
    as [[conds4 names4] values4] eqn:E4.
  cbn [fst snd].
  assert (N1 : names1 = snd (rangeAttrNames (NamePlaceholderAttrExistsPrefix P)
                 existsClause (AttributeExists c) 1 [] names)) by now rewrite E1.
  assert (N2 : names2 = snd (rangeAttrNames (NamePlaceholderAttrNotExistsPrefix P)
                 notExistsClause (AttributeNotExists c) 1 conds1 names1))
    by now rewrite E2.
  assert (N3 : names3 = snd (fst (rangeAttrValues (NamePlaceholderAttrEqualPrefix P)
                 (ValuePlaceholderAttrEqualPrefix P) equalClause
                 (AttributeEqual c) 1 conds2 names2 values))) by now rewrite E3.
  assert (V3 : values3 = snd (rangeAttrValues (NamePlaceholderAttrEqualPrefix P)
                 (ValuePlaceholderAttrEqualPrefix P) equalClause
                 (AttributeEqual c) 1 conds2 names2 values)) by now rewrite E3.
  assert (N4 : names4 = snd (fst (rangeAttrValues (NamePlaceholderAttrNotExistsOrEqual P)
                 (ValuePlaceholderAttrNotExistsOrEqual P) notExistsOrEqualClause
                 (AttributeNotExistsOrEqual c) 1 conds3 names3 values3)))
    by now rewrite E4.
  assert (V4 : values4 = snd (rangeAttrValues (NamePlaceholderAttrNotExistsOrEqual P)
                 (ValuePlaceholderAttrNotExistsOrEqual P) notExistsOrEqualClause
                 (AttributeNotExistsOrEqual c) 1 conds3 names3 values3))
    by now rewrite E4.
  clear E1 E2 E3 E4.
  split; [|split; [|split]].
  - intros p a Hp.
    rewrite N4, rangeAttrValues_names_miss by (intros; now apply apart_names).
    rewrite N3, rangeAttrValues_names_miss by (intros; now apply apart_names).
    rewrite N2, rangeAttrNames_miss by (intros; now apply apart_names).
    rewrite N1. now apply rangeAttrNames_hit.
  - intros p a Hp.
    rewrite N4, rangeAttrValues_names_miss by (intros; now apply apart_names).
    rewrite N3, rangeAttrValues_names_miss by (intros; now apply apart_names).
    rewrite N2. now apply rangeAttrNames_hit.
  - intros p a v Hp. split.
    + rewrite N4, rangeAttrValues_names_miss by (intros; now apply apart_names).
      rewrite N3. now apply rangeAttrValues_names_hit with (v := v).
    + rewrite V4, rangeAttrValues_values_miss by (intros; now apply apart_values).
      rewrite V3. now apply rangeAttrValues_values_hit with (a := a).
  - intros p a v Hp. split.
    + rewrite N4. now apply rangeAttrValues_names_hit with (v := v).
    + rewrite V4. now apply rangeAttrValues_values_hit with (a := a).
Qed.

(** ** [Float64] *)

Lemma Float64_zero (IsEqual : float -> float -> bool) :
  Float64 IsEqual 0%float = 0%float.
Proof.
  unfold Float64. change (PrimFloat.is_nan 0%float) with false.
  change (PrimFloat.is_infinity 0%float) with false. cbv iota.
  now destruct (IsEqual 0%float 0%float).
Qed.

Lemma Float64_finite (IsEqual : float -> float -> bool) (f : float) :
  PrimFloat.is_nan (Float64 IsEqual f) = false
  /\ PrimFloat.is_infinity (Float64 IsEqual f) = false.
Proof.
  unfold Float64.
  destruct (PrimFloat.is_nan f) eqn:Hn; [split; reflexivity|].
  destruct (PrimFloat.is_infinity f) eqn:Hi; [split; reflexivity|].
  destruct (IsEqual f 0%float); [split; reflexivity|auto].
Qed.

(** X14. Whatever [xutils.IsEqual] answers, [Float64] never returns a NaN or
    an infinity, applying it twice is applying it once, and it returns its
    argument unchanged when that is a number, finite, and not taken for zero
    by [IsEqual]. *)
Theorem X14_Float64_finite (IsEqual : float -> float -> bool) (f : float) :
  PrimFloat.is_nan (Float64 IsEqual f) = false
  /\ PrimFloat.is_infinity (Float64 IsEqual f) = false
  /\ Float64 IsEqual (Float64 IsEqual f) = Float64 IsEqual f
  /\ (PrimFloat.is_nan f = false -> PrimFloat.is_infinity f = false ->
      IsEqual f 0%float = false -> Float64 IsEqual f = f).
Proof.
  destruct (Float64_finite IsEqual f) as [Hn Hi].
  split; [exact Hn|split; [exact Hi|split]].
  - pose proof (Float64_zero IsEqual) as Hz. unfold Float64 in *.
    destruct (PrimFloat.is_nan f) eqn:Hn'; [exact Hz|].
    destruct (PrimFloat.is_infinity f) eqn:Hi'; [exact Hz|].
    destruct (IsEqual f 0%float) eqn:He; [exact Hz|].
    now rewrite Hn', Hi', He.
  - intros Hn' Hi' He. unfold Float64. now rewrite Hn', Hi', He.
Qed.

(** ** [KvSetsFromItem] *)

Context (IsEqual : float -> float -> bool).
Context (showItem : @Item Any -> string).

Lemma cardinal_add_new {elt : Type} (m : StringMap.t elt) k v :
  ~ StringMap.In k m ->
  StringMap.cardinal (StringMap.add k v m) = S (StringMap.cardinal m).
Proof.
  intros Hk. apply StringMapFacts.cardinal_2 with (x := k) (e := v); [exact Hk|].
  intros y. reflexivity.
Qed.

Lemma cardinal_add_in {elt : Type} (m : StringMap.t elt) k v :
  StringMap.In k m ->
  StringMap.cardinal (StringMap.add k v m) = StringMap.cardinal m.
Proof.
  intros Hk.
  assert (Hr : ~ StringMap.In k (StringMap.remove k m)).
  { rewrite StringMapFacts.F.remove_in_iff. intros [Hne _]. now apply Hne. }
  apply StringMapFacts.F.in_find_iff in Hk.
  destruct (StringMap.find k m) as [e|] eqn:He; [|congruence].
  rewrite (StringMapFacts.cardinal_2 (m := StringMap.remove k m)
             (m' := StringMap.add k v m) (x := k) (e := v) Hr).
  - symmetry. apply (StringMapFacts.cardinal_2 (x := k) (e := e) Hr).
    intros y. destruct (string_dec k y) as [<-|Hne].
    + now rewrite He, StringMapFacts.F.add_eq_o.
    + now rewrite StringMapFacts.F.add_neq_o, StringMapFacts.F.remove_neq_o.
  - intros y. destruct (string_dec k y) as [<-|Hne].
    + now rewrite !StringMapFacts.F.add_eq_o.
    + now rewrite !StringMapFacts.F.add_neq_o, StringMapFacts.F.remove_neq_o.
Qed.

(** One write of the loop keeps the keys, and adds one or none. *)
Lemma add_grows {elt : Type} (m : StringMap.t elt) k v :
  (forall x, StringMap.In x m -> StringMap.In x (StringMap.add k v m))
  /\ ((StringMap.cardinal (StringMap.add k v m) = StringMap.cardinal m
       /\ forall x, StringMap.In x (StringMap.add k v m) -> StringMap.In x m)
      \/ (StringMap.cardinal (StringMap.add k v m) = S (StringMap.cardinal m)
          /\ StringMap.In k (StringMap.add k v m) /\ ~ StringMap.In k m)).
Proof.
  split.
  - intros x Hx. apply StringMapFacts.F.add_in_iff. now right.
  - destruct (StringMap.mem k m) eqn:Hm.
    + apply StringMapFacts.F.mem_in_iff in Hm. left. split.
      * now apply cardinal_add_in.
      * intros x Hx. apply StringMapFacts.F.add_in_iff in Hx.
        destruct Hx as [<-|Hx]; auto.
    + assert (Hn : ~ StringMap.In k m).
      { intros Hin. apply StringMapFacts.F.mem_in_iff in Hin. congruence. }
      right. split; [now apply cardinal_add_new|split; [|exact Hn]].
      apply StringMapFacts.F.add_in_iff. now left.
Qed.

(** Along the loop [sets] keeps its keys; its size stays when no key is new
    and grows when one is. *)
Lemma rangeFields_grows (keys : StringMap.t (@Value Any)) fields : forall sets sets1,
  rangeFields IsEqual keys fields sets = Some sets1 ->
  (forall x, StringMap.In x sets -> StringMap.In x sets1)
  /\ ((StringMap.cardinal sets1 = StringMap.cardinal sets
       /\ forall x, StringMap.In x sets1 -> StringMap.In x sets)
      \/ ((StringMap.cardinal sets < StringMap.cardinal sets1)%nat
          /\ exists x, StringMap.In x sets1 /\ ~ StringMap.In x sets)).
Proof.
  assert (Hstep : forall k v (sets sets1 : StringMap.t (@Value Any)),
    ((forall x, StringMap.In x (StringMap.add k v sets) -> StringMap.In x sets1)
     /\ ((StringMap.cardinal sets1 = StringMap.cardinal (StringMap.add k v sets)
          /\ forall x, StringMap.In x sets1 -> StringMap.In x (StringMap.add k v sets))
         \/ ((StringMap.cardinal (StringMap.add k v sets) < StringMap.cardinal sets1)%nat
             /\ exists x, StringMap.In x sets1
                          /\ ~ StringMap.In x (StringMap.add k v sets)))) ->
    (forall x, StringMap.In x sets -> StringMap.In x sets1)
    /\ ((StringMap.cardinal sets1 = StringMap.cardinal sets
         /\ forall x, StringMap.In x sets1 -> StringMap.In x sets)
        \/ ((StringMap.cardinal sets < StringMap.cardinal sets1)%nat
            /\ exists x, StringMap.In x sets1 /\ ~ StringMap.In x sets))).
  { intros k v sets sets1 [Hsub Hcase].
    destruct (add_grows sets k v) as [Hsub0 Hcase0].
    split; [auto|].
    destruct Hcase0 as [[Hc0 Hd0]|(Hc0 & Hin0 & Hnew0)].
    - destruct Hcase as [[Hc Hd]|(Hc & x & Hx & Hnx)].
      + left. split; [congruence|auto].
      + right. split; [lia|]. exists x. split; [exact Hx|]. intros Hxs. auto.
    - right. split.
      + destruct Hcase as [[Hc Hd]|(Hc & _)]; lia.
      + exists k. split; [auto|exact Hnew0]. }
  induction fields as [|fld fields IH]; intros sets sets1 Hr.
  - injection Hr as <-. split; [auto|]. left. auto.
  - cbn [rangeFields] in Hr.
    destruct (negb (nonEmpty (beforeComma (dynamodbav fld)))); [now apply IH|].
    destruct (StringMap.mem (beforeComma (dynamodbav fld)) keys); [now apply IH|].
    destruct (fieldValue fld) as [f|f|a]; [|discriminate|];
      (destruct (exported fld); [|discriminate]);
      apply IH in Hr; now apply Hstep in Hr.
Qed.

(** The loop writes under tag names only, never under a name of [keys] and
    never under the empty name. *)
Lemma rangeFields_frame (keys : StringMap.t (@Value Any)) fields : forall sets sets1 x,
  rangeFields IsEqual keys fields sets = Some sets1 ->
  StringMap.In x keys \/ x = EmptyString \/ ~ In x (tagNames fields) ->
  StringMap.find x sets1 = StringMap.find x sets.
Proof.
  induction fields as [|fld fields IH]; intros sets sets1 x Hr Hx.
  - now injection Hr as <-.
  - assert (Hx' : StringMap.In x keys \/ x = EmptyString \/ ~ In x (tagNames fields)).
    { destruct Hx as [Hx|[Hx|Hx]]; auto. right; right. intros Hin. apply Hx. now right. }
    cbn [rangeFields] in Hr.
    destruct (negb (nonEmpty (beforeComma (dynamodbav fld)))) eqn:Hne;
      [now apply IH with (sets1 := sets1)|].
    destruct (StringMap.mem (beforeComma (dynamodbav fld)) keys) eqn:Hk;
      [now apply IH with (sets1 := sets1)|].
    assert (Hdiff : beforeComma (dynamodbav fld) <> x).
    { intros <-. destruct Hx as [Hx|[Hx|Hx]].
      - apply StringMapFacts.F.mem_in_iff in Hx. congruence.
      - rewrite Hx in Hne. discriminate.
      - apply Hx. now left. }
    destruct (fieldValue fld) as [f|f|a]; [|discriminate|];
      (destruct (exported fld); [|discriminate]);
      rewrite (IH _ _ x Hr Hx'); now apply StringMapFacts.F.add_neq_o.
Qed.


(** X15. A call of [KvSetsFromItem] that returns leaves every entry of [sets]
    whose name is a partition or sort key given in [keys], is empty, or is
    not the tag name of a field of the item exactly as it was; and for an
    item that is not a struct it leaves the whole of [sets] and returns the
    "item is not struct" error. *)
Theorem X15_KvSets_writes_tagged_non_keys (keys sets sets1 : StringMap.t (@Value Any))
  (item : @Item Any) (err : option string) :
  KvSetsFromItem IsEqual showItem keys sets item = Returns err sets1 ->
  (forall x, StringMap.In x keys -> StringMap.find x sets1 = StringMap.find x sets)
  /\ StringMap.find EmptyString sets1 = StringMap.find EmptyString sets
  /\ (forall fields x, item = ItemStruct fields -> ~ In x (tagNames fields) ->
        StringMap.find x sets1 = StringMap.find x sets)
  /\ (forall v, item = ItemNotStruct v ->
        sets1 = sets
        /\ err = Some (String.append "item is not struct, " (showItem item))).
Proof.
  unfold KvSetsFromItem. intros Hr.
  destruct item as [|v|fields]; [discriminate| |].
  - injection Hr as <- <-. repeat split; auto; intros; discriminate.
  - destruct (rangeFields IsEqual keys fields sets) as [sets2|] eqn:Hf; [|discriminate].
    assert (sets2 = sets1)
      by (destruct (Nat.eqb _ _); now injection Hr as _ <-).
    subst sets2. split; [|split; [|split]].
    + intros x Hx. apply (rangeFields_frame keys fields sets sets1 x Hf). now left.
    + apply (rangeFields_frame keys fields sets sets1 _ Hf). right; now left.
    + intros fields' x [= <-] Hx.
      apply (rangeFields_frame keys fields sets sets1 x Hf). right; now right.
    + intros v; discriminate.
Qed.

(** X16. A call of [KvSetsFromItem] that returns keeps every name [sets]
    had.  It returns no error exactly when [sets] has gained a name; when it
    returns an error [sets] has the names it had before, though the values
    under them may have been overwritten. *)
Theorem X16_KvSets_succeeds_iff_new_name (keys sets sets1 : StringMap.t (@Value Any))
  (item : @Item Any) (err : option string) :
  KvSetsFromItem IsEqual showItem keys sets item = Returns err sets1 ->
  (forall x, StringMap.In x sets -> StringMap.In x sets1)
  /\ (err = None ->
      (StringMap.cardinal sets < StringMap.cardinal sets1)%nat
      /\ exists x, StringMap.In x sets1 /\ ~ StringMap.In x sets)
  /\ (err <> None ->
      StringMap.cardinal sets1 = StringMap.cardinal sets
      /\ forall x, StringMap.In x sets1 <-> StringMap.In x sets).
Proof.
  unfold KvSetsFromItem. intros Hr.
  destruct item as [|v|fields]; [discriminate| |].
  - injection Hr as <- <-. repeat split; auto; try discriminate; tauto.
  - destruct (rangeFields IsEqual keys fields sets) as [sets2|] eqn:Hf; [|discriminate].
    destruct (rangeFields_grows keys fields sets sets2 Hf) as [Hsub Hcase].
    destruct (Nat.eqb (StringMap.cardinal sets2) (StringMap.cardinal sets)) eqn:Hc;
      injection Hr as <- <-.
    + apply Nat.eqb_eq in Hc. split; [exact Hsub|split; [discriminate|]].
      intros _. split; [exact Hc|].
      destruct Hcase as [[_ Hd]|[Hlt _]]; [|lia].
      intros x; split; auto.
    + apply Nat.eqb_neq in Hc. split; [exact Hsub|split; [|congruence]].
      intros _. destruct Hcase as [[Heq _]|[Hlt Hex]]; [congruence|auto].
Qed.


End DynamoProperties.

(** * The scenarios, run *)

Lemma C1_witness :
  (deleteCalls (snd (cycleOf Raw rawEnv withCB newWorker 0))
   = [{| Entries := [entryOf m1; entryOf m3]; DeleteQueueUrl := sampleUrl |}]
   /\ count_occ entry_eq_dec [entryOf m1; entryOf m3] (entryOf m3) = 1%nat)
  /\ deleteCalls (snd (cycleOf Wrapped wrappedEnv withCB newWorker 0))
     = [{| Entries := [entryOf n1; entryOf n2]; DeleteQueueUrl := sampleUrl |}].
Proof.
  split.
  - destruct (C1_success_acked_once Raw rawEnv withCB sampleCB newWorker 0
                _ 2 _ _ [m1; m2] m3 [] "world" "world" [entryOf m1] 5 _ 7
                eq_refl eq_refl eq_refl eq_refl eq_refl eq_refl) as [H1 H2].
    split; [exact H1|]. apply H2.
    intros m [<-|[<-|[]]]; discriminate.
  - exact (proj1 (C1_success_acked_once Wrapped wrappedEnv withCB sampleCB newWorker 0
                    _ 2 _ _ [] n1 [n2; n3] (envelope "hello" "t1") "hello" [] 2 _ 4
                    eq_refl eq_refl eq_refl eq_refl eq_refl eq_refl)).
Defined.

Lemma C2_witness :
  (fst (fst (rangeOf Raw rawEnv withCB 0 rawBatch [] 2)) = [entryOf m1; entryOf m3]
   /\ deleteCalls (snd (cycleOf Raw rawEnv withCB newWorker 0))
      = [{| Entries := [entryOf m1; entryOf m3]; DeleteQueueUrl := sampleUrl |}]
   /\ callbackCalls (snd (cycleOf Raw rawEnv withCB newWorker 0))
      = ["hello"; "bad"; "world"]%string)
  /\ callbackCalls (snd (cycleOf Wrapped wrappedEnv withCB newWorker 0))
     = ["hello"; "bad"]%string.
Proof.
  split.
  - destruct (C2_failure_not_acked Raw rawEnv withCB sampleCB newWorker 0
                _ 2 _ _ [m1] m2 [m3] "bad" "bad" "boom" [entryOf m1] 4 _ 5
                eq_refl eq_refl eq_refl eq_refl eq_refl eq_refl)
      as (H1 & H2 & H3 & _).
    split; [exact H1|split; [exact H2|exact H3]].
  - destruct (C2_failure_not_acked Wrapped wrappedEnv withCB sampleCB newWorker 0
                _ 2 _ _ [n1; n2] n3 [] (envelope "bad" "t3") "bad" "boom"
                [entryOf n1; entryOf n2] 4 _ 5
                eq_refl eq_refl eq_refl eq_refl eq_refl eq_refl)
      as (_ & _ & H3 & _).
    exact H3.
Defined.

Lemma C3_witness :
  deleteCalls (snd (processMessagesCycle wrappedEnv withCB newWorker 0))
  = [{| Entries := [entryOf n1; entryOf n2]; DeleteQueueUrl := sampleUrl |}]
  /\ callbackCalls (snd (processMessagesCycle wrappedEnv withCB newWorker 0))
     = ["hello"; "bad"]%string.
Proof.
  destruct (C3_poison_deleted_unhandled wrappedEnv withCB newWorker 0
              _ 2 _ _ [n1] n2 [n3] "junk" "invalid character" [entryOf n1] 4 _
              eq_refl eq_refl eq_refl eq_refl) as (_ & H2 & H3).
  split; [exact H2|exact H3].
Defined.

(** The wrapped loop with a nil callback deletes the message whose body does
    not decode: the claim that a nil callback never acknowledges fails. *)
Lemma C4_counterexample :
  messageCB noCB = None
  /\ deleteCalls (snd (processMessagesCycle wrappedEnv noCB newWorker 0))
     = [{| Entries := [entryOf n2]; DeleteQueueUrl := sampleUrl |}].
Proof. split; reflexivity. Defined.

Lemma C4_witness :
  deleteCalls (snd (processMessagesV1Cycle rawEnv noCB newWorker 0)) = []
  /\ callbackCalls (snd (processMessagesCycle wrappedEnv noCB newWorker 0)) = []
  /\ deleteCalls (snd (processMessagesCycle wrappedEnv noCB newWorker 0))
     = [{| Entries := [entryOf n2]; DeleteQueueUrl := sampleUrl |}].
Proof.
  split; [|split].
  - exact (proj1 (C4_nil_callback_acks_only_poison rawEnv noCB newWorker 0 eq_refl)).
  - exact (proj1 (proj2 (proj2
             (C4_nil_callback_acks_only_poison wrappedEnv noCB newWorker 0 eq_refl)))).
  - apply (proj2 (proj2 (proj2
             (C4_nil_callback_acks_only_poison wrappedEnv noCB newWorker 0 eq_refl)))
             wrappedBatch).
    simpl. now left.
Defined.

Lemma C5_witness :
  unmarshalCalls (snd (processMessagesV1Cycle rawEnv withCB newWorker 0)) = []
  /\ callbackCalls (snd (processMessagesV1Cycle rawEnv withCB newWorker 0))
     = ["hello"; "bad"; "world"]%string.
Proof.
  destruct (C5_raw_verbatim rawEnv withCB sampleCB newWorker 0 eq_refl) as [H1 H2].
  split; [exact H1|]. apply (H2 rawBatch). simpl. now left.
Defined.

Lemma C6_witness :
  errorLogs (snd (processMessagesV1Cycle deadlineEnv withCB newWorker 0)) = []
  /\ errorLogs (snd (processMessagesCycle deadlineEnv withCB newWorker 0))
     = ["sqs SQS.processMessages receive message fail."%string].
Proof.
  split.
  - apply (proj1 (C6_deadline_quiet_in_raw_only deadlineEnv withCB newWorker 0
                    _ 2 _ "sqs@eu-west-1"%string) deadline eq_refl eq_refl).
  - rewrite (proj2 (proj2 (proj2
              (C6_deadline_quiet_in_raw_only deadlineEnv withCB newWorker 0
                 _ 2 _ "sqs@eu-west-1"%string))) deadline eq_refl).
    reflexivity.
Defined.

Lemma C7_witness :
  deleteCalls (snd (cycleOf Raw rawEnv withCB newWorker 0))
  = [{| Entries := [entryOf m1; entryOf m3]; DeleteQueueUrl := sampleUrl |}]
  /\ deleteCalls (snd (cycleOf Wrapped lateSessionEnv withCB readyWorker 0)) = []
  /\ deleteCalls (snd (cycleOf Wrapped deadlineEnv withCB newWorker 0)) = [].
Proof.
  split; [|split].
  - exact (proj1 (proj2 (C7_delete_iff_staged Raw rawEnv withCB newWorker 0))
             _ 2 _ _ rawBatch eq_refl).
  - destruct (proj1 (proj2 (proj2
               (C7_delete_iff_staged Wrapped lateSessionEnv withCB readyWorker 0)))
               _ 1 _ _ eq_refl) as (Hc & _ & _ & Hd).
    rewrite Hc. exact Hd.
  - apply (proj2 (proj2 (proj2
             (C7_delete_iff_staged Wrapped deadlineEnv withCB newWorker 0)))
             _ 2 _ _ eq_refl).
    intros sv msgs; discriminate.
Defined.

Lemma C8_witness :
  deleteCalls (snd (cycleOf Raw failingDeleteEnv withCB newWorker 0))
  = [{| Entries := [entryOf m1; entryOf m3]; DeleteQueueUrl := sampleUrl |}]
  /\ service (fst (fst (cycleOf Raw failingDeleteEnv withCB newWorker 0)))
     = Some "sqs@eu-west-1"%string
  /\ length (snd (forLoop (cycleOf Raw failingDeleteEnv withCB) 3
                    (fst (fst (cycleOf Raw failingDeleteEnv withCB newWorker 0)))
                    (snd (fst (cycleOf Raw failingDeleteEnv withCB newWorker 0)))))
     = 3%nat.
Proof.
  destruct (C8_delete_failure_no_retry Raw failingDeleteEnv withCB newWorker 0
              "sqs@eu-west-1"%string 1
              {| Entries := [entryOf m1; entryOf m3]; DeleteQueueUrl := sampleUrl |}
              "timeout"%string) as (H1 & _ & H3 & H4).
  - vm_compute. do 12 right. left. reflexivity.
  - split; [exact H1|split; [exact H3|]]. exact (proj1 (H4 3%nat)).
Defined.

Lemma C9_witness :
  sessionCalls (snd (cycleOf Wrapped lateSessionEnv withCB newWorker 0))
  = [awsConfig withCB]
  /\ fst (fst (forLoop (cycleOf Wrapped lateSessionEnv withCB) 4 readyWorker 5))
     = readyWorker
  /\ cfgSession (fst (fst (cycleOf Wrapped lateSessionEnv withCB newWorker 1)))
     = Some "eu-west-1"%string
  /\ cfgSession (fst (fst (cycleOf Wrapped lateSessionEnv withCB newWorker 0))) = None.
Proof.
  pose proof (C9_session_built_once Wrapped lateSessionEnv withCB newWorker 0)
    as (H1 & _ & _ & H4).
  pose proof (C9_session_built_once Wrapped lateSessionEnv withCB readyWorker 5)
    as (_ & H2 & _).
  pose proof (C9_session_built_once Wrapped lateSessionEnv withCB newWorker 1)
    as (_ & _ & H3 & _).
  split; [exact H1|split; [|split]].
  - apply (H2 "sqs@eu-west-1"%string 4%nat); [discriminate|reflexivity].
  - apply (H3 "eu-west-1"%string 2); reflexivity.
  - rewrite (proj1 (H4 "no region"%string 1 eq_refl eq_refl)). reflexivity.
Defined.

Lemma C10_witness :
  NewSQS (sampleConfig (-3)) (Some sampleCB)
  = ({| config := sampleConfig (-3); messageCB := Some sampleCB |}, [])
  /\ NewSQSV1 (sampleConfig 0) (Some sampleCB)
     = ({| config := sampleConfig 0; messageCB := Some sampleCB |}, []).
Proof.
  split.
  - apply (C10_no_workers (sampleConfig (-3)) (Some sampleCB)). simpl. lia.
  - apply (C10_no_workers (sampleConfig 0) (Some sampleCB)). simpl. lia.
Defined.

Lemma X1_witness :
  snd (NewSQS (sampleConfig 3) (Some sampleCB))
  = [GoProcessMessages 0; GoProcessMessages 1; GoProcessMessages 2]
  /\ Z.of_nat (length (snd (NewSQSV1 (sampleConfig 3) (Some sampleCB)))) = 3.
Proof.
  assert (H : 0 <= ConsumerCnt (sampleConfig 3)) by (simpl; lia).
  destruct (X1_workers_started (sampleConfig 3) (Some sampleCB) H) as (H1 & _ & _ & H4).
  split; [exact H1|exact H4].
Defined.

Lemma X2_witness :
  subseq [entryOf m1; entryOf m3] (map entryOf rawBatch) /\ (2 <= 3)%nat.
Proof.
  apply (X2_delete_batch_in_order Raw rawEnv withCB newWorker 0
           {| Entries := [entryOf m1; entryOf m3]; DeleteQueueUrl := sampleUrl |}
           rawBatch).
  - vm_compute. left. reflexivity.
  - vm_compute. left. reflexivity.
Defined.

Lemma X3_witness :
  unmarshalCalls (snd (processMessagesCycle wrappedEnv withCB newWorker 0))
  = [envelope "hello" "t1"; "junk"%string; envelope "bad" "t3"]
  /\ callbackCalls (snd (processMessagesCycle wrappedEnv withCB newWorker 0))
     = ["hello"; "bad"]%string.
Proof.
  assert (H : In (Ok wrappedBatch)
                (receiveCalls (snd (processMessagesCycle wrappedEnv withCB newWorker 0))))
    by (vm_compute; left; reflexivity).
  destruct (X3_wrapped_decodes_then_calls wrappedEnv withCB newWorker 0 wrappedBatch H)
    as [H1 H2].
  split; [exact H1|exact (H2 sampleCB eq_refl)].
Defined.

Lemma X4_witness :
  callShape Raw withCB
    (EvReceive "sqs@eu-west-1"%string 6 (receiveInput withCB 5) (Ok rawBatch)
     : @Event string string).
Proof.
  apply (X4_call_arguments Raw rawEnv withCB newWorker 0).
  vm_compute. do 3 right. left. reflexivity.
Defined.

Lemma X6_witness :
  deleteCalls (snd (cycleOf Raw bodylessEnv withCB newWorker 0)) = []
  /\ callbackCalls (snd (cycleOf Raw bodylessEnv withCB newWorker 0)) = []
  /\ unmarshalCalls (snd (cycleOf Raw bodylessEnv withCB newWorker 0)) = [].
Proof.
  apply (proj2 (X6_bodyless_messages_skipped Raw bodylessEnv withCB newWorker 0)
           [{| MessageId := Some "9"%string; ReceiptHandle := Some "rh-9"%string;
               Body := None |}]).
  - vm_compute. left. reflexivity.
  - reflexivity.
Defined.

Lemma X8_witness :
  errorLogs (snd (processMessagesV1Cycle deadlineEnv withCB newWorker 0)) = [].
Proof.
  apply (proj2 (X8_deadline_text_anywhere deadlineEnv withCB newWorker 0
                  _ 2 _ "sqs@eu-west-1"%string deadline eq_refl)).
  exists "RequestCanceled: request context canceled caused by: "%string, EmptyString.
  reflexivity.
Defined.

Lemma X10_witness :
  StringMap.find ":u2"%string
    (snd (getUpdateExpression samplePrefixes sampleSets sampleRemoves noNames noValues))
  = Some 2
  /\ StringMap.find "#r1"%string
       (snd (fst (getUpdateExpression samplePrefixes sampleSets sampleRemoves
                    noNames noValues)))
     = Some "old"%string
  /\ StringMap.find "#u1"%string
       (snd (fst (getUpdateExpression samplePrefixes sampleSets sampleRemoves
                    noNames noValues)))
     = Some "price"%string.
Proof.
  destruct (X10_update_placeholders_resolve samplePrefixes sampleSets sampleRemoves
              noNames noValues) as (H1 & H2 & H3).
  split; [|split].
  - exact (H1 1%nat "qty"%string 2 eq_refl).
  - exact (H2 0%nat "old"%string 0 eq_refl).
  - refine (H3 _ 0%nat "price"%string 10 eq_refl).
    apply apart_first_char. discriminate.
Defined.

Lemma X11_witness :
  StringMap.find "#keep"%string
    (snd (fst (getUpdateExpression samplePrefixes sampleSets sampleRemoves
                 keptNames noValues)))
  = Some "kept"%string.
Proof.
  rewrite (proj1 (X11_update_writes_placeholders_only samplePrefixes sampleSets
                    sampleRemoves keptNames noValues) "#keep"%string).
  - reflexivity.
  - intros i. unfold namePlaceholderOf. simpl. discriminate.
  - intros j. unfold namePlaceholderOf. simpl. discriminate.
Defined.

Lemma X13_witness :
  StringMap.find "#e1"%string
    (snd (fst (getConditionExpression samplePrefixes sampleConditions noNames noValues)))
  = Some "id"%string
  /\ StringMap.find ":q1"%string
       (snd (getConditionExpression samplePrefixes sampleConditions noNames noValues))
     = Some 3.
Proof.
  assert (Hap : forall c1 c2 : ascii, c1 <> c2 ->
            apart (String c1 EmptyString) (String c2 EmptyString))
    by (intros; now apply apart_first_char).
  destruct (X13_condition_placeholders_resolve samplePrefixes sampleConditions
              noNames noValues) as (H1 & _ & H3 & _);
    try (apply Hap; discriminate).
  split.
  - exact (H1 0%nat "id"%string eq_refl).
  - exact (proj2 (H3 0%nat "version"%string 3 eq_refl)).
Defined.

Lemma X14_witness : Float64 sampleIsEqual 1.5%float = 1.5%float.
Proof.
  apply (proj2 (proj2 (proj2 (X14_Float64_finite sampleIsEqual 1.5%float))));
    reflexivity.
Defined.

Lemma X15_witness :
  StringMap.find "pk"%string (leftSets freshCall) = None
  /\ StringMap.find "other"%string (leftSets pricedCall)
     = StringMap.find "other"%string priced.
Proof.
  split.
  - rewrite (proj1 (X15_KvSets_writes_tagged_non_keys sampleIsEqual sampleShow
                      sampleKeys (StringMap.empty _) (leftSets freshCall) sampleItem
                      (returnedErr freshCall) eq_refl) "pk"%string).
    + reflexivity.
    + apply StringMapFacts.F.mem_in_iff. reflexivity.
  - destruct (X15_KvSets_writes_tagged_non_keys sampleIsEqual sampleShow
                sampleKeys priced (leftSets pricedCall) sampleItem
                (returnedErr pricedCall) eq_refl) as (_ & _ & H3 & _).
    apply (H3 _ "other"%string eq_refl).
    simpl. intros [H|[H|[H|[H|[]]]]]; discriminate.
Defined.

Lemma X16_witness :
  (StringMap.cardinal (StringMap.empty (@Value Z))
   < StringMap.cardinal (leftSets freshCall))%nat
  /\ StringMap.cardinal (leftSets pricedCall) = StringMap.cardinal priced.
Proof.
  split.
  - apply (proj1 (proj2 (X16_KvSets_succeeds_iff_new_name sampleIsEqual sampleShow
                           sampleKeys (StringMap.empty _) (leftSets freshCall) sampleItem
                           (returnedErr freshCall) eq_refl))).
    reflexivity.
  - apply (proj2 (proj2 (X16_KvSets_succeeds_iff_new_name sampleIsEqual sampleShow
                           sampleKeys priced (leftSets pricedCall) sampleItem
                           (returnedErr pricedCall) eq_refl))).
    discriminate.
Defined.

